(** * sqlcache: the query interception and result-capture engine

    A shallow embedding of the Go package [sqlcache]: the attribute parser
    (src/attr.go), the key generator (src/unnamed/part_002), the cached
    row cursor (src/unnamed/part_007), the row-capture adapter
    (src/unnamed/part_000), the interceptor (src/interceptor.go) and the
    [cache] package's types (src/unnamed/part_002), with the properties of
    the specification.

    Conventions.
    - A Go [string] is a sequence of bytes: Rocq's [string] of [ascii].
    - Go's [int] is taken 64 bits wide (amd64, arm64); [int], [int64],
      [uint64] and [time.Duration] are [Z] with the wrap-around written out.
    - A pointer that may be [nil] is an [option]; a nil-pointer dereference
      is the outcome [Panic].
    - The cache backend, the wrapped driver and its cursors are Go
      interfaces: records of step functions over a state of their own.
    - A [[]byte] is a slice header; the bytes it points to are in the
      [heap]. The wrapped cursor owns the arrays behind the values it hands
      out and is the one to write them, so the heap is read off its state,
      and it is given to whoever is handed a value and reads its bytes. *)

From Stdlib Require Import ZArith List String Ascii Bool Lia Permutation.
From Stdlib Require Import Numbers.DecimalString Numbers.DecimalN.
From Stdlib Require Numbers.DecimalPos.
Import ListNotations.

Local Open Scope string_scope.
Local Open Scope list_scope.
Local Open Scope Z_scope.

(** String concatenation, Go's [+] on strings. *)
Infix "+++" := String.append (right associativity, at level 60).

(** ** Go values shared by the packages *)

(** Go's [error] values that the package sees or builds: [io.EOF], an opaque
    error of a collaborator ([errors.New]), an error wrapped by
    [fmt.Errorf("<prefix>: %w", err)], and [strconv]'s two failures. *)
Inductive error : Type :=
| io_EOF
| errorString (msg : string)
| wrapError (prefix : string) (err : error)
| ErrSyntax
| ErrRange.

(** [err == io.EOF] on a possibly nil error. *)
Definition isEOF (err : option error) : bool :=
  match err with
  | Some io_EOF => true
  | _ => false
  end.

(** [err != nil]. *)
Definition notNil {A : Type} (p : option A) : bool :=
  match p with
  | Some _ => true
  | None => false
  end.

(** Go's heap, as far as a [[]byte] points into it: the byte at each
    address. *)
Definition heap : Type := nat -> ascii.

(** The header of a [[]byte] slice: the address of its first byte, its
    length and its capacity. Assigning or copying a slice copies the
    header; the bytes stay where they are, shared by every copy. *)
Record slice : Type := mkSlice {
  Data : nat;
  Len : nat;
  Cap : nat
}.

(** The values of the type [driver.Value]: nil, int64, float64 (its IEEE
    bits), bool, []byte, string (immutable) or time.Time (nanoseconds).
    [A] is what stands for a [[]byte]. *)
Inductive value (A : Type) : Type :=
| VNil
| VInt64 (n : Z)
| VFloat64 (bits : Z)
| VBool (b : bool)
| VBytes (b : A)
| VString (s : string)
| VTime (ns : Z).
Arguments VNil {A}.
Arguments VInt64 {A} n.
Arguments VFloat64 {A} bits.
Arguments VBool {A} b.
Arguments VBytes {A} b.
Arguments VString {A} s.
Arguments VTime {A} ns.

(** [driver.Value] as a row holds it, and as assignment and [copy] move
    it: an interface value, a [[]byte] being its slice header. *)
Definition Value : Type := value slice.

(** What a reader finds in a value: a [[]byte] by the bytes the heap holds
    there at that moment, any other value as it is. *)
Definition content : Type := value (list ascii).

(** The bytes of a slice in a heap. *)
Definition load (h : heap) (b : slice) : list ascii :=
  map h (seq (Data b) (Len b)).

Definition read (h : heap) (v : Value) : content :=
  match v with
  | VNil => VNil
  | VInt64 n => VInt64 n
  | VFloat64 bits => VFloat64 bits
  | VBool b => VBool b
  | VBytes b => VBytes (load h b)
  | VString s => VString s
  | VTime ns => VTime ns
  end.

Definition readRows (h : heap) (rows : list (list Value))
  : list (list content) :=
  map (map (read h)) rows.

(** [driver.NamedValue]. A parameter is read while the call it is passed
    to lasts, by the key function and by the driver: it is given with what
    they find in it, a [[]byte] with its bytes. *)
Record NamedValue : Type := mkNamedValue {
  Name : string;
  Ordinal : Z;
  NValue : content
}.

(** The outcome of a call that may dereference a nil pointer. *)
Inductive outcome (A : Type) : Type :=
| Ok (a : A)
| Panic.
Arguments Ok {A} a.
Arguments Panic {A}.

(** Go's builtin [copy(dst, src)]: overwrites the first
    [min(len(dst), len(src))] elements of [dst]. On [driver.Value]s it
    copies the interface values: a [[]byte] among them is copied as its
    header and goes on sharing its bytes with the source. *)
Definition copy {A : Type} (dst src : list A) : list A :=
  firstn (List.length dst) src ++ skipn (List.length src) dst.

(** A line feed. *)
Definition nl : string := String (ascii_of_nat 10) EmptyString.

(** ** Machine integers *)

Definition maxInt : Z := 9223372036854775807.
Definition minInt : Z := -9223372036854775808.

(** Signed 64-bit wrap-around. *)
Definition wrap64 (z : Z) : Z :=
  (z + 9223372036854775808) mod 18446744073709551616 - 9223372036854775808.

(** Unsigned 64-bit wrap-around. *)
Definition wrapU64 (z : Z) : Z := z mod 18446744073709551616.

(** The values of a [uint64]. *)
Definition uint64 (z : Z) : Prop := 0 <= z < 18446744073709551616.

(** ** Package strconv (Go's standard library, as documented) *)
Module strconv.

Definition isDigit (c : ascii) : bool :=
  ((48 <=? nat_of_ascii c) && (nat_of_ascii c <=? 57))%nat.

Definition digitVal (c : ascii) : Z := Z.of_nat (nat_of_ascii c) - 48.

(** The digits of [s] read in base 10 onto [acc]; [None] when a byte is
    not a digit. *)
Fixpoint readDigits (s : string) (acc : Z) : option Z :=
  match s with
  | EmptyString => Some acc
  | String c t =>
      if isDigit c then readDigits t (acc * 10 + digitVal c) else None
  end.

(** [strconv.Atoi]: an optional sign and decimal digits. A syntax error
    gives 0; a value out of the range of [int] gives the nearest bound
    together with [ErrRange]. *)
Definition Atoi (s : string) : Z * option error :=
  let '(neg, body) :=
    match s with
    | String "-"%char t => (true, t)
    | String "+"%char t => (false, t)
    | _ => (false, s)
    end in
  match body with
  | EmptyString => (0, Some ErrSyntax)
  | _ =>
      match readDigits body 0 with
      | None => (0, Some ErrSyntax)
      | Some n =>
          if neg then
            if n <=? 9223372036854775808 then (- n, None)
            else (minInt, Some ErrRange)
          else
            if n <=? maxInt then (n, None) else (maxInt, Some ErrRange)
      end
  end.

(** [strconv.FormatUint(u, 10)] and [strconv.Itoa]/[%d] of a
    non-negative number. *)
Definition FormatUint (u : Z) : string :=
  NilEmpty.string_of_uint (N.to_uint (Z.to_N u)).

(** [%d] of an [int]. *)
Definition Itoa (i : Z) : string :=
  if i <? 0 then "-" +++ FormatUint (- i) else FormatUint i.

End strconv.

(** ** Package regexp, for the one pattern of attr.go *)
Module regexp.

(** [strings.CutPrefix]: the rest of [s] after the literal [p]. *)
Fixpoint cutPrefix (p s : string) : option string :=
  match p with
  | EmptyString => Some s
  | String a p' =>
      match s with
      | EmptyString => None
      | String b s' => if Ascii.eqb a b then cutPrefix p' s' else None
      end
  end.

(** [\d*], greedy: the longest run of ASCII digits that starts [s]. *)
Fixpoint spanDigits (s : string) : string :=
  match s with
  | EmptyString => EmptyString
  | String c t =>
      if strconv.isDigit c then String c (spanDigits t) else EmptyString
  end.

(** One alternative of the first group, followed by [ (\d+)], anchored at
    the start of [s]. The result is the submatch slice
    [[whole; group 1; group 2]]. *)
Definition matchKeyword (kw s : string) : option (list string) :=
  match cutPrefix (kw +++ " ") s with
  | None => None
  | Some rest =>
      match spanDigits rest with
      | EmptyString => None
      | ds => Some [kw +++ " " +++ ds; kw; ds]
      end
  end.

(** [(@cache-ttl|@cache-max-rows) (\d+)] anchored at the start of [s]:
    the alternatives are tried in order (leftmost-first). *)
Definition matchHere (s : string) : option (list string) :=
  match matchKeyword "@cache-ttl" s with
  | Some m => Some m
  | None => matchKeyword "@cache-max-rows" s
  end.

(** Length of the whole match, [len(match[0])]. *)
Definition matchLen (m : list string) : nat :=
  String.length (hd EmptyString m).

(** The scan of [FindAllStringSubmatch]: successive non-overlapping
    matches, leftmost first, at most [n] of them. [skip] bytes of the last
    match are still to be stepped over. *)
Fixpoint findAll (n skip : nat) (s : string) {struct s}
  : list (list string) :=
  match n with
  | O => []
  | S n' =>
      match skip with
      | S k =>
          match s with
          | EmptyString => []
          | String _ t => findAll n k t
          end
      | O =>
          match matchHere s with
          | Some m =>
              m :: match s with
                   | EmptyString => []
                   | String _ t => findAll n' ((matchLen m - 1)%nat) t
                   end
          | None =>
              match s with
              | EmptyString => []
              | String _ t => findAll n 0 t
              end
          end
      end
  end.

(** [attrRegexp.FindAllStringSubmatch(s, n)] for [n >= 0]. *)
Definition FindAllStringSubmatch (s : string) (n : nat)
  : list (list string) :=
  findAll n 0 s.

End regexp.

(** ** Package fmt: [Sprintf] with the verbs the package uses *)
Module fmt.

Inductive arg : Type :=
| Int (i : Z)
| Str (s : string).

Definition verb (v : ascii) (a : arg) : string :=
  match v, a with
  | "d"%char, Int i => strconv.Itoa i
  | "s"%char, Str s => s
  | _, _ => "%!" +++ String v "(BADVERB)"
  end.

Fixpoint Sprintf (format : string) (args : list arg) : string :=
  match format with
  | EmptyString => EmptyString
  | String "%"%char (String v rest) =>
      match args with
      | a :: args' => verb v a +++ Sprintf rest args'
      | [] => "%!" +++ String v "(MISSING)" +++ Sprintf rest []
      end
  | String ch rest => String ch (Sprintf rest args)
  end.

End fmt.

(** ** attr.go (src/attr.go) *)

Record attributes : Type := mkAttributes {
  ttl : Z;
  maxRows : Z
}.

(** The body of [for _, match := range matches]. *)
Fixpoint getAttrs_range (matches : list (list string)) (attrs : attributes)
  : option attributes :=
  match matches with
  | [] => Some attrs
  | m :: rest =>
      if negb (List.length m =? 3)%nat then None
      else
        let m1 := nth 1 m EmptyString in
        let m2 := nth 2 m EmptyString in
        if String.eqb m1 "@cache-ttl" then
          getAttrs_range rest
            {| ttl := fst (strconv.Atoi m2); maxRows := maxRows attrs |}
        else if String.eqb m1 "@cache-max-rows" then
          getAttrs_range rest
            {| ttl := ttl attrs; maxRows := fst (strconv.Atoi m2) |}
        else getAttrs_range rest attrs
  end.

Definition getAttrs (query : string) : option attributes :=
  let matches := regexp.FindAllStringSubmatch query 2 in
  if negb (List.length matches =? 2)%nat then None
  else getAttrs_range matches {| ttl := 0; maxRows := 0 |}.

(** ** Package cache (src/unnamed/part_002, second file) *)
Module cache.

(** [Item]: the results of a single SQL query. *)
Record Item : Type := mkItem {
  Cols : list string;
  Rows : list (list Value)
}.

(** [new(cache.Item)]. *)
Definition newItem : Item := {| Cols := []; Rows := [] |}.

(** The interface [Cacher] over a backend with state [B]. [Get] returns
    a pointer to the item (possibly nil), a bool and an error; [Set] takes
    the key, the item (the package never hands it a nil one) and the TTL, a
    [time.Duration] in nanoseconds. [Set] is handed a pointer, and what it
    reads behind the item's [[]byte] values are the bytes in memory during
    the call: the heap of that moment is its second argument. The context
    argument carries no data of the package and is left out. *)
Record Cacher (B : Type) : Type := mkCacher {
  Get : B -> string -> B * (option Item * bool * option error);
  Set_ : B -> heap -> string -> Item -> Z -> B * option error
}.
Arguments Get {B} _ _ _.
Arguments Set_ {B} _ _ _ _ _ _.

End cache.

(** ** Package database/sql/driver: the interfaces the package consumes *)
Module driver.

(** [driver.Rows] over a cursor with state [R]: its three methods, and
    [Heap], the bytes in memory while the cursor is in a given state. The
    interface lets a cursor hand out the same array from one [Next] to the
    next and write to it in any of its calls ("the dest should not be
    written to outside of Next", "care should be taken when closing Rows
    not to modify a buffer held in dest"), so what is read behind a
    [[]byte] it handed out depends on the state it is in by then. *)
Record Rows (R : Type) : Type := mkRows {
  Columns : R -> R * list string;
  Close : R -> R * option error;
  Next : R -> list Value -> R * list Value * option error;
  Heap : R -> heap
}.
Arguments Columns {R} _ _.
Arguments Close {R} _ _.
Arguments Next {R} _ _ _.
Arguments Heap {R} _ _.

(** [driver.QueryerContext] over a connection with state [D]; the cursor
    it returns may be nil. *)
Record QueryerContext (D R : Type) : Type := mkQueryerContext {
  QueryContext :
    D -> string -> list NamedValue -> D * (option R * option error)
}.
Arguments QueryContext {D R} _ _ _ _.

(** [driver.StmtQueryContext]: the statement already holds its text. *)
Record StmtQueryContext (D R : Type) : Type := mkStmtQueryContext {
  StmtQuery : D -> list NamedValue -> D * (option R * option error)
}.
Arguments StmtQuery {D R} _ _ _.

End driver.

(** ** Package time and sync/atomic *)
Module time.
Definition Second : Z := 1000000000.
(** [time.Duration(n) * time.Second] in int64 arithmetic. *)
Definition seconds (n : Z) : Z := wrap64 (wrap64 n * Second).
End time.

Module atomic.
(** [atomic.AddUint64(&x, delta)]: the new value of [x]. *)
Definition AddUint64 (x delta : Z) : Z := wrapU64 (x + delta).
(** [atomic.LoadUint64(&x)]. *)
Definition LoadUint64 (x : Z) : Z := x.
End atomic.

(** ** The cached row cursor (src/unnamed/part_007) *)
Module rowsCached.

(** [rowsCached] embeds [*cache.Item], which may be nil. [ptr] only
    counts up from 0 to the number of rows. *)
Record t : Type := mk {
  Item : option cache.Item;
  ptr : nat
}.

Definition Columns (r : t) : outcome (list string) :=
  match Item r with
  | None => Panic
  | Some it => Ok (cache.Cols it)
  end.

(** [Next]. [copy] hands the caller the values of the cached row
    themselves: a [[]byte] among them as the slice header the item holds. *)
Definition Next (r : t) (dest : list Value)
  : outcome (t * list Value * option error) :=
  match Item r with
  | None => Panic
  | Some it =>
      if (List.length (cache.Rows it) <=? ptr r)%nat
      then Ok (r, dest, Some io_EOF)
      else
        Ok ({| Item := Item r; ptr := S (ptr r) |},
            copy dest (nth (ptr r) (cache.Rows it) []),
            None)
  end.

Definition Close (r : t) : t * option error := (r, None).

End rowsCached.

(** ** The row-capture adapter (src/unnamed/part_000) *)
Module rowsRecorder.
Section Recorder.

(** [R]: the state of the wrapped cursor; [W]: the state the setter
    callback acts on. The setter is handed the pointer [r.item]; the heap
    it finds behind the item's [[]byte] values is its first argument. *)
Context {R W : Type}.
Variable I : driver.Rows R.

Record t : Type := mk {
  item : cache.Item;
  setter : heap -> cache.Item -> W -> W;
  gotErr : bool;
  gotEOF : bool;
  maxRowsHit : bool;
  maxRows : Z;
  dr : option R
}.

Definition newRowsRecorder (setter : heap -> cache.Item -> W -> W)
  (rows : option R) (maxRows : Z) : t :=
  {| item := cache.newItem; setter := setter;
     gotErr := false; gotEOF := false; maxRowsHit := false;
     maxRows := maxRows; dr := rows |}.

Definition Columns (r : t) : outcome (t * list string) :=
  match dr r with
  | None => Panic
  | Some d =>
      let '(d', cols) := driver.Columns I d in
      Ok ({| item := {| cache.Cols := cols;
                        cache.Rows := cache.Rows (item r) |};
             setter := setter r;
             gotErr := gotErr r; gotEOF := gotEOF r;
             maxRowsHit := maxRowsHit r;
             maxRows := maxRows r; dr := Some d' |},
          cols)
  end.

(** [Close]. The setter runs after the wrapped cursor's [Close]: the heap
    it reads the item in is the one that call leaves. *)
Definition Close (r : t) (w : W) : outcome (t * W * option error) :=
  match dr r with
  | None => Panic
  | Some d =>
      let '(d', err) := driver.Close I d in
      match err with
      | Some e =>
          Ok ({| item := item r; setter := setter r;
                 gotErr := true; gotEOF := gotEOF r;
                 maxRowsHit := maxRowsHit r;
                 maxRows := maxRows r; dr := Some d' |},
              w, Some e)
      | None =>
          let r' := {| item := item r; setter := setter r;
                       gotErr := gotErr r; gotEOF := gotEOF r;
                       maxRowsHit := maxRowsHit r;
                       maxRows := maxRows r; dr := Some d' |} in
          if gotEOF r && negb (gotErr r) && negb (maxRowsHit r)
          then Ok (r', setter r (driver.Heap I d') (item r) w, None)
          else Ok (r', w, None)
      end
  end.

(** [Next]. [cpy] is a new slice of interface values, filled by [copy]:
    the values of [dest] themselves, so that a [[]byte] in the buffered
    row is the header the wrapped cursor wrote into [dest], over the same
    bytes. *)
Definition Next (r : t) (dest : list Value)
  : outcome (t * list Value * option error) :=
  match dr r with
  | None => Panic
  | Some d =>
      let '(d', dest', err) := driver.Next I d dest in
      let eof := if notNil err then gotEOF r || isEOF err else gotEOF r in
      let bad :=
        if notNil err then gotErr r || negb (isEOF err) else gotErr r in
      if eof || bad || maxRowsHit r then
        Ok ({| item := item r; setter := setter r;
               gotErr := bad; gotEOF := eof;
               maxRowsHit := maxRowsHit r;
               maxRows := maxRows r; dr := Some d' |},
            dest', err)
      else if Z.of_nat (List.length (cache.Rows (item r))) =? maxRows r then
        Ok ({| item := item r; setter := setter r;
               gotErr := bad; gotEOF := eof;
               maxRowsHit := true;
               maxRows := maxRows r; dr := Some d' |},
            dest', err)
      else
        let cpy := copy (repeat VNil (List.length dest')) dest' in
        Ok ({| item := {| cache.Cols := cache.Cols (item r);
                          cache.Rows := cache.Rows (item r) ++ [cpy] |};
               setter := setter r;
               gotErr := bad; gotEOF := eof;
               maxRowsHit := maxRowsHit r;
               maxRows := maxRows r; dr := Some d' |},
            dest', err)
  end.

End Recorder.
Arguments t : clear implicits.
End rowsRecorder.

(** ** interceptor.go (src/interceptor.go) *)

(** [Stats]: the statistics counters, each a [uint64]. *)
Record Stats : Type := mkStats {
  Hits : Z;
  Misses : Z;
  Errors : Z
}.

Module Interceptor.
Section Interceptor.

(** [B]: the state of the cache backend; [U]: the state the user's
    callbacks ([HashFunc], [OnError]) close over; [D], [R]: the wrapped
    driver's connection and cursor. *)
Context {B U D R : Type}.

Record t : Type := mk {
  c : cache.Cacher B;
  hashFunc : string -> list NamedValue -> U -> U * (string * option error);
  onErr : option (error -> U -> U);
  stats : Stats;
  disabled : bool
}.

(** What a call acts on: the interceptor object, the backend behind
    [i.c] and the user's state. *)
Record world : Type := mkWorld {
  self : t;
  backend : B;
  user : U
}.

(** The [driver.Rows] an entry point returns: the driver's own cursor
    (possibly nil), a [*rowsCached] or a [*rowsRecorder]. *)
Inductive Rows : Type :=
| liveRows (rows : option R)
| cachedRows (rc : rowsCached.t)
| recorderRows (rr : rowsRecorder.t R world).

Definition withStats (w : world) (st : Stats) : world :=
  {| self := {| c := c (self w); hashFunc := hashFunc (self w);
                onErr := onErr (self w); stats := st;
                disabled := disabled (self w) |};
     backend := backend w; user := user w |}.

Definition withDisabled (w : world) (off : bool) : world :=
  {| self := {| c := c (self w); hashFunc := hashFunc (self w);
                onErr := onErr (self w); stats := stats (self w);
                disabled := off |};
     backend := backend w; user := user w |}.

Definition withBackend (w : world) (b : B) : world :=
  {| self := self w; backend := b; user := user w |}.

Definition withUser (w : world) (u : U) : world :=
  {| self := self w; backend := backend w; user := u |}.

(** [atomic.AddUint64(&i.stats.Hits, 1)] and its two siblings. *)
Definition addHits (w : world) : world :=
  let st := stats (self w) in
  withStats w {| Hits := atomic.AddUint64 (Hits st) 1;
                 Misses := Misses st; Errors := Errors st |}.

Definition addMisses (w : world) : world :=
  let st := stats (self w) in
  withStats w {| Hits := Hits st;
                 Misses := atomic.AddUint64 (Misses st) 1;
                 Errors := Errors st |}.

Definition addErrors (w : world) : world :=
  let st := stats (self w) in
  withStats w {| Hits := Hits st; Misses := Misses st;
                 Errors := atomic.AddUint64 (Errors st) 1 |}.

(** [if i.onErr != nil { i.onErr(fmt.Errorf("<what>: %w", err)) }]. *)
Definition reportErr (what : string) (err : error) (w : world) : world :=
  match onErr (self w) with
  | Some hook => withUser w (hook (wrapError what err) (user w))
  | None => w
  end.

Definition Enable (w : world) : world := withDisabled w false.
Definition Disable (w : world) : world := withDisabled w true.

Definition checkCache (hash : string) (w : world)
  : world * option rowsCached.t :=
  let '(b', (item, ok, err)) := cache.Get (c (self w)) (backend w) hash in
  let w := withBackend w b' in
  match err with
  | Some e => (reportErr "Cache.Get failed" e (addErrors w), None)
  | None =>
      if negb ok then (addMisses w, None)
      else (addHits w, Some {| rowsCached.Item := item; rowsCached.ptr := 0 |})
  end.

(** The closure [cacheSetter] of both entry points; it captures the
    pointer [i], [hash] and [attrs]. [h] is the heap it is called in. *)
Definition cacheSetter (hash : string) (attrs : attributes)
  (h : heap) (item : cache.Item) (w : world) : world :=
  let '(b', err) :=
    cache.Set_ (c (self w)) (backend w) h hash item
      (time.seconds (ttl attrs)) in
  let w := withBackend w b' in
  match err with
  | Some e => reportErr "Cache.Set failed" e (addErrors w)
  | None => w
  end.

Definition StmtQueryContext (conn : driver.StmtQueryContext D R)
  (query : string) (args : list NamedValue) (w : world) (d : D)
  : world * D * (Rows * option error) :=
  if disabled (self w) then
    let '(d', (rows, err)) := driver.StmtQuery conn d args in
    (w, d', (liveRows rows, err))
  else
    match getAttrs query with
    | None =>
        let '(d', (rows, err)) := driver.StmtQuery conn d args in
        (w, d', (liveRows rows, err))
    | Some attrs =>
        let '(u', (hash, err)) := hashFunc (self w) query args (user w) in
        let w := withUser w u' in
        match err with
        | Some e =>
            let w := reportErr "HashFunc failed" e (addErrors w) in
            let '(d', (rows, err)) := driver.StmtQuery conn d args in
            (w, d', (liveRows rows, err))
        | None =>
            match checkCache hash w with
            | (w, Some cached) => (w, d, (cachedRows cached, None))
            | (w, None) =>
                let '(d', (rows, err)) := driver.StmtQuery conn d args in
                match err with
                | Some e => (w, d', (liveRows rows, Some e))
                | None =>
                    (w, d',
                     (recorderRows
                        (rowsRecorder.newRowsRecorder (cacheSetter hash attrs)
                           rows (maxRows attrs)),
                      None))
                end
            end
        end
    end.

Definition ConnQueryContext (conn : driver.QueryerContext D R)
  (query : string) (args : list NamedValue) (w : world) (d : D)
  : world * D * (Rows * option error) :=
  if disabled (self w) then
    let '(d', (rows, err)) := driver.QueryContext conn d query args in
    (w, d', (liveRows rows, err))
  else
    match getAttrs query with
    | None =>
        let '(d', (rows, err)) := driver.QueryContext conn d query args in
        (w, d', (liveRows rows, err))
    | Some attrs =>
        let '(u', (hash, err)) := hashFunc (self w) query args (user w) in
        let w := withUser w u' in
        match err with
        | Some e =>
            let w := reportErr "HashFunc failed" e (addErrors w) in
            let '(d', (rows, err)) :=
              driver.QueryContext conn d query args in
            (w, d', (liveRows rows, err))
        | None =>
            match checkCache hash w with
            | (w, Some cached) => (w, d, (cachedRows cached, None))
            | (w, None) =>
                let '(d', (rows, err)) :=
                  driver.QueryContext conn d query args in
                match err with
                | Some e => (w, d', (liveRows rows, Some e))
                | None =>
                    (w, d',
                     (recorderRows
                        (rowsRecorder.newRowsRecorder (cacheSetter hash attrs)
                           rows (maxRows attrs)),
                      None))
                end
            end
        end
    end.

(** [Interceptor.Stats]: three atomic loads into a fresh [Stats]. *)
Definition Stats (w : world) : Stats :=
  {| Hits := atomic.LoadUint64 (Hits (stats (self w)));
     Misses := atomic.LoadUint64 (Misses (stats (self w)));
     Errors := atomic.LoadUint64 (Errors (stats (self w))) |}.

End Interceptor.
Arguments t : clear implicits.
Arguments world : clear implicits.
Arguments Rows : clear implicits.
End Interceptor.

(** ** The key generator (src/unnamed/part_002) *)
Section Hash.

(** [hashstructure.Hash] of the struct [{Query, Args}] with
    [hashstructure.FormatV2]: a [uint64] digest or an error. The library
    is a collaborator of the package and stays a parameter. *)
Variable hashstructure_Hash : string -> list NamedValue -> Z * option error.

Definition defaultHashFunc (query : string) (args : list NamedValue)
  : string * option error :=
  let '(u64, err) := hashstructure_Hash query args in
  match err with
  | Some e => (EmptyString, Some e)
  | None =>
      (fmt.Sprintf "q%da%dh%s"
         [fmt.Int (Z.of_nat (String.length query));
          fmt.Int (Z.of_nat (List.length args));
          fmt.Str (strconv.FormatUint u64)],
       None)
  end.

End Hash.

(** ** Concurrent callers

    The interceptor is called by concurrent query executions. Each
    execution acts on the shared state in atomic steps: one
    [atomic.AddUint64] on a counter, one call of the backend, one call of a
    user callback. A run of several executions is an interleaving of their
    steps. *)
Module Concurrent.
Section Concurrent.

Context {B U : Type}.

Inductive counter : Type :=
| cHits
| cMisses
| cErrors.

Inductive event : Type :=
| evAdd (c : counter)
| evBackend (call : B -> B)
| evUser (call : U -> U).

(** The atomic step of one event. *)
Definition step (w : Interceptor.world B U) (e : event)
  : Interceptor.world B U :=
  match e with
  | evAdd cHits => Interceptor.addHits w
  | evAdd cMisses => Interceptor.addMisses w
  | evAdd cErrors => Interceptor.addErrors w
  | evBackend call =>
      Interceptor.withBackend w (call (Interceptor.backend w))
  | evUser call => Interceptor.withUser w (call (Interceptor.user w))
  end.

Definition run (sched : list event) (w : Interceptor.world B U)
  : Interceptor.world B U :=
  fold_left step sched w.

(** [interleave ts sched]: [sched] is a schedule of the threads [ts],
    each step taking the next event of some thread. *)
Inductive interleave : list (list event) -> list event -> Prop :=
| interleave_done :
    forall ts, Forall (fun t => t = []) ts -> interleave ts []
| interleave_step :
    forall ts1 e t ts2 sched,
      interleave (ts1 ++ t :: ts2) sched ->
      interleave (ts1 ++ (e :: t) :: ts2) (e :: sched).

(** [e] is an increment of the counter [c]. *)
Definition adds (c : counter) (e : event) : bool :=
  match c, e with
  | cHits, evAdd cHits => true
  | cMisses, evAdd cMisses => true
  | cErrors, evAdd cErrors => true
  | _, _ => false
  end.

(** The number of increments of [c] among the events. *)
Definition count (c : counter) (l : list event) : Z :=
  Z.of_nat (List.length (filter (adds c) l)).

(** The steps of a query execution, as the interceptor [i] takes them. *)
Definition hashStep (i : Interceptor.t B U)
  (query : string) (args : list NamedValue) : event :=
  evUser (fun u => fst (Interceptor.hashFunc i query args u)).

Definition getStep (i : Interceptor.t B U) (key : string) : event :=
  evBackend (fun b => fst (cache.Get (Interceptor.c i) b key)).

Definition setStep (i : Interceptor.t B U) (h : heap) (key : string)
  (item : cache.Item) (ttl : Z) : event :=
  evBackend (fun b => fst (cache.Set_ (Interceptor.c i) b h key item ttl)).

Definition hookSteps (i : Interceptor.t B U) (what : string) (e : error)
  : list event :=
  match Interceptor.onErr i with
  | Some hook => [evUser (hook (wrapError what e))]
  | None => []
  end.

(** The steps of one cached-policy query up to its counter event, given
    what the key function and the backend answer. *)
Definition queryThread (i : Interceptor.t B U)
  (query : string) (args : list NamedValue)
  (hashed : string * option error)
  (got : option cache.Item * bool * option error) : list event :=
  match hashed with
  | (_, Some e) =>
      [hashStep i query args; evAdd cErrors]
      ++ hookSteps i "HashFunc failed" e
  | (key, None) =>
      match got with
      | (_, _, Some e) =>
          [hashStep i query args; getStep i key; evAdd cErrors]
          ++ hookSteps i "Cache.Get failed" e
      | (_, false, None) =>
          [hashStep i query args; getStep i key; evAdd cMisses]
      | (_, true, None) =>
          [hashStep i query args; getStep i key; evAdd cHits]
      end
  end.

(** The steps of a commit: the [Set], and on its failure the error
    event and the hook. *)
Definition commitThread (i : Interceptor.t B U) (h : heap) (key : string)
  (item : cache.Item) (ttl : Z) (failure : option error) : list event :=
  setStep i h key item ttl
  :: match failure with
     | Some e => evAdd cErrors :: hookSteps i "Cache.Set failed" e
     | None => []
     end.

End Concurrent.
End Concurrent.

(** ** Vocabulary of the specification *)

(** Every byte of [s] is an ASCII digit. *)
Fixpoint allDigits (s : string) : bool :=
  match s with
  | EmptyString => true
  | String ch t => strconv.isDigit ch && allDigits t
  end.

(** The directive [kw <integer>] occurs somewhere in [query]. *)
Fixpoint hasDirective (kw query : string) : bool :=
  match regexp.matchKeyword kw query with
  | Some _ => true
  | None =>
      match query with
      | EmptyString => false
      | String _ t => hasDirective kw t
      end
  end.

(** A submatch slice of the attribute pattern: the whole match, the
    keyword and a non-empty run of digits. *)
Definition wellFormedMatch (m : list string) : Prop :=
  exists whole kw ds,
    m = [whole; kw; ds] /\ allDigits ds = true /\ ds <> EmptyString.


(** The caller's loop [for rows.Next() { ... }] over a cached cursor, as
    [database/sql] runs it: [Next] is called with the same buffer until it
    reports an error, at most [fuel] times. The result is the buffer as
    read after each successful call, the cursor, and the error that ended
    the loop. *)
Fixpoint scanCached (fuel : nat) (r : rowsCached.t) (dest : list Value)
  : outcome (list (list Value) * rowsCached.t * option error) :=
  match fuel with
  | O => Ok ([], r, None)
  | S fuel' =>
      match rowsCached.Next r dest with
      | Panic => Panic
      | Ok (r', _, Some e) => Ok ([], r', Some e)
      | Ok (r', dest', None) =>
          match scanCached fuel' r' dest' with
          | Panic => Panic
          | Ok (seen, r'', e) => Ok (dest' :: seen, r'', e)
          end
      end
  end.

(** What the caller of a live cursor does before closing it, and what it
    is answered. *)
Inductive call : Type :=
| callColumns
| callNext (dest : list Value).

Inductive reply : Type :=
| replyColumns (cols : list string)
| replyNext (dest : list Value) (err : option error).

Section Replies.

Context {R W : Type}.
Variable I : driver.Rows R.

(** The answers of the wrapped cursor itself to a sequence of calls. *)
Fixpoint liveReplies (calls : list call) (d : R) : R * list reply :=
  match calls with
  | [] => (d, [])
  | callColumns :: calls' =>
      let '(d', cols) := driver.Columns I d in
      let '(d'', rs) := liveReplies calls' d' in
      (d'', replyColumns cols :: rs)
  | callNext dest :: calls' =>
      let '(d', dest', err) := driver.Next I d dest in
      let '(d'', rs) := liveReplies calls' d' in
      (d'', replyNext dest' err :: rs)
  end.

(** What the caller finds in the rows it is answered, up to the first
    [Next] that reports [io.EOF] or an error: each row as it reads in the
    heap when its [Next] returns. *)
Fixpoint rowsSeen (calls : list call) (d : R) : list (list content) :=
  match calls with
  | [] => []
  | callColumns :: calls' => rowsSeen calls' (fst (driver.Columns I d))
  | callNext dest :: calls' =>
      let '(d', dest', err) := driver.Next I d dest in
      match err with
      | None => map (read (driver.Heap I d')) dest' :: rowsSeen calls' d'
      | Some _ => []
      end
  end.

(** The answers of the recorder around it to the same calls. *)
Fixpoint recorderReplies (calls : list call) (r : rowsRecorder.t R W)
  : outcome (rowsRecorder.t R W * list reply) :=
  match calls with
  | [] => Ok (r, [])
  | callColumns :: calls' =>
      match rowsRecorder.Columns I r with
      | Panic => Panic
      | Ok (r', cols) =>
          match recorderReplies calls' r' with
          | Panic => Panic
          | Ok (r'', rs) => Ok (r'', replyColumns cols :: rs)
          end
      end
  | callNext dest :: calls' =>
      match rowsRecorder.Next I r dest with
      | Panic => Panic
      | Ok (r', dest', err) =>
          match recorderReplies calls' r' with
          | Panic => Panic
          | Ok (r'', rs) => Ok (r'', replyNext dest' err :: rs)
          end
      end
  end.

End Replies.

(** Some [Next] reported [io.EOF]. *)
Definition reachedEOF (rs : list reply) : bool :=
  existsb (fun r => match r with
                    | replyNext _ (Some io_EOF) => true
                    | _ => false
                    end) rs.

(** Some [Next] reported an error other than [io.EOF]. *)
Definition readFailed (rs : list reply) : bool :=
  existsb (fun r => match r with
                    | replyNext _ (Some io_EOF) => false
                    | replyNext _ (Some _) => true
                    | _ => false
                    end) rs.

(** The rows delivered before the first [Next] that reported [io.EOF] or
    an error. *)
Fixpoint rowsRead (rs : list reply) : list (list Value) :=
  match rs with
  | [] => []
  | replyColumns _ :: rs' => rowsRead rs'
  | replyNext dest None :: rs' => dest :: rowsRead rs'
  | replyNext _ (Some _) :: _ => []
  end.

(** No value of the rows is a [[]byte]. *)
Definition noBytes (rows : list (list Value)) : bool :=
  forallb (forallb (fun v => match v with
                             | VBytes _ => false
                             | _ => true
                             end)) rows.

(** The column names of the last [Columns] call, [dflt] without one. *)
Fixpoint lastColumns (rs : list reply) (dflt : list string) : list string :=
  match rs with
  | [] => dflt
  | replyColumns cols :: rs' => lastColumns rs' cols
  | replyNext _ _ :: rs' => lastColumns rs' dflt
  end.

(** The result is one to cache: the cursor reached end-of-data, no read
    failed and the rows are within the bound. *)
Definition cacheable (rs : list reply) (bound : Z) : bool :=
  reachedEOF rs && negb (readFailed rs)
  && (Z.of_nat (List.length (rowsRead rs)) <=? bound).

(** [gotEOF || gotErr || maxRowsHit]: the recorder has stopped
    buffering. *)
Definition stopped {R W : Type} (r : rowsRecorder.t R W) : bool :=
  rowsRecorder.gotEOF r || rowsRecorder.gotErr r || rowsRecorder.maxRowsHit r.

(** [r.item.Rows]. *)
Definition buffered {R W : Type} (r : rowsRecorder.t R W)
  : list (list Value) :=
  cache.Rows (rowsRecorder.item r).

(** The two call shapes of the interception layer. *)
Inductive caller (D R : Type) : Type :=
| direct (conn : driver.QueryerContext D R)
| prepared (stmt : driver.StmtQueryContext D R).
Arguments direct {D R} conn.
Arguments prepared {D R} stmt.

(** The call to the wrapped driver, and the entry point in front of it. *)
Definition live {D R : Type} (via : caller D R)
  (query : string) (args : list NamedValue) (d : D)
  : D * (option R * option error) :=
  match via with
  | direct conn => driver.QueryContext conn d query args
  | prepared stmt => driver.StmtQuery stmt d args
  end.

Definition intercept {B U D R : Type} (via : caller D R)
  (query : string) (args : list NamedValue)
  (w : Interceptor.world B U) (d : D)
  : Interceptor.world B U * D * (Interceptor.Rows B U R * option error) :=
  match via with
  | direct conn => Interceptor.ConnQueryContext conn query args w d
  | prepared stmt => Interceptor.StmtQueryContext stmt query args w d
  end.

(** The steps the two entry points take alike once the text has a
    policy, over the call [run] to the wrapped driver. *)
Definition queryCached {B U D R : Type}
  (run : D -> D * (option R * option error))
  (query : string) (args : list NamedValue) (attrs : attributes)
  (w : Interceptor.world B U) (d : D)
  : Interceptor.world B U * D * (Interceptor.Rows B U R * option error) :=
  let '(u', (hash, err)) :=
    Interceptor.hashFunc (Interceptor.self w) query args (Interceptor.user w) in
  let w := Interceptor.withUser w u' in
  match err with
  | Some e =>
      let w := Interceptor.reportErr "HashFunc failed" e
                 (Interceptor.addErrors w) in
      let '(d', (rows, err)) := run d in
      (w, d', (Interceptor.liveRows rows, err))
  | None =>
      match Interceptor.checkCache hash w with
      | (w, Some cached) => (w, d, (Interceptor.cachedRows cached, None))
      | (w, None) =>
          let '(d', (rows, err)) := run d in
          match err with
          | Some e => (w, d', (Interceptor.liveRows rows, Some e))
          | None =>
              (w, d',
               (Interceptor.recorderRows
                  (rowsRecorder.newRowsRecorder
                     (Interceptor.cacheSetter hash attrs)
                     rows (maxRows attrs)),
                None))
          end
      end
  end.

(** The world after a hit: the steps of the key function and of the
    backend, and one more hit. *)
Definition afterHit {B U : Type} (w : Interceptor.world B U)
  (u' : U) (b' : B) : Interceptor.world B U :=
  Interceptor.addHits
    (Interceptor.withBackend (Interceptor.withUser w u') b').

(** What an entry point returns after a miss, given the answer of the
    wrapped driver: the driver's error as it is, or a recorder around the
    driver's cursor. *)
Definition missResult {B U R : Type} (key : string) (attrs : attributes)
  (answer : option R * option error)
  : Interceptor.Rows B U R * option error :=
  match snd answer with
  | Some e => (Interceptor.liveRows (fst answer), Some e)
  | None =>
      (Interceptor.recorderRows
         (rowsRecorder.newRowsRecorder (Interceptor.cacheSetter key attrs)
            (fst answer) (maxRows attrs)),
       None)
  end.

(** The world after an error of the caching side: one more error, and
    the hook, when there is one, called with the wrapped error. *)
Definition afterError {B U : Type} (what : string) (e : error)
  (w : Interceptor.world B U) : Interceptor.world B U :=
  Interceptor.reportErr what e (Interceptor.addErrors w).

(** From [w0] to [w1] one error was counted and reported: the error
    counter went up by one, the other two stayed, the hook (if any) ran
    once on the wrapped error, and the backend was not touched. *)
Definition countedAndReported {B U : Type} (what : string) (e : error)
  (w0 w1 : Interceptor.world B U) : Prop :=
  Interceptor.Stats w1
  = {| Hits := Hits (Interceptor.stats (Interceptor.self w0));
       Misses := Misses (Interceptor.stats (Interceptor.self w0));
       Errors :=
         wrapU64 (Errors (Interceptor.stats (Interceptor.self w0)) + 1) |} /\
  Interceptor.user w1
  = match Interceptor.onErr (Interceptor.self w0) with
    | Some hook => hook (wrapError what e) (Interceptor.user w0)
    | None => Interceptor.user w0
    end /\
  Interceptor.backend w1 = Interceptor.backend w0.

(** [Interceptor.Stats] among concurrent callers: its three loads happen
    at three moments, [w1], [w2] and [w3] being the world at each. *)
Definition statsAt {B U : Type} (w1 w2 w3 : Interceptor.world B U) : Stats :=
  {| Hits := atomic.LoadUint64 (Hits (Interceptor.stats (Interceptor.self w1)));
     Misses :=
       atomic.LoadUint64 (Misses (Interceptor.stats (Interceptor.self w2)));
     Errors :=
       atomic.LoadUint64 (Errors (Interceptor.stats (Interceptor.self w3))) |}.

(** ** Test doubles, after the package's tests *)
Module mock.

(** [mocks.Cacher]: fixed answers, and a log of the calls. *)
Inductive cacheCall : Type :=
| calledGet (key : string)
| calledSet (key : string) (item : cache.Item) (ttl : Z).

Record backend : Type := mkBackend {
  getReply : option cache.Item * bool * option error;
  setReply : option error;
  log : list cacheCall
}.

Definition Cacher : cache.Cacher backend :=
  {| cache.Get := fun b key =>
       ({| getReply := getReply b; setReply := setReply b;
           log := log b ++ [calledGet key] |}, getReply b);
     cache.Set_ := fun b _ key item ttl =>
       ({| getReply := getReply b; setReply := setReply b;
           log := log b ++ [calledSet key item ttl] |}, setReply b) |}.

(** [sqlmock] rows: the answers of [Next] in order, [io.EOF] after the
    last one. It writes no bytes. *)
Record cursor : Type := mkCursor {
  columns : list string;
  script : list (list Value + error);
  closeReply : option error;
  closed : bool
}.

Definition Rows : driver.Rows cursor :=
  {| driver.Columns := fun cur => (cur, columns cur);
     driver.Close := fun cur =>
       ({| columns := columns cur; script := script cur;
           closeReply := closeReply cur; closed := true |},
        closeReply cur);
     driver.Next := fun cur dest =>
       match script cur with
       | [] => (cur, dest, Some io_EOF)
       | inl vals :: rest =>
           ({| columns := columns cur; script := rest;
               closeReply := closeReply cur; closed := closed cur |},
            copy dest vals, None)
       | inr e :: rest =>
           ({| columns := columns cur; script := rest;
               closeReply := closeReply cur; closed := closed cur |},
            dest, Some e)
       end;
     driver.Heap := fun _ _ => zero |}.

(** A cursor of one [[]byte] column that reuses its buffer, as the
    interface allows: [Next] writes the next name into the one array it
    has, at address 0, and answers with a slice of it. *)
Record reuser : Type := mkReuser {
  names : list string;
  buffer : string
}.

Definition Reusing : driver.Rows reuser :=
  {| driver.Columns := fun cur => (cur, ["name"]);
     driver.Close := fun cur => (cur, None);
     driver.Next := fun cur dest =>
       match names cur with
       | [] => (cur, dest, Some io_EOF)
       | name :: rest =>
           ({| names := rest; buffer := name |},
            copy dest
              [VBytes {| Data := 0; Len := String.length name; Cap := 64 |}],
            None)
       end;
     driver.Heap := fun cur a =>
       match String.get a (buffer cur) with
       | Some ch => ch
       | None => zero
       end |}.

(** [sqlmock] connection: one fixed answer, and the queries it ran. *)
Record conn : Type := mkConn {
  answer : option cursor * option error;
  ran : list (string * list NamedValue)
}.

Definition Queryer : driver.QueryerContext conn cursor :=
  {| driver.QueryContext := fun d query args =>
       ({| answer := answer d; ran := ran d ++ [(query, args)] |},
        answer d) |}.

Definition Stmt (query : string) : driver.StmtQueryContext conn cursor :=
  {| driver.StmtQuery := fun d args =>
       ({| answer := answer d; ran := ran d ++ [(query, args)] |},
        answer d) |}.

(** The user's callbacks: a key function that counts its calls and
    answers as told, and an error hook that keeps what it is given. *)
Record user : Type := mkUser {
  hashed : nat;
  reported : list error
}.

Definition hashFunc (failure : option error)
  (query : string) (args : list NamedValue) (u : user)
  : user * (string * option error) :=
  ({| hashed := S (hashed u); reported := reported u |},
   match failure with
   | Some e => (EmptyString, Some e)
   | None => ("q" +++ strconv.Itoa (Z.of_nat (String.length query)), None)
   end).

Definition OnError (e : error) (u : user) : user :=
  {| hashed := hashed u; reported := reported u ++ [e] |}.

Definition interceptor (failure : option error) (off : bool)
  : Interceptor.t backend user :=
  {| Interceptor.c := Cacher;
     Interceptor.hashFunc := hashFunc failure;
     Interceptor.onErr := Some OnError;
     Interceptor.stats := {| Hits := 0; Misses := 0; Errors := 0 |};
     Interceptor.disabled := off |}.

Definition world (failure : option error) (off : bool) (b : backend)
  : Interceptor.world backend user :=
  {| Interceptor.self := interceptor failure off;
     Interceptor.backend := b;
     Interceptor.user := {| hashed := 0; reported := [] |} |}.

(** The query, its argument and its two rows of the package's tests. *)
Definition query : string :=
  "-- @cache-max-rows 10" +++ nl +++ "-- @cache-ttl 30" +++ nl
  +++ "SELECT name FROM users WHERE age > ?".

Definition args : list NamedValue :=
  [{| Name := EmptyString; Ordinal := 1; NValue := VInt64 18 |}].

Definition johnLisa : cache.Item :=
  {| cache.Cols := ["name"];
     cache.Rows := [[VString "John"]; [VString "Lisa"]] |}.

Definition twoRows (closeReply : option error) : cursor :=
  {| columns := ["name"];
     script := [inl [VString "John"]; inl [VString "Lisa"]];
     closeReply := closeReply; closed := false |}.

(** What [database/sql] does with a cursor of one column: [Columns],
    then [Next] until [io.EOF], here three calls. *)
Definition drainTwo : list call :=
  [callColumns; callNext [VNil]; callNext [VString "John"];
   callNext [VString "Lisa"]].

End mock.

(** ** Construction (src/interceptor.go) *)

(** [Config]: the backend (an interface value, nil when unset), the error
    hook and the key function, both optional. *)
Record Config (B U : Type) : Type := mkConfig {
  Cache : option (cache.Cacher B);
  OnError : option (error -> U -> U);
  HashFunc :
    option (string -> list NamedValue -> U -> U * (string * option error))
}.
Arguments Cache {B U} _.
Arguments OnError {B U} _.
Arguments HashFunc {B U} _.

(** [NewInterceptor]. It writes the default key function into the
    caller's [Config] when none is set, so the configuration is returned
    next to the result. [hash] is [hashstructure.Hash]. *)
Definition NewInterceptor {B U : Type}
  (hash : string -> list NamedValue -> Z * option error)
  (config : option (Config B U))
  : option (Config B U) * (option (Interceptor.t B U) * option error) :=
  match config with
  | None => (None, (None, Some (errorString "config can't be nil")))
  | Some cfg =>
      match Cache cfg with
      | None =>
          (Some cfg,
           (None, Some (errorString "cache must be set in Config")))
      | Some backend =>
          let hashFunc :=
            match HashFunc cfg with
            | Some f => f
            | None => fun query args u => (u, defaultHashFunc hash query args)
            end in
          (Some {| Cache := Cache cfg; OnError := OnError cfg;
                   HashFunc := Some hashFunc |},
           (Some {| Interceptor.c := backend;
                    Interceptor.hashFunc := hashFunc;
                    Interceptor.onErr := OnError cfg;
                    Interceptor.stats :=
                      {| Hits := 0; Misses := 0; Errors := 0 |};
                    Interceptor.disabled := false |},
            None))
      end
  end.

(** An in-memory backend as a test double: an association list, the
    newest entry first, without expiry. It keeps the items it is handed,
    as ristretto does, and reads no bytes. *)
Module memory.

Definition store : Type := list (string * cache.Item).

Fixpoint lookup (key : string) (st : store) : option cache.Item :=
  match st with
  | [] => None
  | (k, item) :: st' => if String.eqb k key then Some item else lookup key st'
  end.

Definition Cacher : cache.Cacher store :=
  {| cache.Get := fun st key =>
       (st, match lookup key st with
            | Some item => (Some item, true, None)
            | None => (None, false, None)
            end);
     cache.Set_ := fun st _ key item _ => ((key, item) :: st, None) |}.

End memory.

(** ** The redis backend (src/cache_redis.go) *)
Module Redis.

(** What [client.Get(key).Bytes()] answers: the bytes with a nil error,
    the error [redis.Nil] of a missing key, or another error. *)
Inductive reply : Type :=
| replyBytes (b : string)
| replyNil
| replyErr (e : error).

(** [redis.UniversalClient] over a client with state [C]: the two
    commands the backend sends. [Set] takes the key, the value and the
    expiry. *)
Record UniversalClient (C : Type) : Type := mkClient {
  clientGet : C -> string -> C * reply;
  clientSet : C -> string -> string -> Z -> C * option error
}.
Arguments clientGet {C} _ _ _.
Arguments clientSet {C} _ _ _ _ _.

(** [msgpack.Marshal] and [msgpack.Unmarshal] on a [cache.Item]; the
    library is a collaborator of the backend and stays a parameter.
    [Marshal] encodes what it reads through the pointer, in the heap of the
    call. *)
Record codec : Type := mkCodec {
  Marshal : heap -> cache.Item -> string * option error;
  Unmarshal : string -> cache.Item * option error
}.

Section Redis.

Context {C : Type}.
Variable msgpack : codec.

Record t : Type := mk {
  c : UniversalClient C;
  keyPrefix : string
}.

Definition Get (r : t) (st : C) (key : string)
  : C * (option cache.Item * bool * option error) :=
  let '(st', answer) := clientGet (c r) st (keyPrefix r +++ key) in
  match answer with
  | replyBytes b =>
      let '(item, err) := Unmarshal msgpack b in
      match err with
      | Some e => (st', (None, true, Some e))
      | None => (st', (Some item, true, None))
      end
  | replyNil => (st', (None, false, None))
  | replyErr e => (st', (None, false, Some e))
  end.

Definition Set_ (r : t) (st : C) (h : heap) (key : string)
  (item : cache.Item) (ttl : Z) : C * option error :=
  let '(b, err) := Marshal msgpack h item in
  match err with
  | Some e => (st, Some e)
  | None => clientSet (c r) st (keyPrefix r +++ key) b ttl
  end.

Definition NewRedis (client : UniversalClient C) (keyPrefix : string) : t :=
  {| c := client; keyPrefix := keyPrefix |}.

(** [*Redis] as a [cache.Cacher]. *)
Definition Cacher (r : t) : cache.Cacher C :=
  {| cache.Get := Get r; cache.Set_ := Set_ r |}.

End Redis.
Arguments t : clear implicits.
End Redis.

(** ** The ristretto backend (src/unnamed/part_004) *)
Module Ristretto.

(** The [interface{}] values a ristretto cache holds: a [*cache.Item],
    possibly a nil one, or a value of another type. *)
Inductive value : Type :=
| itemPointer (p : option cache.Item)
| otherValue.

(** [*ristretto.Cache] over a cache with state [C]. [SetWithTTL] takes
    the key, the value, its cost and the TTL, and tells whether the value
    was taken. *)
Record Cache (C : Type) : Type := mkCache {
  cacheGet : C -> string -> C * (value * bool);
  SetWithTTL : C -> string -> value -> Z -> Z -> C * bool
}.
Arguments cacheGet {C} _ _ _.
Arguments SetWithTTL {C} _ _ _ _ _ _.

Section Ristretto.

Context {C : Type}.

Record t : Type := mk {
  c : Cache C
}.

Definition assertionFailed : error :=
  errorString ("Ristretto.Get(): i.(" +++ "*cache.Item) failed").

Definition Get (r : t) (st : C) (key : string)
  : C * (option cache.Item * bool * option error) :=
  let '(st', (i, ok)) := cacheGet (c r) st key in
  if negb ok then (st', (None, false, None))
  else
    match i with
    | itemPointer item => (st', (item, true, None))
    | otherValue => (st', (None, false, Some assertionFailed))
    end.

(** [Set] hands ristretto the pointer and reads no bytes. *)
Definition Set_ (r : t) (st : C) (h : heap) (key : string)
  (item : cache.Item) (ttl : Z) : C * option error :=
  let '(st', _) :=
    SetWithTTL (c r) st key (itemPointer (Some item))
      (wrap64 (Z.of_nat (List.length (cache.Rows item)))) ttl in
  (st', None).

Definition NewRistretto (cache : Cache C) : t := {| c := cache |}.

(** [*Ristretto] as a [cache.Cacher]. *)
Definition Cacher (r : t) : cache.Cacher C :=
  {| cache.Get := Get r; cache.Set_ := Set_ r |}.

End Ristretto.
Arguments t : clear implicits.
End Ristretto.

(** Test doubles of the backends' collaborators. *)
Module double.

(** A redis that keeps its keys in an association list. *)
Fixpoint find (key : string) (st : list (string * string)) : option string :=
  match st with
  | [] => None
  | (k, v) :: st' => if String.eqb k key then Some v else find key st'
  end.

Definition redis : Redis.UniversalClient (list (string * string)) :=
  {| Redis.clientGet := fun st key =>
       (st, match find key st with
            | Some b => Redis.replyBytes b
            | None => Redis.replyNil
            end);
     Redis.clientSet := fun st key b _ => ((key, b) :: st, None) |}.

(** A codec for items of one column and no rows: the column name stands
    for the item; anything else does not encode, and the empty string does
    not decode. *)
Definition codec : Redis.codec :=
  {| Redis.Marshal := fun _ item =>
       match cache.Cols item, cache.Rows item with
       | [col], [] => (col, None)
       | _, _ => (EmptyString, Some (errorString "msgpack: cannot encode"))
       end;
     Redis.Unmarshal := fun b =>
       match b with
       | EmptyString =>
           (cache.newItem, Some (errorString "msgpack: cannot decode"))
       | _ => ({| cache.Cols := [b]; cache.Rows := [] |}, None)
       end |}.

(** A backend that keeps, under each key, what it read in the rows of
    the item when [Set] was called; it answers no [Get]. *)
Definition reading : cache.Cacher (list (string * list (list content))) :=
  {| cache.Get := fun st _ => (st, (None, false, None));
     cache.Set_ := fun st h key item _ =>
       ((key, readRows h (cache.Rows item)) :: st, None) |}.

(** A ristretto that keeps what costs at most 100 and drops the rest. *)
Fixpoint held (key : string) (st : list (string * Ristretto.value))
  : option Ristretto.value :=
  match st with
  | [] => None
  | (k, v) :: st' => if String.eqb k key then Some v else held key st'
  end.

Definition ristretto : Ristretto.Cache (list (string * Ristretto.value)) :=
  {| Ristretto.cacheGet := fun st key =>
       (st, match held key st with
            | Some v => (v, true)
            | None => (Ristretto.otherValue, false)
            end);
     Ristretto.SetWithTTL := fun st key v cost _ =>
       if cost <=? 100 then ((key, v) :: st, true) else (st, false) |}.

(** A world around a backend [c] in state [b], with the callbacks of
    [mock]. *)
Definition world {B : Type} (c : cache.Cacher B) (b : B)
  : Interceptor.world B mock.user :=
  {| Interceptor.self :=
       {| Interceptor.c := c;
          Interceptor.hashFunc := mock.hashFunc None;
          Interceptor.onErr := Some mock.OnError;
          Interceptor.stats := {| Hits := 0; Misses := 0; Errors := 0 |};
          Interceptor.disabled := false |};
     Interceptor.backend := b;
     Interceptor.user := {| mock.hashed := 0; mock.reported := [] |} |}.

End double.

(** Shapes of query texts. *)

(** [s] holds no ['@']. *)
Fixpoint noAt (s : string) : bool :=
  match s with
  | EmptyString => true
  | String ch t => negb (Ascii.eqb ch "@") && noAt t
  end.

(** [s] does not start with a digit. *)
Definition noDigitAhead (s : string) : bool :=
  match s with
  | EmptyString => true
  | String ch _ => negb (strconv.isDigit ch)
  end.

(** ** Packages unicode/utf8 and unicode (Go's standard library) *)
Module utf8.

Definition RuneError : Z := 65533.

Definition byte (c : ascii) : Z := Z.of_nat (nat_of_ascii c).

Definition char (b : Z) : ascii := ascii_of_nat (Z.to_nat b).

(** A continuation byte: [0x80 .. 0xBF]. *)
Definition continues (c : ascii) : bool :=
  (128 <=? byte c) && (byte c <=? 191).

Definition low6 (c : ascii) : Z := Z.land (byte c) 63.

(** [utf8.DecodeRuneInString], which is also how [range] reads a string:
    the rune at the start of [s] and its width in bytes. A byte that starts
    no valid encoding is [RuneError] of width 1. *)
Definition DecodeRuneInString (s : string) : Z * nat :=
  match s with
  | EmptyString => (RuneError, 0%nat)
  | String c0 t0 =>
      let s0 := byte c0 in
      if s0 <? 128 then (s0, 1%nat)
      else if (s0 <? 194) || (244 <? s0) then (RuneError, 1%nat)
      else
        (* the bounds of the second byte, by the first *)
        let lo := if s0 =? 224 then 160
                  else if s0 =? 240 then 144 else 128 in
        let hi := if s0 =? 237 then 159
                  else if s0 =? 244 then 143 else 191 in
        match t0 with
        | EmptyString => (RuneError, 1%nat)
        | String c1 t1 =>
            let s1 := byte c1 in
            if (s1 <? lo) || (hi <? s1) then (RuneError, 1%nat)
            else if s0 <? 224 then
              (Z.lor (Z.shiftl (Z.land s0 31) 6) (low6 c1), 2%nat)
            else
              match t1 with
              | EmptyString => (RuneError, 1%nat)
              | String c2 t2 =>
                  if negb (continues c2) then (RuneError, 1%nat)
                  else if s0 <? 240 then
                    (Z.lor (Z.shiftl (Z.land s0 15) 12)
                       (Z.lor (Z.shiftl (low6 c1) 6) (low6 c2)), 3%nat)
                  else
                    match t2 with
                    | EmptyString => (RuneError, 1%nat)
                    | String c3 _ =>
                        if negb (continues c3) then (RuneError, 1%nat)
                        else
                          (Z.lor (Z.shiftl (Z.land s0 7) 18)
                             (Z.lor (Z.shiftl (low6 c1) 12)
                                (Z.lor (Z.shiftl (low6 c2) 6) (low6 c3))),
                           4%nat)
                    end
              end
        end
  end.

Definition tail6 (r : Z) (shift : Z) : ascii :=
  char (Z.lor 128 (Z.land (Z.shiftr r shift) 63)).

(** [utf8.AppendRune] to an empty buffer, as [strings.Builder.WriteRune]
    writes a rune. *)
Definition EncodeRune (r : Z) : string :=
  if (0 <=? r) && (r <? 128) then String (char r) EmptyString
  else if (0 <=? r) && (r <? 2048) then
    String (char (Z.lor 192 (Z.shiftr r 6)))
      (String (tail6 r 0) EmptyString)
  else if (r <? 0) || (1114111 <? r) || ((55296 <=? r) && (r <=? 57343)) then
    String (char 239) (String (char 191) (String (char 189) EmptyString))
  else if r <? 65536 then
    String (char (Z.lor 224 (Z.shiftr r 12)))
      (String (tail6 r 6) (String (tail6 r 0) EmptyString))
  else
    String (char (Z.lor 240 (Z.shiftr r 18)))
      (String (tail6 r 12)
         (String (tail6 r 6) (String (tail6 r 0) EmptyString))).

End utf8.

Module unicode.

(** [unicode.IsSpace]: the property White_Space. *)
Definition IsSpace (r : Z) : bool :=
  ((9 <=? r) && (r <=? 13)) || (r =? 32) || (r =? 133) || (r =? 160)
  || (r =? 5760) || ((8192 <=? r) && (r <=? 8202))
  || (r =? 8232) || (r =? 8233) || (r =? 8239) || (r =? 8287)
  || (r =? 12288).

End unicode.

(** ** The plain key function (src/unnamed/part_002) *)
Section NoopHash.

(** [fmt.Sprintf("%v", args)], the rendering of the parameter list by
    package [fmt]; it stays a parameter. *)
Variable render : list NamedValue -> string.

(** [for _, ch := range query { if !unicode.IsSpace(ch) { b.WriteRune(ch) } }]:
    [skip] bytes of the rune just read are still to be stepped over. *)
Fixpoint stripSpace (skip : nat) (query : string) {struct query} : string :=
  match query with
  | EmptyString => EmptyString
  | String _ t =>
      match skip with
      | S k => stripSpace k t
      | O =>
          let '(ch, width) := utf8.DecodeRuneInString query in
          (if unicode.IsSpace ch then EmptyString else utf8.EncodeRune ch)
          +++ stripSpace (width - 1) t
      end
  end.

Definition NoopHash (query : string) (args : list NamedValue)
  : string * option error :=
  (stripSpace 0 query +++ ":" +++ render args, None).

End NoopHash.

(** Every byte of [s] is below 128. *)
Fixpoint isASCII (s : string) : bool :=
  match s with
  | EmptyString => true
  | String ch t => (utf8.byte ch <? 128) && isASCII t
  end.

(** The bytes of [s] that are no white space. *)
Fixpoint withoutSpace (s : string) : string :=
  match s with
  | EmptyString => EmptyString
  | String ch t =>
      if unicode.IsSpace (utf8.byte ch) then withoutSpace t
      else String ch (withoutSpace t)
  end.

(** Any sequence of [Next] calls on a cached cursor, one buffer per
    call: the cursor afterwards and what each call returned. *)
Fixpoint nextMany (dests : list (list Value)) (r : rowsCached.t)
  : outcome (rowsCached.t * list (list Value * option error)) :=
  match dests with
  | [] => Ok (r, [])
  | dest :: dests' =>
      match rowsCached.Next r dest with
      | Panic => Panic
      | Ok (r', dest', err) =>
          match nextMany dests' r' with
          | Panic => Panic
          | Ok (r'', outs) => Ok (r'', (dest', err) :: outs)
          end
      end
  end.

(** * Properties *)

(** ** The attribute parser *)

Example getAttrs_readme :
  getAttrs ("-- @cache-ttl 30" +++ nl +++ "-- @cache-max-rows 10" +++ nl
            +++ "SELECT name, pages FROM books WHERE pages > $1")
  = Some {| ttl := 30; maxRows := 10 |}.
Proof. reflexivity. Qed.

Example getAttrs_order :
  getAttrs ("-- @cache-max-rows 10" +++ nl +++ "-- @cache-ttl 30" +++ nl
            +++ "SELECT name FROM users WHERE age > ?")
  = Some {| ttl := 30; maxRows := 10 |}.
Proof. reflexivity. Qed.

Example getAttrs_ttl_only :
  getAttrs ("-- @cache-ttl 30" +++ nl +++ "SELECT name FROM users WHERE age > ?")
  = None.
Proof. reflexivity. Qed.

Example getAttrs_negative :
  getAttrs ("-- @cache-ttl -30" +++ nl +++ "-- @cache-max-rows -10" +++ nl
            +++ "SELECT name FROM users WHERE age > ?")
  = None.
Proof. reflexivity. Qed.

Example getAttrs_twice_ttl :
  getAttrs ("-- @cache-ttl 5" +++ nl +++ "-- @cache-ttl 6" +++ nl +++ "SELECT 1")
  = Some {| ttl := 6; maxRows := 0 |}.
Proof. reflexivity. Qed.

Example getAttrs_huge :
  getAttrs "@cache-ttl 99999999999999999999 @cache-max-rows 1"
  = Some {| ttl := maxInt; maxRows := 1 |}.
Proof. reflexivity. Qed.

Lemma isDigit_digitVal (ch : ascii) :
  strconv.isDigit ch = true -> 0 <= strconv.digitVal ch <= 9.
Proof.
  unfold strconv.isDigit, strconv.digitVal.
  rewrite andb_true_iff, !Nat.leb_le. lia.
Qed.

Lemma readDigits_allDigits (s : string) :
  allDigits s = true ->
  forall acc, 0 <= acc -> exists n, strconv.readDigits s acc = Some n /\ 0 <= n.
Proof.
  induction s as [|ch t IH]; simpl; intros Hd acc Hacc.
  - exists acc. split; [reflexivity | assumption].
  - apply andb_true_iff in Hd as [Hch Ht]. rewrite Hch.
    apply IH; [assumption|].
    pose proof (isDigit_digitVal ch Hch). lia.
Qed.

(** A digit is neither of the two signs. *)
Lemma Atoi_digit_head (ch : ascii) (t : string) :
  strconv.isDigit ch = true ->
  strconv.Atoi (String ch t) =
  match strconv.readDigits (String ch t) 0 with
  | None => (0, Some ErrSyntax)
  | Some n => if n <=? maxInt then (n, None) else (maxInt, Some ErrRange)
  end.
Proof.
  intros Hch.
  destruct ch as [[] [] [] [] [] [] [] []];
    try discriminate Hch; reflexivity.
Qed.

(** On a non-empty run of digits [Atoi] yields a number of the range
    [0 .. maxInt]. *)
Lemma Atoi_digits_range (ds : string) :
  allDigits ds = true -> ds <> EmptyString ->
  0 <= fst (strconv.Atoi ds) <= maxInt.
Proof.
  intros Hd Hne. destruct ds as [|ch t]; [congruence|].
  pose proof Hd as Hd'. simpl in Hd'. apply andb_true_iff in Hd' as [Hch _].
  rewrite (Atoi_digit_head ch t Hch).
  destruct (readDigits_allDigits _ Hd 0 ltac:(lia)) as [n [-> Hn]].
  destruct (n <=? maxInt) eqn:E; simpl.
  - apply Z.leb_le in E. lia.
  - unfold maxInt. lia.
Qed.

Lemma spanDigits_allDigits (s : string) :
  allDigits (regexp.spanDigits s) = true.
Proof.
  induction s as [|ch t IH]; simpl; [reflexivity|].
  destruct (strconv.isDigit ch) eqn:E; simpl; [|reflexivity].
  now rewrite E, IH.
Qed.

Lemma matchKeyword_wellFormed (kw s : string) (m : list string) :
  regexp.matchKeyword kw s = Some m -> wellFormedMatch m.
Proof.
  unfold regexp.matchKeyword.
  destruct (regexp.cutPrefix (kw +++ " ") s) as [rest|]; [|discriminate].
  pose proof (spanDigits_allDigits rest) as Hd.
  destruct (regexp.spanDigits rest) as [|ch ds] eqn:E; [discriminate|].
  intros [= <-]. eexists _, kw, (String ch ds).
  repeat split; [assumption | discriminate].
Qed.

Lemma matchHere_wellFormed (s : string) (m : list string) :
  regexp.matchHere s = Some m -> wellFormedMatch m.
Proof.
  unfold regexp.matchHere.
  destruct (regexp.matchKeyword "@cache-ttl" s) as [m'|] eqn:E.
  - intros [= <-]. eapply matchKeyword_wellFormed; eassumption.
  - apply matchKeyword_wellFormed.
Qed.

Lemma findAll_wellFormed (s : string) :
  forall n skip, Forall wellFormedMatch (regexp.findAll n skip s).
Proof.
  induction s as [|ch t IH]; intros [|n] [|k]; simpl;
    try solve [constructor | apply IH].
  destruct (regexp.matchHere (String ch t)) as [m|] eqn:E; [|apply IH].
  constructor; [|apply IH].
  eapply matchHere_wellFormed; eassumption.
Qed.

Lemma getAttrs_range_bounds (matches : list (list string)) :
  Forall wellFormedMatch matches ->
  forall attrs a,
    0 <= ttl attrs <= maxInt -> 0 <= maxRows attrs <= maxInt ->
    getAttrs_range matches attrs = Some a ->
    0 <= ttl a <= maxInt /\ 0 <= maxRows a <= maxInt.
Proof.
  induction 1 as [|m rest Hm Hrest IH]; simpl; intros attrs a Ht Hr.
  - intros [= <-]. split; assumption.
  - destruct Hm as (whole & kw & ds & -> & Hd & Hne). simpl.
    pose proof (Atoi_digits_range ds Hd Hne) as Hrange.
    destruct (String.eqb kw "@cache-ttl").
    + apply IH; simpl; assumption.
    + destruct (String.eqb kw "@cache-max-rows").
      * apply IH; simpl; assumption.
      * apply IH; assumption.
Qed.

(** Every policy has both values between 0 and the largest [int]. *)
Lemma getAttrs_in_range (query : string) (a : attributes) :
  getAttrs query = Some a ->
  0 <= ttl a <= maxInt /\ 0 <= maxRows a <= maxInt.
Proof.
  unfold getAttrs. destruct (negb _); [discriminate|]. intros H.
  eapply getAttrs_range_bounds; [apply findAll_wellFormed | | | exact H];
    simpl; unfold maxInt; lia.
Qed.

Lemma getAttrs_range_total (matches : list (list string)) :
  Forall wellFormedMatch matches ->
  forall attrs, getAttrs_range matches attrs <> None.
Proof.
  induction 1 as [|m rest Hm _ IH]; intros attrs; simpl; [discriminate|].
  destruct Hm as (whole & kw & ds & -> & _ & _). simpl.
  destruct (String.eqb kw "@cache-ttl"); [apply IH|].
  destruct (String.eqb kw "@cache-max-rows"); apply IH.
Qed.

(** X10: The parser returns a policy exactly when the scan, stopped after two
    matches, found two: of whichever kinds. *)
Lemma getAttrs_policy_iff_two_matches (query : string) :
  getAttrs query <> None <->
  List.length (regexp.FindAllStringSubmatch query 2) = 2%nat.
Proof.
  unfold getAttrs.
  destruct (Nat.eqb_spec
              (List.length (regexp.FindAllStringSubmatch query 2)) 2)
    as [E|E]; cbn [negb].
  - split; [intros _; exact E | intros _].
    apply getAttrs_range_total, findAll_wellFormed.
  - split; [congruence | intros E'; contradiction].
Qed.

Lemma cutPrefix_app (p s : string) : regexp.cutPrefix p (p +++ s) = Some s.
Proof.
  induction p as [|a p IH]; simpl; [reflexivity|].
  now rewrite Ascii.eqb_refl.
Qed.

Lemma append_assoc (a b c : string) : (a +++ b) +++ c = a +++ b +++ c.
Proof. induction a as [|x a IH]; simpl; [reflexivity | now rewrite IH]. Qed.

(** C3 (defect): two [@cache-ttl] directives and no [@cache-max-rows]
    directive. The parser counts two matches and returns a policy, with
    [maxRows] left at zero, although one of the two required directives is
    missing from the text. *)
Theorem C3_duplicate_directive_yields_policy :
  let query := "-- @cache-ttl 5" +++ nl +++ "-- @cache-ttl 6" +++ nl
               +++ "SELECT 1" in
  hasDirective "@cache-max-rows" query = false /\
  getAttrs query = Some {| ttl := 6; maxRows := 0 |}.
Proof. split; reflexivity. Qed.


(** ** The cached row cursor *)

Lemma copy_same_width {A : Type} (dst src : list A) :
  List.length src = List.length dst -> copy dst src = src.
Proof.
  intros H. unfold copy.
  rewrite <- H, firstn_all. rewrite H, skipn_all. apply app_nil_r.
Qed.

Lemma skipn_nth_cons {A : Type} (l : list A) (dflt : A) :
  forall p, (p < List.length l)%nat ->
  skipn p l = nth p l dflt :: skipn (S p) l.
Proof.
  induction l as [|x l IH]; intros [|p] H; simpl in *; try lia.
  - reflexivity.
  - apply IH. lia.
Qed.

(** [k] calls of [Next] from position [p] deliver the rows [p .. p+k-1]. *)
Lemma scanCached_rows (it : cache.Item) (width : nat) :
  Forall (fun row => List.length row = width) (cache.Rows it) ->
  forall k p dest,
    List.length dest = width ->
    (p + k <= List.length (cache.Rows it))%nat ->
    scanCached k {| rowsCached.Item := Some it; rowsCached.ptr := p |} dest
    = Ok (firstn k (skipn p (cache.Rows it)),
          {| rowsCached.Item := Some it; rowsCached.ptr := (p + k)%nat |},
          None).
Proof.
  intros Hw. induction k as [|k IH]; intros p dest Hdest Hp.
  - simpl. now rewrite Nat.add_0_r.
  - cbn [scanCached]. unfold rowsCached.Next. cbn [rowsCached.Item rowsCached.ptr].
    destruct (Nat.leb_spec (List.length (cache.Rows it)) p) as [Hle|Hlt]; [lia|].
    assert (Hrow : List.length (nth p (cache.Rows it) []) = List.length dest).
    { rewrite Hdest. rewrite Forall_forall in Hw. apply Hw, nth_In, Hlt. }
    rewrite (copy_same_width _ _ Hrow).
    rewrite IH by (try lia; congruence).
    rewrite (skipn_nth_cons _ [] p Hlt). cbn [firstn].
    now rewrite Nat.add_succ_r.
Qed.

(** At the end of the rows [Next] reports [io.EOF] and stays there. *)
Lemma scanCached_eof (it : cache.Item) (fuel : nat) (dest : list Value) :
  scanCached (S fuel)
    {| rowsCached.Item := Some it;
       rowsCached.ptr := List.length (cache.Rows it) |} dest
  = Ok ([], {| rowsCached.Item := Some it;
               rowsCached.ptr := List.length (cache.Rows it) |},
        Some io_EOF).
Proof.
  cbn [scanCached]. unfold rowsCached.Next. cbn [rowsCached.Item rowsCached.ptr].
  now rewrite Nat.leb_refl.
Qed.

Lemma last_cons_default {A : Type} (l : list A) :
  forall x d, last (x :: l) d = last l x.
Proof.
  induction l as [|y l IH]; intros x d; [reflexivity|].
  change (last (x :: y :: l) d) with (last (y :: l) d).
  now rewrite !IH.
Qed.

Lemma scanCached_app (k : nat) :
  forall fuel r dest seen r',
    scanCached k r dest = Ok (seen, r', None) ->
    List.length seen = k ->
    scanCached (k + fuel) r dest =
    match scanCached fuel r' (last seen dest) with
    | Panic => Panic
    | Ok (seen', r'', e) => Ok (seen ++ seen', r'', e)
    end.
Proof.
  induction k as [|k IH]; intros fuel r dest seen r' H Hlen.
  - simpl in H. injection H as <- <-. simpl.
    destruct (scanCached fuel r dest) as [[[? ?] ?]|]; reflexivity.
  - cbn [scanCached Nat.add] in *.
    destruct (rowsCached.Next r dest) as [[[r1 dest1] [e|]]|];
      try discriminate.
    destruct (scanCached k r1 dest1) as [[[seen1 r2] e1]|] eqn:E;
      try discriminate.
    injection H as <- <- ->.
    simpl in Hlen. injection Hlen as Hlen.
    rewrite (IH fuel r1 dest1 seen1 r2 E Hlen).
    rewrite last_cons_default.
    destruct (scanCached fuel r2 (last seen1 dest1)) as [[[? ?] ?]|];
      reflexivity.
Qed.

(** ** The row-capture adapter *)
Section RecorderFacts.

Context {R W : Type}.
Variable I : driver.Rows R.

Local Abbreviation recorder := (rowsRecorder.t R W).

Lemma copy_fresh (dest : list Value) :
  copy (repeat VNil (List.length dest)) dest = dest.
Proof. apply copy_same_width. now rewrite repeat_length. Qed.

(** One [Next] on the recorder: the wrapped cursor takes its step, the
    caller sees its answer, and the flags record what the answer was. *)
Lemma recorder_Next_step (r : recorder) (d d' : R)
  (dest dest' : list Value) (err : option error) :
  rowsRecorder.dr r = Some d ->
  driver.Next I d dest = (d', dest', err) ->
  exists r',
    rowsRecorder.Next I r dest = Ok (r', dest', err) /\
    rowsRecorder.dr r' = Some d' /\
    rowsRecorder.setter r' = rowsRecorder.setter r /\
    rowsRecorder.maxRows r' = rowsRecorder.maxRows r /\
    cache.Cols (rowsRecorder.item r') = cache.Cols (rowsRecorder.item r) /\
    rowsRecorder.gotEOF r' = rowsRecorder.gotEOF r || isEOF err /\
    rowsRecorder.gotErr r'
      = rowsRecorder.gotErr r || (notNil err && negb (isEOF err)).
Proof.
  intros Hdr Hnext. unfold rowsRecorder.Next. rewrite Hdr, Hnext.
  destruct err as [[]|]; cbn [notNil isEOF];
    rewrite ?orb_true_r, ?orb_false_r; cbn [orb negb andb];
    repeat match goal with
           | |- context [if ?b then _ else _] => destruct b
           end;
    eexists; repeat split; cbn; rewrite ?orb_true_r, ?orb_false_r;
    reflexivity.
Qed.

(** The recorder is transparent: it answers a sequence of calls as the
    wrapped cursor does, leaves the cursor where those calls leave it, and
    keeps its setter and its bound. *)
Lemma recorder_transparent (calls : list call) :
  forall (r : recorder) (d : R),
    rowsRecorder.dr r = Some d ->
    exists r',
      recorderReplies I calls r = Ok (r', snd (liveReplies I calls d)) /\
      rowsRecorder.dr r' = Some (fst (liveReplies I calls d)) /\
      rowsRecorder.setter r' = rowsRecorder.setter r /\
      rowsRecorder.maxRows r' = rowsRecorder.maxRows r /\
      cache.Cols (rowsRecorder.item r')
        = lastColumns (snd (liveReplies I calls d))
            (cache.Cols (rowsRecorder.item r)) /\
      rowsRecorder.gotEOF r'
        = rowsRecorder.gotEOF r
          || reachedEOF (snd (liveReplies I calls d)) /\
      rowsRecorder.gotErr r'
        = rowsRecorder.gotErr r
          || readFailed (snd (liveReplies I calls d)).
Proof.
  induction calls as [|[|dest] calls IH]; intros r d Hdr.
  - exists r. cbn. rewrite !orb_false_r. repeat split; assumption.
  - cbn [recorderReplies liveReplies]. unfold rowsRecorder.Columns.
    rewrite Hdr.
    destruct (driver.Columns I d) as [d1 cols].
    match goal with
    | |- context [recorderReplies I calls ?r1] =>
        destruct (IH r1 d1 eq_refl)
          as (r' & Hrun & Hd' & Hset & Hmax & Hcols & Heof & Herr)
    end.
    rewrite Hrun. destruct (liveReplies I calls d1) as [d2 rs].
    exists r'. cbn in *. repeat split; assumption.
  - cbn [recorderReplies liveReplies].
    destruct (driver.Next I d dest) as [[d1 dest1] err] eqn:Hnext.
    destruct (recorder_Next_step r d d1 dest dest1 err Hdr Hnext)
      as (r1 & Hstep & Hd1 & Hset1 & Hmax1 & Hcols1 & Heof1 & Herr1).
    rewrite Hstep.
    destruct (IH r1 d1 Hd1)
      as (r' & Hrun & Hd' & Hset & Hmax & Hcols & Heof & Herr).
    rewrite Hrun. destruct (liveReplies I calls d1) as [d2 rs].
    exists r'. cbn [fst snd] in *.
    split; [reflexivity|]. split; [assumption|].
    split; [congruence|]. split; [congruence|].
    split; [cbn [lastColumns]; congruence|]. split.
    + rewrite Heof, Heof1. unfold reachedEOF. cbn [existsb].
      rewrite orb_assoc. f_equal.
    + rewrite Herr, Herr1. unfold readFailed. cbn [existsb].
      rewrite orb_assoc. f_equal. f_equal. now destruct err as [[]|].
Qed.

Lemma recorder_Columns_buffer (r r1 : recorder) (cols : list string) :
  rowsRecorder.Columns I r = Ok (r1, cols) ->
  rowsRecorder.gotEOF r1 = rowsRecorder.gotEOF r /\
  rowsRecorder.gotErr r1 = rowsRecorder.gotErr r /\
  rowsRecorder.maxRowsHit r1 = rowsRecorder.maxRowsHit r /\
  rowsRecorder.maxRows r1 = rowsRecorder.maxRows r /\
  buffered r1 = buffered r.
Proof.
  unfold rowsRecorder.Columns.
  destruct (rowsRecorder.dr r) as [d|]; [|discriminate].
  destruct (driver.Columns I d) as [d1 cols1].
  intros [= <- _]. repeat split.
Qed.

(** What one [Next] does to the buffer. *)
Lemma recorder_Next_buffer (r r1 : recorder)
  (dest dest' : list Value) (err : option error) :
  rowsRecorder.Next I r dest = Ok (r1, dest', err) ->
  rowsRecorder.maxRows r1 = rowsRecorder.maxRows r /\
  rowsRecorder.gotEOF r1 = rowsRecorder.gotEOF r || isEOF err /\
  rowsRecorder.gotErr r1
    = rowsRecorder.gotErr r || (notNil err && negb (isEOF err)) /\
  if stopped r || notNil err then
    buffered r1 = buffered r /\
    rowsRecorder.maxRowsHit r1 = rowsRecorder.maxRowsHit r
  else if Z.of_nat (List.length (buffered r)) =? rowsRecorder.maxRows r then
    buffered r1 = buffered r /\ rowsRecorder.maxRowsHit r1 = true
  else
    buffered r1 = buffered r ++ [dest'] /\
    rowsRecorder.maxRowsHit r1 = false.
Proof.
  unfold rowsRecorder.Next, stopped, buffered.
  destruct (rowsRecorder.dr r) as [d|]; [|discriminate].
  destruct (driver.Next I d dest) as [[d1 dest1] err1].
  destruct (rowsRecorder.gotEOF r), (rowsRecorder.gotErr r),
    (rowsRecorder.maxRowsHit r) eqn:Hhit, err1 as [[]|];
    cbn [notNil isEOF orb negb andb];
    try (intros [= <- <- <-]; cbn; repeat split; assumption).
  destruct (_ =? _); intros [= <- <- <-]; cbn; rewrite ?copy_fresh;
    repeat split.
Qed.

(** Once stopped, the recorder buffers nothing more. *)
Lemma recorder_stopped_frozen (calls : list call) :
  forall (r r' : recorder) (rs : list reply),
    recorderReplies I calls r = Ok (r', rs) ->
    stopped r = true ->
    buffered r' = buffered r /\
    rowsRecorder.maxRowsHit r' = rowsRecorder.maxRowsHit r.
Proof.
  induction calls as [|[|dest] calls IH]; intros r r' rs Hrun Hstop.
  - injection Hrun as <- _. split; reflexivity.
  - cbn [recorderReplies] in Hrun.
    destruct (rowsRecorder.Columns I r) as [[r1 cols]|] eqn:Hc;
      [|discriminate].
    destruct (recorderReplies I calls r1) as [[r2 rs2]|] eqn:Hr;
      [|discriminate].
    injection Hrun as <- _.
    destruct (recorder_Columns_buffer _ _ _ Hc) as (He & Hg & Hh & _ & Hb).
    destruct (IH r1 r2 rs2 Hr) as [Hb2 Hh2].
    + unfold stopped in *. now rewrite He, Hg, Hh.
    + split; congruence.
  - cbn [recorderReplies] in Hrun.
    destruct (rowsRecorder.Next I r dest) as [[[r1 dest1] err]|] eqn:Hn;
      [|discriminate].
    destruct (recorderReplies I calls r1) as [[r2 rs2]|] eqn:Hr;
      [|discriminate].
    injection Hrun as <- _.
    destruct (recorder_Next_buffer _ _ _ _ _ Hn) as (_ & He & Hg & Hbuf).
    rewrite Hstop in Hbuf. cbn [orb] in Hbuf. destruct Hbuf as [Hb Hh].
    destruct (IH r1 r2 rs2 Hr) as [Hb2 Hh2].
    + unfold stopped in *. rewrite He, Hg, Hh.
      destruct (rowsRecorder.gotEOF r), (rowsRecorder.gotErr r),
        (rowsRecorder.maxRowsHit r); try discriminate; cbn;
        rewrite ?orb_true_r; reflexivity.
    + split; congruence.
Qed.

(** While buffering, the recorder holds the rows read so far, up to its
    bound, and notes when a further row arrives. *)
Lemma recorder_buffers_rows (calls : list call) :
  forall (r r' : recorder) (rs : list reply),
    recorderReplies I calls r = Ok (r', rs) ->
    stopped r = false ->
    Z.of_nat (List.length (buffered r)) <= rowsRecorder.maxRows r ->
    let room :=
      Z.to_nat (rowsRecorder.maxRows r
                - Z.of_nat (List.length (buffered r))) in
    buffered r' = buffered r ++ firstn room (rowsRead rs) /\
    rowsRecorder.maxRowsHit r'
      = (room <? List.length (rowsRead rs))%nat.
Proof.
  induction calls as [|[|dest] calls IH]; intros r r' rs Hrun Hgo Hroom room.
  - injection Hrun as <- <-. cbn. rewrite firstn_nil, app_nil_r.
    unfold stopped in Hgo. apply orb_false_iff in Hgo as [_ ->].
    split; reflexivity.
  - cbn [recorderReplies] in Hrun.
    destruct (rowsRecorder.Columns I r) as [[r1 cols]|] eqn:Hc;
      [|discriminate].
    destruct (recorderReplies I calls r1) as [[r2 rs2]|] eqn:Hr;
      [|discriminate].
    injection Hrun as <- <-.
    destruct (recorder_Columns_buffer _ _ _ Hc) as (He & Hg & Hh & Hm & Hb).
    destruct (IH r1 r2 rs2 Hr) as [Hb2 Hh2].
    + unfold stopped in *. now rewrite He, Hg, Hh.
    + now rewrite Hb, Hm.
    + subst room. rewrite Hb, Hm in *. cbn [rowsRead]. split; assumption.
  - cbn [recorderReplies] in Hrun.
    destruct (rowsRecorder.Next I r dest) as [[[r1 dest1] err]|] eqn:Hn;
      [|discriminate].
    destruct (recorderReplies I calls r1) as [[r2 rs2]|] eqn:Hr;
      [|discriminate].
    injection Hrun as <- <-.
    destruct (recorder_Next_buffer _ _ _ _ _ Hn) as (Hm & He & Hg & Hbuf).
    rewrite Hgo in Hbuf. cbn [orb] in Hbuf.
    assert (Hflags : rowsRecorder.gotEOF r = false /\
                     rowsRecorder.gotErr r = false /\
                     rowsRecorder.maxRowsHit r = false).
    { unfold stopped in Hgo. apply orb_false_iff in Hgo as [Hgo ?].
      apply orb_false_iff in Hgo as [? ?]. auto. }
    destruct Hflags as (He0 & Hg0 & Hh0).
    destruct err as [e|]; cbn [notNil] in Hbuf.
    + (* the read ended the rows or failed: nothing more is buffered *)
      destruct Hbuf as [Hb Hh].
      destruct (recorder_stopped_frozen calls r1 r2 rs2 Hr) as [Hb2 Hh2].
      { unfold stopped. rewrite He, Hg, He0, Hg0. cbn.
        destruct e; reflexivity. }
      cbn [rowsRead]. rewrite firstn_nil, app_nil_r. cbn.
      split; congruence.
    + destruct (Z.eqb_spec (Z.of_nat (List.length (buffered r)))
                  (rowsRecorder.maxRows r)) as [Hfull|Hfree].
      * (* the buffer is full: this row exceeds the bound *)
        destruct Hbuf as [Hb Hh].
        destruct (recorder_stopped_frozen calls r1 r2 rs2 Hr) as [Hb2 Hh2].
        { unfold stopped. rewrite Hh. apply orb_true_r. }
        assert (room = 0%nat) as -> by (subst room; lia).
        cbn. rewrite app_nil_r. split; congruence.
      * (* the row is buffered *)
        destruct Hbuf as [Hb Hh].
        destruct (IH r1 r2 rs2 Hr) as [Hb2 Hh2].
        { unfold stopped. rewrite He, Hg, Hh, He0, Hg0. reflexivity. }
        { rewrite Hb, Hm, length_app. cbn. lia. }
        rewrite Hb, Hm, length_app in Hb2, Hh2. cbn [List.length] in Hb2, Hh2.
        assert (Hroom' : room =
          S (Z.to_nat (rowsRecorder.maxRows r
               - Z.of_nat (List.length (buffered r) + 1)))).
        { subst room. lia. }
        rewrite Hroom'. cbn [rowsRead firstn List.length].
        rewrite Hb2, Hh2, <- app_assoc. split; reflexivity.
Qed.

(** [Close] on the recorder closes the wrapped cursor first; a close
    error ends the call, otherwise the flags decide on the commit. *)
Lemma recorder_Close_spec (r : recorder) (d d' : R)
  (cerr : option error) (w : W) :
  rowsRecorder.dr r = Some d ->
  driver.Close I d = (d', cerr) ->
  exists r',
    rowsRecorder.Close I r w
    = Ok (r',
          (if notNil cerr then w
           else if rowsRecorder.gotEOF r && negb (rowsRecorder.gotErr r)
                   && negb (rowsRecorder.maxRowsHit r)
                then rowsRecorder.setter r (driver.Heap I d')
                       (rowsRecorder.item r) w
                else w),
          cerr) /\
    rowsRecorder.dr r' = Some d' /\
    rowsRecorder.gotErr r' = rowsRecorder.gotErr r || notNil cerr.
Proof.
  intros Hdr Hclose. unfold rowsRecorder.Close. rewrite Hdr, Hclose.
  destruct cerr as [e|]; cbn [notNil].
  - eexists. split; [reflexivity|]. cbn. now rewrite orb_true_r.
  - destruct (_ && _); eexists; (split; [reflexivity|]); cbn;
      now rewrite orb_false_r.
Qed.

(** A whole session on a fresh recorder: the calls are answered as the
    wrapped cursor answers them, and [Close] hands the rows read and the
    last column names to the setter, in the heap the wrapped [Close]
    leaves, exactly when the wrapped [Close] succeeded and the replies make
    a cacheable result. *)
Lemma recorder_session (setter : heap -> cache.Item -> W -> W) (bound : Z)
  (cur : R) (calls : list call) (w : W) :
  0 <= bound ->
  let rr := rowsRecorder.newRowsRecorder setter (Some cur) bound in
  let rs := snd (liveReplies I calls cur) in
  let closing := driver.Close I (fst (liveReplies I calls cur)) in
  exists r1 r2,
    recorderReplies I calls rr = Ok (r1, rs) /\
    rowsRecorder.Close I r1 w
    = Ok (r2,
          (if negb (notNil (snd closing)) && cacheable rs bound
           then setter (driver.Heap I (fst closing))
                  {| cache.Cols := lastColumns rs [];
                     cache.Rows := rowsRead rs |} w
           else w),
          snd closing) /\
    rowsRecorder.dr r2 = Some (fst closing).
Proof.
  intros Hbound rr rs closing.
  destruct (recorder_transparent calls rr cur eq_refl)
    as (r1 & Hrun & Hd1 & Hset & Hmax & Hcols & Heof & Herr).
  fold rs in Hrun, Hcols, Heof, Herr.
  destruct (recorder_buffers_rows calls rr r1 rs Hrun eq_refl)
    as [Hbuf Hhit]; [cbn; lia|].
  unfold buffered in Hbuf, Hhit.
  cbn -[Nat.ltb Z.to_nat Z.sub Z.of_nat] in Hbuf, Hhit.
  cbn in Hset, Hmax, Hcols, Heof, Herr.
  rewrite Z.sub_0_r in Hbuf, Hhit.
  destruct closing as [d2 cerr] eqn:Hclose.
  destruct (recorder_Close_spec r1 _ d2 cerr w Hd1 Hclose)
    as (r2 & Hc & Hd2 & _).
  exists r1, r2. split; [exact Hrun|]. split; [|exact Hd2].
  rewrite Hc. cbn [snd]. f_equal. f_equal. f_equal.
  destruct cerr as [e|]; cbn [notNil negb andb]; [reflexivity|].
  rewrite Heof, Herr, Hhit, Hset. unfold cacheable.
  destruct (reachedEOF rs), (readFailed rs); cbn [andb negb];
    try reflexivity.
  destruct (Z.leb_spec (Z.of_nat (List.length (rowsRead rs))) bound)
    as [Hle|Hgt].
  - assert (Hfit : (List.length (rowsRead rs) <= Z.to_nat bound)%nat)
      by lia.
    destruct (Nat.ltb_spec (Z.to_nat bound) (List.length (rowsRead rs)));
      [lia|]. cbn [negb].
    f_equal. destruct (rowsRecorder.item r1) as [cols rows].
    cbn in Hbuf, Hcols. subst cols rows.
    now rewrite firstn_all2.
  - destruct (Nat.ltb_spec (Z.to_nat bound) (List.length (rowsRead rs)));
      [reflexivity | lia].
Qed.

End RecorderFacts.

(** ** The interceptor: pass-through, miss and error paths *)
Section CandidatePath.

Context {B U D R : Type}.
Variable via : caller D R.
Variables (query : string) (args : list NamedValue).
Variables (w : Interceptor.world B U) (d : D).

Lemma intercept_disabled :
  Interceptor.disabled (Interceptor.self w) = true ->
  intercept via query args w d
  = (w, fst (live via query args d),
     (Interceptor.liveRows (fst (snd (live via query args d))),
      snd (snd (live via query args d)))).
Proof.
  intros Hoff. destruct via as [conn|stmt]; cbn;
    [unfold Interceptor.ConnQueryContext
    |unfold Interceptor.StmtQueryContext];
    rewrite Hoff;
    match goal with
    | |- context [let '(_, _) := ?x in _] => destruct x as [d' [rows err]]
    end; reflexivity.
Qed.

Lemma intercept_no_policy :
  getAttrs query = None ->
  intercept via query args w d
  = (w, fst (live via query args d),
     (Interceptor.liveRows (fst (snd (live via query args d))),
      snd (snd (live via query args d)))).
Proof.
  intros Hnone. destruct via as [conn|stmt]; cbn;
    [unfold Interceptor.ConnQueryContext
    |unfold Interceptor.StmtQueryContext];
    rewrite Hnone;
    destruct (Interceptor.disabled (Interceptor.self w));
    match goal with
    | |- context [let '(_, _) := ?x in _] => destruct x as [d' [rows err]]
    end; reflexivity.
Qed.

Variable attrs : attributes.
Hypothesis Henabled : Interceptor.disabled (Interceptor.self w) = false.
Hypothesis Hattrs : getAttrs query = Some attrs.

Lemma intercept_candidate :
  intercept via query args w d
  = queryCached (fun d => live via query args d)
      query args attrs w d.
Proof.
  destruct via as [conn|stmt]; cbn;
    [unfold Interceptor.ConnQueryContext
    |unfold Interceptor.StmtQueryContext];
    rewrite Henabled, Hattrs; reflexivity.
Qed.

Lemma intercept_hash_error (u' : U) (key : string) (e : error) :
  Interceptor.hashFunc (Interceptor.self w) query args (Interceptor.user w)
  = (u', (key, Some e)) ->
  intercept via query args w d
  = (afterError "HashFunc failed" e (Interceptor.withUser w u'),
     fst (live via query args d),
     (Interceptor.liveRows (fst (snd (live via query args d))),
      snd (snd (live via query args d)))).
Proof.
  intros Hhash. rewrite intercept_candidate.
  unfold queryCached. rewrite Hhash.
  destruct (live via query args d) as [d' [rows err]]. reflexivity.
Qed.

Variables (u' : U) (key : string).
Hypothesis Hhash :
  Interceptor.hashFunc (Interceptor.self w) query args (Interceptor.user w)
  = (u', (key, None)).

Lemma intercept_get_error (b' : B) (item : option cache.Item) (ok : bool)
  (e : error) :
  cache.Get (Interceptor.c (Interceptor.self w)) (Interceptor.backend w) key
  = (b', (item, ok, Some e)) ->
  intercept via query args w d
  = (afterError "Cache.Get failed" e
       (Interceptor.withBackend (Interceptor.withUser w u') b'),
     fst (live via query args d),
     missResult key attrs (snd (live via query args d))).
Proof.
  intros Hget. rewrite intercept_candidate.
  unfold queryCached. rewrite Hhash.
  unfold Interceptor.checkCache. cbn. rewrite Hget.
  destruct (live via query args d) as [d' [rows [err|]]]; reflexivity.
Qed.

Lemma intercept_miss (b' : B) (item : option cache.Item) :
  cache.Get (Interceptor.c (Interceptor.self w)) (Interceptor.backend w) key
  = (b', (item, false, None)) ->
  intercept via query args w d
  = (Interceptor.addMisses
       (Interceptor.withBackend (Interceptor.withUser w u') b'),
     fst (live via query args d),
     missResult key attrs (snd (live via query args d))).
Proof.
  intros Hget. rewrite intercept_candidate.
  unfold queryCached. rewrite Hhash.
  unfold Interceptor.checkCache. cbn. rewrite Hget.
  destruct (live via query args d) as [d' [rows [err|]]]; reflexivity.
Qed.

Lemma intercept_hit (b' : B) (item : option cache.Item) :
  cache.Get (Interceptor.c (Interceptor.self w)) (Interceptor.backend w) key
  = (b', (item, true, None)) ->
  intercept via query args w d
  = (afterHit w u' b', d,
     (Interceptor.cachedRows
        {| rowsCached.Item := item; rowsCached.ptr := 0 |}, None)).
Proof.
  intros Hget. rewrite intercept_candidate.
  unfold queryCached. rewrite Hhash.
  unfold Interceptor.checkCache. cbn. rewrite Hget. reflexivity.
Qed.

End CandidatePath.

(** ** The hit path *)

(** C2: on a cache hit (the backend returns an item, found, no error) both
    entry points count one hit and return a cached cursor over that item
    at position zero, whatever the wrapped driver is and without a step of
    its connection. The cursor reports the cached column names. Its [k]-th
    [Next] (counting from zero) copies the cached row [k] into the caller's
    buffer and moves on by one; at the end of the rows [Next] reports
    [io.EOF]. Read in a loop with a buffer as wide as the rows, the caller
    sees the cached rows in their order and then [io.EOF], on the first
    call after the last row. [Close] returns nil. *)
Theorem C2_cache_hit_replays_item {B U D R : Type}
  (conn : driver.QueryerContext D R) (stmt : driver.StmtQueryContext D R)
  (query : string) (args : list NamedValue)
  (w : Interceptor.world B U) (d : D)
  (attrs : attributes) (key : string) (u' : U) (b' : B)
  (it : cache.Item)
  (Henabled : Interceptor.disabled (Interceptor.self w) = false)
  (Hattrs : getAttrs query = Some attrs)
  (Hhash :
     Interceptor.hashFunc (Interceptor.self w) query args (Interceptor.user w)
     = (u', (key, None)))
  (Hget :
     cache.Get (Interceptor.c (Interceptor.self w)) (Interceptor.backend w) key
     = (b', (Some it, true, None))) :
  let at_ := fun k => {| rowsCached.Item := Some it; rowsCached.ptr := k |} in
  let n := List.length (cache.Rows it) in
  let w' := afterHit w u' b' in
  Interceptor.ConnQueryContext conn query args w d
    = (w', d, (Interceptor.cachedRows (at_ 0%nat), None)) /\
  Interceptor.StmtQueryContext stmt query args w d
    = (w', d, (Interceptor.cachedRows (at_ 0%nat), None)) /\
  Interceptor.Stats w'
    = {| Hits := wrapU64 (Hits (Interceptor.stats (Interceptor.self w)) + 1);
         Misses := Misses (Interceptor.stats (Interceptor.self w));
         Errors := Errors (Interceptor.stats (Interceptor.self w)) |} /\
  rowsCached.Columns (at_ 0%nat) = Ok (cache.Cols it) /\
  (forall k dest, (k < n)%nat ->
     rowsCached.Next (at_ k) dest
     = Ok (at_ (S k), copy dest (nth k (cache.Rows it) []), None)) /\
  (forall dest,
     rowsCached.Next (at_ n) dest = Ok (at_ n, dest, Some io_EOF)) /\
  (forall dest,
     Forall (fun row => List.length row = List.length dest) (cache.Rows it) ->
     (forall k, (k <= n)%nat ->
        scanCached k (at_ 0%nat) dest
        = Ok (firstn k (cache.Rows it), at_ k, None)) /\
     scanCached (S n) (at_ 0%nat) dest
     = Ok (cache.Rows it, at_ n, Some io_EOF)) /\
  rowsCached.Close (at_ 0%nat) = (at_ 0%nat, None).
Proof.
  intros at_ n w'.
  split; [|split; [|split; [|split; [|split; [|split; [|split]]]]]].
  - apply (intercept_hit (direct conn) query args w d attrs Henabled Hattrs
             u' key Hhash b' (Some it) Hget).
  - apply (intercept_hit (prepared stmt) query args w d attrs Henabled Hattrs
             u' key Hhash b' (Some it) Hget).
  - reflexivity.
  - reflexivity.
  - intros k dest Hk. unfold rowsCached.Next. cbn.
    destruct (Nat.leb_spec (List.length (cache.Rows it)) k); [|reflexivity].
    subst n. lia.
  - intros dest. unfold rowsCached.Next. cbn. subst n.
    now rewrite Nat.leb_refl.
  - intros dest Hwidth.
    assert (Hk : forall k, (k <= n)%nat ->
       scanCached k (at_ 0%nat) dest
       = Ok (firstn k (cache.Rows it), at_ k, None)).
    { intros k Hk.
      apply (scanCached_rows it (List.length dest) Hwidth k 0%nat dest
               eq_refl).
      exact Hk. }
    split; [exact Hk|].
    replace (S n) with (n + 1)%nat by lia.
    rewrite (scanCached_app n 1 (at_ 0%nat) dest _ _ (Hk n (le_n n))).
    + subst at_ n. cbn beta. rewrite scanCached_eof.
      now rewrite firstn_all, app_nil_r.
    + apply firstn_length_le, le_n.
  - reflexivity.
Qed.

(** C10: on the hit path the item goes into the cached cursor as the
    backend returned it, nil or not; [Columns] and [Next] of that cursor
    run to completion exactly when the item is not nil, and panic on the
    nil pointer otherwise. *)
Theorem C10_hit_path_total_iff_item_not_nil {B U D R : Type}
  (conn : driver.QueryerContext D R) (stmt : driver.StmtQueryContext D R)
  (query : string) (args : list NamedValue)
  (w : Interceptor.world B U) (d : D)
  (attrs : attributes) (key : string) (u' : U) (b' : B)
  (item : option cache.Item)
  (Henabled : Interceptor.disabled (Interceptor.self w) = false)
  (Hattrs : getAttrs query = Some attrs)
  (Hhash :
     Interceptor.hashFunc (Interceptor.self w) query args (Interceptor.user w)
     = (u', (key, None)))
  (Hget :
     cache.Get (Interceptor.c (Interceptor.self w)) (Interceptor.backend w) key
     = (b', (item, true, None))) :
  let rc := {| rowsCached.Item := item; rowsCached.ptr := 0 |} in
  snd (Interceptor.ConnQueryContext conn query args w d)
    = (Interceptor.cachedRows rc, None) /\
  snd (Interceptor.StmtQueryContext stmt query args w d)
    = (Interceptor.cachedRows rc, None) /\
  (item <> None <->
   rowsCached.Columns rc <> Panic /\
   forall dest, rowsCached.Next rc dest <> Panic) /\
  (item = None ->
   rowsCached.Columns rc = Panic /\
   forall dest, rowsCached.Next rc dest = Panic).
Proof.
  intros rc. repeat split.
  - pose proof (intercept_hit (direct conn) query args w d attrs
                  Henabled Hattrs u' key Hhash b' item Hget) as E.
    cbn [intercept] in E. rewrite E. reflexivity.
  - pose proof (intercept_hit (prepared stmt) query args w d attrs
                  Henabled Hattrs u' key Hhash b' item Hget) as E.
    cbn [intercept] in E. rewrite E. reflexivity.
  - destruct item; [discriminate | congruence].
  - intros dest. unfold rowsCached.Next. destruct item as [it|]; [|congruence].
    cbn. destruct (_ <=? _)%nat; discriminate.
  - intros [Hc _] ->. apply Hc. reflexivity.
  - subst item. reflexivity.
  - subst item. reflexivity.
Qed.

(** The setter is one [Set] on the backend, keyed by the hash, with the
    TTL of the policy; a failure of that call is counted and reported. *)
Lemma cacheSetter_spec {B U : Type} (key : string) (attrs : attributes)
  (h : heap) (item : cache.Item) (w : Interceptor.world B U) :
  let answer :=
    cache.Set_ (Interceptor.c (Interceptor.self w)) (Interceptor.backend w)
      h key item (time.seconds (ttl attrs)) in
  Interceptor.cacheSetter key attrs h item w
  = match snd answer with
    | Some e =>
        afterError "Cache.Set failed" e
          (Interceptor.withBackend w (fst answer))
    | None => Interceptor.withBackend w (fst answer)
    end.
Proof.
  cbn. unfold Interceptor.cacheSetter.
  destruct (cache.Set_ _ _ _ _ _ _) as [b' [e|]]; reflexivity.
Qed.

(** Within the range of whole seconds a [time.Duration] holds, the TTL
    handed to the backend is the policy's value in seconds. *)
Lemma seconds_exact (n : Z) :
  0 <= n <= 9223372036 -> time.seconds n = n * 1000000000.
Proof.
  intros H. unfold time.seconds, time.Second, wrap64.
  rewrite (Z.mod_small (n + _)) by lia.
  replace (n + 9223372036854775808 - 9223372036854775808) with n by lia.
  rewrite Z.mod_small by lia. lia.
Qed.

(** ** Commit on close *)

(** A value that is no [[]byte] reads the same in every heap. *)
Lemma readRows_noBytes (rows : list (list Value)) (h h' : heap) :
  noBytes rows = true -> readRows h rows = readRows h' rows.
Proof.
  unfold noBytes, readRows. intros Hrows.
  apply map_ext_in. intros row Hrow.
  rewrite forallb_forall in Hrows. specialize (Hrows row Hrow).
  apply map_ext_in. intros v Hv.
  rewrite forallb_forall in Hrows. specialize (Hrows v Hv).
  destruct v; try reflexivity. discriminate Hrows.
Qed.

(** Rows without a [[]byte] read, in whatever heap, as the caller found
    them when they were delivered. *)
Lemma rowsSeen_noBytes {R : Type} (I : driver.Rows R) (calls : list call) :
  forall (d : R) (h : heap),
    noBytes (rowsRead (snd (liveReplies I calls d))) = true ->
    readRows h (rowsRead (snd (liveReplies I calls d))) = rowsSeen I calls d.
Proof.
  induction calls as [|[|dest] calls IH]; intros d h; cbn [liveReplies rowsSeen].
  - reflexivity.
  - destruct (driver.Columns I d) as [d1 cols]. cbn [fst].
    specialize (IH d1 h). destruct (liveReplies I calls d1) as [d2 rs].
    exact IH.
  - destruct (driver.Next I d dest) as [[d1 dest1] err].
    specialize (IH d1 h). destruct (liveReplies I calls d1) as [d2 rs].
    cbn [snd rowsRead] in *. destruct err as [e|]; [reflexivity|].
    cbn [noBytes forallb]. intros Hrows.
    apply andb_true_iff in Hrows as [Hrow Hrest].
    cbn [readRows map]. f_equal; [|apply IH; exact Hrest].
    apply map_ext_in. intros v Hv.
    rewrite forallb_forall in Hrow. specialize (Hrow v Hv).
    destruct v; try reflexivity. discriminate Hrow.
Qed.

(** C6 (counterexample): the wrapped cursor delivers its two rows and
    end-of-data, within the bound and without a read error, and its [Close]
    fails. The specification has the commit occur all the same; the recorder
    returns the close error and never calls its setter. *)
Lemma C6_close_error_discards_clean_result :
  let logging : heap -> cache.Item -> list cache.Item -> list cache.Item :=
    fun _ item committed => committed ++ [item] in
  let failure := errorString "close failed" in
  let rr := rowsRecorder.newRowsRecorder logging
              (Some (mock.twoRows (Some failure))) 10 in
  match recorderReplies mock.Rows mock.drainTwo rr with
  | Ok (r1, rs) =>
      reachedEOF rs = true /\ readFailed rs = false /\
      rowsRead rs = cache.Rows mock.johnLisa /\
      match rowsRecorder.Close mock.Rows r1 [] with
      | Ok (_, committed, cerr) => cerr = Some failure /\ committed = []
      | Panic => False
      end
  | Panic => False
  end.
Proof. vm_compute. repeat split. Qed.

(** C6 (amended): [Close] of the recorder returns what the wrapped
    cursor's [Close] returns. When that is an error the recorder notes an
    error and the setter is not called, whatever was read before; when it
    is nil the setter is called exactly if end-of-data was seen, no error
    was noted and the bound was not exceeded. *)
Theorem C6_close_error_propagates_and_suppresses_commit {R W : Type}
  (I : driver.Rows R) (r : rowsRecorder.t R W) (d d' : R)
  (cerr : option error) (w : W)
  (Hdr : rowsRecorder.dr r = Some d)
  (Hclose : driver.Close I d = (d', cerr)) :
  exists r' w',
    rowsRecorder.Close I r w = Ok (r', w', cerr) /\
    rowsRecorder.dr r' = Some d' /\
    (cerr <> None -> w' = w /\ rowsRecorder.gotErr r' = true) /\
    (cerr = None ->
     w' = if rowsRecorder.gotEOF r && negb (rowsRecorder.gotErr r)
             && negb (rowsRecorder.maxRowsHit r)
          then rowsRecorder.setter r (driver.Heap I d')
                 (rowsRecorder.item r) w
          else w).
Proof.
  destruct (recorder_Close_spec I r d d' cerr w Hdr Hclose)
    as (r' & Hc & Hd' & Herr).
  eexists r', _. split; [exact Hc|]. split; [exact Hd'|]. split.
  - intros Hne. destruct cerr as [e|]; [|congruence].
    cbn [notNil] in *. rewrite orb_true_r in Herr. now split.
  - intros ->. reflexivity.
Qed.

Lemma C6_close_error_propagates_and_suppresses_commit_witness :
  let logging : heap -> cache.Item -> list cache.Item -> list cache.Item :=
    fun _ item committed => committed ++ [item] in
  let failure := errorString "close failed" in
  let r := {| rowsRecorder.item := mock.johnLisa;
              rowsRecorder.setter := logging;
              rowsRecorder.gotErr := false; rowsRecorder.gotEOF := true;
              rowsRecorder.maxRowsHit := false; rowsRecorder.maxRows := 10;
              rowsRecorder.dr := Some (mock.twoRows (Some failure)) |} in
  exists r' committed,
    rowsRecorder.Close mock.Rows r [] = Ok (r', committed, Some failure) /\
    committed = [].
Proof.
  intros logging failure r.
  destruct (C6_close_error_propagates_and_suppresses_commit
              mock.Rows r (mock.twoRows (Some failure)) _ (Some failure) []
              eq_refl eq_refl)
    as (r' & w' & Hc & _ & Herr & _).
  exists r', w'. split; [exact Hc|].
  apply Herr. discriminate.
Defined.


(** C1 (counterexample to the rows stored): a cached-policy query misses
    the cache; the live cursor has one [[]byte] column and reuses its
    buffer. The caller reads "John", then "Lisa", then end-of-data, and
    closes. The one [Set] is handed the two rows buffered, both the same
    slice of the cursor's buffer, and reads "Lisa" twice. *)
Lemma commit_reads_reused_buffer :
  let w := double.world double.reading [] in
  let cur := {| mock.names := ["John"; "Lisa"]; mock.buffer := "" |} in
  let conn : driver.QueryerContext unit mock.reuser :=
    {| driver.QueryContext := fun d _ _ => (d, (Some cur, None)) |} in
  let b := {| Data := 0; Len := 4; Cap := 64 |} in
  let calls := [callColumns; callNext [VNil]; callNext [VBytes b];
                callNext [VBytes b]] in
  match intercept (direct conn) mock.query mock.args w tt with
  | (w1, _, (Interceptor.recorderRows rr, None)) =>
      match recorderReplies mock.Reusing calls rr with
      | Ok (r1, rs) =>
          reachedEOF rs = true /\ readFailed rs = false /\
          rowsRead rs = [[VBytes b]; [VBytes b]] /\
          rowsSeen mock.Reusing calls cur
          = [[VBytes (list_ascii_of_string "John")];
             [VBytes (list_ascii_of_string "Lisa")]] /\
          match rowsRecorder.Close mock.Reusing r1 w1 with
          | Ok (_, w2, cerr) =>
              cerr = None /\
              Interceptor.backend w2
              = [("q75", [[VBytes (list_ascii_of_string "Lisa")];
                          [VBytes (list_ascii_of_string "Lisa")]])]
          | Panic => False
          end
      | Panic => False
      end
  | _ => False
  end.
Proof. vm_compute. repeat split. Qed.



(** ** Failures of the caching side *)

Lemma afterError_counted {B U : Type} (what : string) (e : error)
  (w0 : Interceptor.world B U) :
  countedAndReported what e w0 (afterError what e w0).
Proof.
  unfold countedAndReported, afterError, Interceptor.reportErr.
  cbn [Interceptor.addErrors Interceptor.withStats Interceptor.self
       Interceptor.onErr].
  destruct (Interceptor.onErr (Interceptor.self w0)); repeat split.
Qed.

(** What [Close] of the recorder returns, and the cursor it leaves, do
    not depend on the world the setter acts on. *)
Lemma recorder_Close_result {R W : Type} (I : driver.Rows R)
  (r : rowsRecorder.t R W) (d : R) :
  rowsRecorder.dr r = Some d ->
  exists r', forall w, exists w',
    rowsRecorder.Close I r w = Ok (r', w', snd (driver.Close I d)).
Proof.
  intros Hdr. unfold rowsRecorder.Close. rewrite Hdr.
  destruct (driver.Close I d) as [d' [e|]]; cbn [snd].
  - eexists. intros w. eexists. reflexivity.
  - eexists. intros w. destruct (_ && _); eexists; reflexivity.
Qed.

(** C7: while the interceptor is disabled, and for a text without a
    caching policy, both entry points hand the call to the wrapped driver
    and return its answer as it is. The world is left as it was: the
    backend took no step (no [Get], no [Set]), the key function and the
    hook did not run, and the three counters are unchanged. *)
Theorem C7_pass_through_leaves_world {B U D R : Type}
  (via : caller D R) (query : string) (args : list NamedValue)
  (w : Interceptor.world B U) (d : D)
  (H : Interceptor.disabled (Interceptor.self w) = true
       \/ getAttrs query = None) :
  intercept via query args w d
  = (w, fst (live via query args d),
     (Interceptor.liveRows (fst (snd (live via query args d))),
      snd (snd (live via query args d)))) /\
  Interceptor.Stats (fst (fst (intercept via query args w d)))
  = Interceptor.Stats w /\
  Interceptor.backend (fst (fst (intercept via query args w d)))
  = Interceptor.backend w /\
  Interceptor.user (fst (fst (intercept via query args w d)))
  = Interceptor.user w.
Proof.
  assert (E : intercept via query args w d
              = (w, fst (live via query args d),
                 (Interceptor.liveRows (fst (snd (live via query args d))),
                  snd (snd (live via query args d))))).
  { destruct H as [Hoff|Hnone];
      [apply intercept_disabled | apply intercept_no_policy]; assumption. }
  rewrite E. repeat split.
Qed.

Lemma C7_pass_through_leaves_world_witness :
  let b := {| mock.getReply := (Some mock.johnLisa, true, None);
              mock.setReply := None; mock.log := [] |} in
  let w := mock.world None true b in
  let d := {| mock.answer := (Some (mock.twoRows None), None);
              mock.ran := [] |} in
  intercept (prepared (mock.Stmt mock.query)) mock.query mock.args w d
  = (w, {| mock.answer := (Some (mock.twoRows None), None);
           mock.ran := [(mock.query, mock.args)] |},
     (Interceptor.liveRows (Some (mock.twoRows None)), None)).
Proof.
  intros b w d.
  exact (proj1 (C7_pass_through_leaves_world
                  (prepared (mock.Stmt mock.query)) mock.query mock.args w d
                  (or_introl eq_refl))).
Defined.

(** C4: for a cached-policy query, a failure of the key function or of
    the backend's [Get] is counted once and reported to the hook, wrapped,
    and the live query runs all the same: after a key failure the caller
    gets the driver's answer as it is; after a [Get] failure the caller
    gets what a miss returns, a recorder that answers every call as the
    live cursor does. A failure of [Set] at commit time is counted and
    reported too, and neither the cursor [Close] leaves nor the error it
    returns depends on it. *)
Theorem C4_cache_failures_never_fail_query {B U D R : Type}
  (I : driver.Rows R) (via : caller D R)
  (query : string) (args : list NamedValue)
  (w : Interceptor.world B U) (d : D) (attrs : attributes)
  (Henabled : Interceptor.disabled (Interceptor.self w) = false)
  (Hattrs : getAttrs query = Some attrs) :
  (* the key function fails *)
  (forall u' key e,
     Interceptor.hashFunc (Interceptor.self w) query args (Interceptor.user w)
     = (u', (key, Some e)) ->
     exists w1,
       intercept via query args w d
       = (w1, fst (live via query args d),
          (Interceptor.liveRows (fst (snd (live via query args d))),
           snd (snd (live via query args d)))) /\
       countedAndReported "HashFunc failed" e
         (Interceptor.withUser w u') w1) /\
  (* the backend's Get fails *)
  (forall u' key b' item ok e,
     Interceptor.hashFunc (Interceptor.self w) query args (Interceptor.user w)
     = (u', (key, None)) ->
     cache.Get (Interceptor.c (Interceptor.self w)) (Interceptor.backend w) key
     = (b', (item, ok, Some e)) ->
     (exists w1,
        intercept via query args w d
        = (w1, fst (live via query args d),
           missResult key attrs (snd (live via query args d))) /\
        countedAndReported "Cache.Get failed" e
          (Interceptor.withBackend (Interceptor.withUser w u') b') w1) /\
     (* the same driver step and the same result as in a world that
        misses *)
     (forall (wm : Interceptor.world B U) um bm itemm,
        Interceptor.disabled (Interceptor.self wm) = false ->
        Interceptor.hashFunc (Interceptor.self wm) query args
          (Interceptor.user wm) = (um, (key, None)) ->
        cache.Get (Interceptor.c (Interceptor.self wm))
          (Interceptor.backend wm) key = (bm, (itemm, false, None)) ->
        snd (fst (intercept via query args w d))
        = snd (fst (intercept via query args wm d)) /\
        snd (intercept via query args w d)
        = snd (intercept via query args wm d))) /\
  (* the recorder a miss returns is transparent to the caller *)
  (forall key cur calls,
     exists r1,
       recorderReplies I calls
         (rowsRecorder.newRowsRecorder
            (W := Interceptor.world B U)
            (Interceptor.cacheSetter key attrs) (Some cur) (maxRows attrs))
       = Ok (r1, snd (liveReplies I calls cur)) /\
       rowsRecorder.dr r1 = Some (fst (liveReplies I calls cur))) /\
  (* the backend's Set fails *)
  (forall h key captured (wc : Interceptor.world B U) b2 e,
     cache.Set_ (Interceptor.c (Interceptor.self wc)) (Interceptor.backend wc)
       h key captured (time.seconds (ttl attrs)) = (b2, Some e) ->
     countedAndReported "Cache.Set failed" e
       (Interceptor.withBackend wc b2)
       (Interceptor.cacheSetter key attrs h captured wc)) /\
  (forall (r : rowsRecorder.t R (Interceptor.world B U)) cur,
     rowsRecorder.dr r = Some cur ->
     exists r', forall wc, exists wc',
       rowsRecorder.Close I r wc = Ok (r', wc', snd (driver.Close I cur))).
Proof.
  split; [|split; [|split; [|split]]].
  - intros u' key e Hhash. eexists. split.
    + apply (intercept_hash_error via query args w d attrs Henabled Hattrs
               u' key e Hhash).
    + apply afterError_counted.
  - intros u' key b' item ok e Hhash Hget.
    pose proof (intercept_get_error via query args w d attrs Henabled Hattrs
                  u' key Hhash b' item ok e Hget) as E.
    split.
    + eexists. split; [exact E | apply afterError_counted].
    + intros wm um bm itemm Hon Hhashm Hmiss.
      rewrite E.
      rewrite (intercept_miss via query args wm d attrs Hon Hattrs
                 um key Hhashm bm itemm Hmiss).
      split; reflexivity.
  - intros key cur calls.
    destruct (recorder_transparent I calls
                (rowsRecorder.newRowsRecorder
                   (W := Interceptor.world B U)
                   (Interceptor.cacheSetter key attrs) (Some cur)
                   (maxRows attrs)) cur eq_refl)
      as (r1 & Hrun & Hd & _).
    exists r1. split; assumption.
  - intros h key captured wc b2 e Hset.
    pose proof (cacheSetter_spec key attrs h captured wc) as E.
    cbn zeta in E. rewrite Hset in E. cbn [fst snd] in E. rewrite E.
    apply afterError_counted.
  - intros r cur Hdr. apply recorder_Close_result. exact Hdr.
Qed.

Lemma C4_cache_failures_never_fail_query_witness :
  let failure := errorString "some error" in
  let b := {| mock.getReply := (None, true, Some failure);
              mock.setReply := None; mock.log := [] |} in
  let w := mock.world None false b in
  let d := {| mock.answer := (Some (mock.twoRows None), None);
              mock.ran := [] |} in
  exists w1,
    intercept (direct mock.Queryer) mock.query mock.args w d
    = (w1,
       {| mock.answer := (Some (mock.twoRows None), None);
          mock.ran := [(mock.query, mock.args)] |},
       missResult "q75" {| ttl := 30; maxRows := 10 |}
         (Some (mock.twoRows None), None)) /\
    Interceptor.Stats w1 = {| Hits := 0; Misses := 0; Errors := 1 |} /\
    mock.reported (Interceptor.user w1)
    = [wrapError "Cache.Get failed" failure].
Proof.
  intros failure b w d.
  destruct (C4_cache_failures_never_fail_query
              mock.Rows (direct mock.Queryer) mock.query mock.args w d
              {| ttl := 30; maxRows := 10 |} eq_refl eq_refl)
    as (_ & Hget & _).
  destruct (Hget {| mock.hashed := 1; mock.reported := [] |} "q75"
              {| mock.getReply := (None, true, Some failure);
                 mock.setReply := None;
                 mock.log := [mock.calledGet "q75"] |}
              None true failure eq_refl eq_refl)
    as [(w1 & E & Hstats & Huser & _) _].
  exists w1. split; [exact E|]. split; [exact Hstats|].
  rewrite Huser. reflexivity.
Defined.

(** ** The default key function *)

Example FormatUint_decimal :
  strconv.FormatUint 0 = "0" /\ strconv.FormatUint 75 = "75" /\
  strconv.FormatUint 18446744073709551615 = "18446744073709551615".
Proof. repeat split. Qed.

Lemma append_empty_r (a : string) : a +++ EmptyString = a.
Proof. induction a as [|x a IH]; simpl; [reflexivity | now rewrite IH]. Qed.

Lemma Itoa_of_nat (n : nat) :
  strconv.Itoa (Z.of_nat n) = strconv.FormatUint (Z.of_nat n).
Proof.
  unfold strconv.Itoa.
  destruct (Z.ltb_spec (Z.of_nat n) 0); [lia | reflexivity].
Qed.

(** C8: when the default key function succeeds, its key is ["q"], the
    length of the text in bytes, ["a"], the number of parameters, ["h"] and
    the digest, each number in decimal; the same text and parameters give
    the same key again. *)
Theorem C8_default_key_format
  (hash : string -> list NamedValue -> Z * option error)
  (query : string) (args : list NamedValue) (key : string)
  (H : defaultHashFunc hash query args = (key, None)) :
  key = "q" +++ strconv.FormatUint (Z.of_nat (String.length query))
        +++ "a" +++ strconv.FormatUint (Z.of_nat (List.length args))
        +++ "h" +++ strconv.FormatUint (fst (hash query args)) /\
  (forall query' args',
     query' = query -> args' = args ->
     defaultHashFunc hash query' args' = (key, None)).
Proof.
  split.
  - unfold defaultHashFunc in H.
    destruct (hash query args) as [u64 [e|]]; [discriminate|].
    injection H as <-. cbn [fmt.Sprintf fmt.verb fst].
    rewrite !Itoa_of_nat, append_empty_r. reflexivity.
  - intros query' args' -> ->. exact H.
Qed.

Lemma C8_default_key_format_witness :
  let hash := fun (_ : string) (_ : list NamedValue) =>
                (6981320630335034596, @None error) in
  defaultHashFunc hash mock.query mock.args
  = ("q75a1h6981320630335034596", None).
Proof.
  intros hash.
  destruct (C8_default_key_format hash mock.query mock.args
              "q75a1h6981320630335034596" eq_refl) as [_ Hagain].
  exact (Hagain mock.query mock.args eq_refl eq_refl).
Defined.

(** ** Concurrent callers *)
Section ConcurrentFacts.

Context {B U : Type}.

Local Abbreviation world := (Interceptor.world B U).

Lemma wrapU64_add_1 (x n : Z) :
  wrapU64 (wrapU64 (x + 1) + n) = wrapU64 (x + (1 + n)).
Proof.
  unfold wrapU64. rewrite Zplus_mod_idemp_l. f_equal. lia.
Qed.

Lemma count_cons (c : Concurrent.counter) (e : Concurrent.event (B := B) (U := U))
  (l : list Concurrent.event) :
  Concurrent.count c (e :: l)
  = (if Concurrent.adds c e then 1 else 0) + Concurrent.count c l.
Proof.
  unfold Concurrent.count. cbn [filter].
  destruct (Concurrent.adds c e); cbn [List.length]; lia.
Qed.

Lemma count_app (c : Concurrent.counter)
  (l l' : list (Concurrent.event (B := B) (U := U))) :
  Concurrent.count c (l ++ l')
  = Concurrent.count c l + Concurrent.count c l'.
Proof.
  unfold Concurrent.count. rewrite filter_app, length_app. lia.
Qed.

(** Any schedule run step by step adds to each counter the number of
    its increments, in [uint64] arithmetic. *)
Lemma run_counts (sched : list Concurrent.event) :
  forall w : world,
    uint64 (Hits (Interceptor.stats (Interceptor.self w))) ->
    uint64 (Misses (Interceptor.stats (Interceptor.self w))) ->
    uint64 (Errors (Interceptor.stats (Interceptor.self w))) ->
    Interceptor.Stats (Concurrent.run sched w)
    = {| Hits := wrapU64 (Hits (Interceptor.stats (Interceptor.self w))
                          + Concurrent.count Concurrent.cHits sched);
         Misses := wrapU64 (Misses (Interceptor.stats (Interceptor.self w))
                            + Concurrent.count Concurrent.cMisses sched);
         Errors := wrapU64 (Errors (Interceptor.stats (Interceptor.self w))
                            + Concurrent.count Concurrent.cErrors sched) |}.
Proof.
  induction sched as [|e sched IH]; intros w Hh Hm He.
  - unfold Concurrent.run, Concurrent.count, Interceptor.Stats,
      atomic.LoadUint64, wrapU64, uint64 in *.
    cbn. rewrite !Z.add_0_r, !Z.mod_small by assumption. reflexivity.
  - assert (Hmod : forall z, uint64 (wrapU64 z)).
    { intros z. unfold uint64, wrapU64. apply Z.mod_pos_bound. lia. }
    change (Concurrent.run (e :: sched) w)
      with (Concurrent.run sched (Concurrent.step w e)).
    rewrite !count_cons.
    destruct e as [[] | call | call];
      cbn [Concurrent.step Concurrent.adds];
      rewrite IH; cbn; unfold atomic.AddUint64;
      try apply Hmod; try assumption;
      rewrite ?wrapU64_add_1, ?Z.add_0_l; reflexivity.
Qed.

(** A schedule holds the events of its threads, each once. *)
Lemma interleave_Permutation
  (threads : list (list (Concurrent.event (B := B) (U := U))))
  (sched : list Concurrent.event) :
  Concurrent.interleave threads sched ->
  Permutation (List.concat threads) sched.
Proof.
  induction 1 as [ts Hall | ts1 e t ts2 sched _ IH].
  - induction Hall as [|t ts Ht _ IHts]; [constructor|].
    subst t. exact IHts.
  - rewrite concat_app in *. cbn [List.concat] in *.
    rewrite <- app_comm_cons.
    apply Permutation_sym, Permutation_cons_app, Permutation_sym.
    exact IH.
Qed.

Lemma count_Permutation (c : Concurrent.counter)
  (l l' : list (Concurrent.event (B := B) (U := U))) :
  Permutation l l' -> Concurrent.count c l = Concurrent.count c l'.
Proof.
  induction 1 as [|x l l' _ IH|x y l|l l' l'' _ IH1 _ IH2].
  - reflexivity.
  - rewrite !count_cons. lia.
  - rewrite !count_cons. lia.
  - lia.
Qed.

Lemma run_app (l l' : list Concurrent.event) (w : world) :
  Concurrent.run (l ++ l') w = Concurrent.run l' (Concurrent.run l w).
Proof. apply fold_left_app. Qed.

(** Reporting an error is the run of the hook's steps. *)
Lemma reportErr_run (what : string) (e : error) (w : world) :
  Interceptor.reportErr what e w
  = Concurrent.run (Concurrent.hookSteps (Interceptor.self w) what e) w.
Proof.
  unfold Interceptor.reportErr, Concurrent.hookSteps.
  destruct (Interceptor.onErr (Interceptor.self w)); reflexivity.
Qed.

Lemma hookSteps_count (i : Interceptor.t B U) (what : string) (e : error)
  (c : Concurrent.counter) :
  Concurrent.count c (Concurrent.hookSteps i what e) = 0.
Proof.
  unfold Concurrent.hookSteps.
  destruct (Interceptor.onErr i); destruct c; reflexivity.
Qed.

(** A query thread makes exactly one counter event. *)
Lemma queryThread_one_event (i : Interceptor.t B U)
  (query : string) (args : list NamedValue)
  (hashed : string * option error)
  (got : option cache.Item * bool * option error) :
  let thread := Concurrent.queryThread i query args hashed got in
  Concurrent.count Concurrent.cHits thread
  + Concurrent.count Concurrent.cMisses thread
  + Concurrent.count Concurrent.cErrors thread = 1.
Proof.
  destruct hashed as [key [e|]], got as [[item [|]] [e'|]];
    cbn [Concurrent.queryThread]; rewrite ?count_app, ?hookSteps_count;
    reflexivity.
Qed.

End ConcurrentFacts.

(** Run alone, a cached-policy query changes the world as its thread of
    atomic steps does. *)
Lemma intercept_runs_queryThread {B U D R : Type} (via : caller D R)
  (query : string) (args : list NamedValue)
  (w : Interceptor.world B U) (d : D) (attrs : attributes) :
  Interceptor.disabled (Interceptor.self w) = false ->
  getAttrs query = Some attrs ->
  let hashed :=
    Interceptor.hashFunc (Interceptor.self w) query args (Interceptor.user w) in
  let got :=
    cache.Get (Interceptor.c (Interceptor.self w)) (Interceptor.backend w)
      (fst (snd hashed)) in
  fst (fst (intercept via query args w d))
  = Concurrent.run
      (Concurrent.queryThread (Interceptor.self w) query args
         (snd hashed) (snd got)) w.
Proof.
  intros Hon Hattrs hashed got.
  destruct hashed as [u' [key [e|]]] eqn:Hhash; subst hashed.
  - rewrite (intercept_hash_error via query args w d attrs Hon Hattrs
               u' key e Hhash).
    cbn [fst snd Concurrent.queryThread]. rewrite run_app.
    unfold afterError. rewrite reportErr_run.
    cbn. unfold Concurrent.hashStep. cbn. rewrite Hhash. reflexivity.
  - cbn [fst snd] in got.
    destruct got as [b' [[item [|]] [e|]]] eqn:Hget; subst got.
    + rewrite (intercept_get_error via query args w d attrs Hon Hattrs
                 u' key Hhash b' item true e Hget).
      cbn [fst snd Concurrent.queryThread]. rewrite run_app.
      unfold afterError. rewrite reportErr_run.
      cbn. rewrite Hhash, Hget. reflexivity.
    + rewrite (intercept_hit via query args w d attrs Hon Hattrs
                 u' key Hhash b' item Hget).
      cbn. rewrite Hhash, Hget. reflexivity.
    + rewrite (intercept_get_error via query args w d attrs Hon Hattrs
                 u' key Hhash b' item false e Hget).
      cbn [fst snd Concurrent.queryThread]. rewrite run_app.
      unfold afterError. rewrite reportErr_run.
      cbn. rewrite Hhash, Hget. reflexivity.
    + rewrite (intercept_miss via query args w d attrs Hon Hattrs
                 u' key Hhash b' item Hget).
      cbn. rewrite Hhash, Hget. reflexivity.
Qed.

(** A commit changes the world as its thread of atomic steps does. *)
Lemma cacheSetter_runs_commitThread {B U : Type} (key : string)
  (attrs : attributes) (h : heap) (item : cache.Item)
  (w : Interceptor.world B U) :
  let putting :=
    cache.Set_ (Interceptor.c (Interceptor.self w)) (Interceptor.backend w)
      h key item (time.seconds (ttl attrs)) in
  Interceptor.cacheSetter key attrs h item w
  = Concurrent.run
      (Concurrent.commitThread (Interceptor.self w) h key item
         (time.seconds (ttl attrs)) (snd putting)) w.
Proof.
  intros putting. rewrite cacheSetter_spec. fold putting.
  destruct putting as [b' [e|]] eqn:Hset; cbn [fst snd]; subst putting.
  - unfold afterError. rewrite reportErr_run.
    cbn. rewrite Hset. reflexivity.
  - cbn. rewrite Hset. reflexivity.
Qed.

(** C9: whatever the interleaving of the atomic steps of the concurrent
    query executions, afterwards each counter has grown by exactly the
    number of its increments (in [uint64] arithmetic, so without a lost
    update), and [Stats] returns these three values. A [Stats] whose loads
    fall between the steps returns, for each counter, the exact number of
    increments made before the load. A cached-policy query is such a
    thread of steps, with exactly one increment: of the hit, the miss or
    the error counter. *)
Theorem C9_counters_exact_after_any_interleaving {B U D R : Type}
  (threads : list (list Concurrent.event))
  (sched : list Concurrent.event) (w : Interceptor.world B U)
  (Hsched : Concurrent.interleave threads sched)
  (Hh : uint64 (Hits (Interceptor.stats (Interceptor.self w))))
  (Hm : uint64 (Misses (Interceptor.stats (Interceptor.self w))))
  (He : uint64 (Errors (Interceptor.stats (Interceptor.self w)))) :
  let events := List.concat threads in
  let hits0 := Hits (Interceptor.stats (Interceptor.self w)) in
  let misses0 := Misses (Interceptor.stats (Interceptor.self w)) in
  let errors0 := Errors (Interceptor.stats (Interceptor.self w)) in
  Interceptor.Stats (Concurrent.run sched w)
  = {| Hits := wrapU64 (hits0 + Concurrent.count Concurrent.cHits events);
       Misses :=
         wrapU64 (misses0 + Concurrent.count Concurrent.cMisses events);
       Errors :=
         wrapU64 (errors0 + Concurrent.count Concurrent.cErrors events) |} /\
  (forall p1 p2 p3 rest,
     sched = p1 ++ p2 ++ p3 ++ rest ->
     let w1 := Concurrent.run p1 w in
     let w2 := Concurrent.run p2 w1 in
     let w3 := Concurrent.run p3 w2 in
     statsAt w1 w2 w3
     = {| Hits := wrapU64 (hits0 + Concurrent.count Concurrent.cHits p1);
          Misses :=
            wrapU64 (misses0
                     + Concurrent.count Concurrent.cMisses (p1 ++ p2));
          Errors :=
            wrapU64 (errors0
                     + Concurrent.count Concurrent.cErrors
                         (p1 ++ p2 ++ p3)) |}) /\
  (forall (via : caller D R) query args (w0 : Interceptor.world B U) d attrs,
     Interceptor.disabled (Interceptor.self w0) = false ->
     getAttrs query = Some attrs ->
     exists thread,
       fst (fst (intercept via query args w0 d)) = Concurrent.run thread w0 /\
       Concurrent.count Concurrent.cHits thread
       + Concurrent.count Concurrent.cMisses thread
       + Concurrent.count Concurrent.cErrors thread = 1).
Proof.
  intros events hits0 misses0 errors0. split; [|split].
  - pose proof (interleave_Permutation threads sched Hsched) as Hperm.
    rewrite (run_counts sched w Hh Hm He).
    now rewrite !(count_Permutation _ _ _ Hperm).
  - intros p1 p2 p3 rest _ w1 w2 w3.
    pose proof (run_counts p1 w Hh Hm He) as E1.
    pose proof (run_counts (p1 ++ p2) w Hh Hm He) as E2.
    pose proof (run_counts (p1 ++ p2 ++ p3) w Hh Hm He) as E3.
    rewrite app_assoc, !run_app in E3. rewrite run_app in E2.
    fold w1 in E1, E2, E3. fold w2 in E2, E3. fold w3 in E3.
    rewrite <- app_assoc in E3.
    unfold statsAt. unfold Interceptor.Stats in E1, E2, E3.
    injection E1 as -> _ _. injection E2 as _ -> _. injection E3 as _ _ ->.
    reflexivity.
  - intros via query args w0 d attrs Hon Hattrs. eexists. split.
    + apply (intercept_runs_queryThread via query args w0 d attrs Hon Hattrs).
    + apply queryThread_one_event.
Qed.

Lemma C9_counters_exact_after_any_interleaving_witness :
  let w := mock.world None false
             {| mock.getReply := (None, false, None);
                mock.setReply := None; mock.log := [] |} in
  let get := Concurrent.getStep (mock.interceptor None false) "q75" in
  let hit := Concurrent.evAdd Concurrent.cHits in
  let miss := Concurrent.evAdd Concurrent.cMisses in
  let failed := Concurrent.evAdd Concurrent.cErrors in
  Interceptor.Stats
    (Concurrent.run [get; miss; get; failed; get; hit; hit] w)
  = {| Hits := 2; Misses := 1; Errors := 1 |}.
Proof.
  intros w get hit miss failed.
  refine (proj1 (C9_counters_exact_after_any_interleaving
                   (D := mock.conn) (R := mock.cursor)
                   [[get; hit]; [get; miss]; [hit]; [get; failed]]
                   [get; miss; get; failed; get; hit; hit] w _ _ _ _));
    [|unfold uint64; simpl; lia ..].
  apply (Concurrent.interleave_step
           [[get; hit]] get [miss] [[hit]; [get; failed]]).
  apply (Concurrent.interleave_step
           [[get; hit]] miss [] [[hit]; [get; failed]]).
  apply (Concurrent.interleave_step
           [[get; hit]; []; [hit]] get [failed] []).
  apply (Concurrent.interleave_step
           [[get; hit]; []; [hit]] failed [] []).
  apply (Concurrent.interleave_step
           [] get [hit] [[]; [hit]; []]).
  apply (Concurrent.interleave_step
           [[hit]; []] hit [] [[]]).
  apply (Concurrent.interleave_step
           [] hit [] [[]; []; []]).
  apply Concurrent.interleave_done. repeat constructor.
Defined.

(** ** Witnesses of the hit path *)

Lemma C2_cache_hit_replays_item_witness :
  let b := {| mock.getReply := (Some mock.johnLisa, true, None);
              mock.setReply := None; mock.log := [] |} in
  let w := mock.world None false b in
  let d := {| mock.answer := (Some (mock.twoRows None), None);
              mock.ran := [] |} in
  let rc := {| rowsCached.Item := Some mock.johnLisa;
               rowsCached.ptr := 0 |} in
  snd (Interceptor.ConnQueryContext mock.Queryer mock.query mock.args w d)
  = (Interceptor.cachedRows rc, None) /\
  snd (fst (Interceptor.ConnQueryContext mock.Queryer
              mock.query mock.args w d)) = d /\
  scanCached 3 rc [VNil]
  = Ok ([[VString "John"]; [VString "Lisa"]],
        {| rowsCached.Item := Some mock.johnLisa; rowsCached.ptr := 2 |},
        Some io_EOF).
Proof.
  intros b w d rc.
  destruct (C2_cache_hit_replays_item
              mock.Queryer (mock.Stmt mock.query) mock.query mock.args w d
              {| ttl := 30; maxRows := 10 |} "q75"
              {| mock.hashed := 1; mock.reported := [] |}
              {| mock.getReply := (Some mock.johnLisa, true, None);
                 mock.setReply := None;
                 mock.log := [mock.calledGet "q75"] |}
              mock.johnLisa
              eq_refl eq_refl eq_refl eq_refl)
    as (Hconn & _ & _ & _ & _ & _ & Hscan & _).
  rewrite Hconn. split; [reflexivity|]. split; [reflexivity|].
  exact (proj2 (Hscan [VNil] ltac:(repeat constructor))).
Defined.

Lemma C10_hit_path_total_iff_item_not_nil_witness :
  let b := {| mock.getReply := (None, true, None);
              mock.setReply := None; mock.log := [] |} in
  let w := mock.world None false b in
  let d := {| mock.answer := (Some (mock.twoRows None), None);
              mock.ran := [] |} in
  let rc := {| rowsCached.Item := None; rowsCached.ptr := 0 |} in
  snd (Interceptor.ConnQueryContext mock.Queryer mock.query mock.args w d)
  = (Interceptor.cachedRows rc, None) /\
  rowsCached.Columns rc = Panic /\
  rowsCached.Next rc [VNil] = Panic.
Proof.
  intros b w d rc.
  destruct (C10_hit_path_total_iff_item_not_nil
              mock.Queryer (mock.Stmt mock.query) mock.query mock.args w d
              {| ttl := 30; maxRows := 10 |} "q75"
              {| mock.hashed := 1; mock.reported := [] |}
              {| mock.getReply := (None, true, None);
                 mock.setReply := None;
                 mock.log := [mock.calledGet "q75"] |}
              None eq_refl eq_refl eq_refl eq_refl)
    as (Hconn & _ & _ & Hnil).
  destruct (Hnil eq_refl) as [Hcols Hnext].
  split; [exact Hconn|]. split; [exact Hcols | exact (Hnext [VNil])].
Defined.

(** * Further properties of the code *)

(** ** Construction and the enable flag *)

(** [NewInterceptor] fails exactly on a nil configuration or a nil
    backend, and then returns no interceptor; otherwise it returns an
    enabled interceptor with the three counters at zero, the backend and
    the hook of the configuration, and the configured key function, or the
    default one when none is configured. *)
Theorem NewInterceptor_checks_config {B U : Type}
  (hash : string -> list NamedValue -> Z * option error)
  (config : option (Config B U)) :
  let result := snd (NewInterceptor hash config) in
  (snd result <> None <->
   config = None \/ exists cfg, config = Some cfg /\ Cache cfg = None) /\
  (fst result = None <-> snd result <> None) /\
  (forall i, fst result = Some i ->
     exists cfg backend,
       config = Some cfg /\ Cache cfg = Some backend /\
       Interceptor.c i = backend /\
       Interceptor.onErr i = OnError cfg /\
       Interceptor.stats i = {| Hits := 0; Misses := 0; Errors := 0 |} /\
       Interceptor.disabled i = false /\
       (forall f, HashFunc cfg = Some f -> Interceptor.hashFunc i = f) /\
       (HashFunc cfg = None ->
        Interceptor.hashFunc i
        = fun query args u => (u, defaultHashFunc hash query args))).
Proof.
  destruct config as [cfg|]; cbn.
  - destruct (Cache cfg) as [backend|] eqn:Hc; cbn.
    + split; [|split].
      * split; [congruence|].
        intros [H|(cfg' & [= <-] & H)]; congruence.
      * split; intros H; [discriminate | congruence].
      * intros i [= <-]. exists cfg, backend. cbn.
        repeat split; try assumption.
        -- intros f ->. reflexivity.
        -- intros ->. reflexivity.
    + split; [|split].
      * split; [intros _; right; exists cfg; auto | discriminate].
      * split; intros _; [discriminate | reflexivity].
      * discriminate.
  - split; [|split].
    + split; [intros _; left; reflexivity | discriminate].
    + split; intros _; [discriminate | reflexivity].
    + discriminate.
Qed.

(** X2: After [Disable] every query, with or without a policy in its text,
    goes to the wrapped driver and the world stays as [Disable] left it:
    no backend call, no callback, no counter event. [Disable] and [Enable]
    touch the flag alone, and [Enable] after [Disable] gives an enabled
    interceptor its former state back, so its behaviour is restored. *)
Theorem Disable_bypasses_until_Enable {B U D R : Type}
  (via : caller D R) (query : string) (args : list NamedValue)
  (w : Interceptor.world B U) (d : D) :
  intercept via query args (Interceptor.Disable w) d
  = (Interceptor.Disable w, fst (live via query args d),
     (Interceptor.liveRows (fst (snd (live via query args d))),
      snd (snd (live via query args d)))) /\
  Interceptor.Stats (Interceptor.Disable w) = Interceptor.Stats w /\
  Interceptor.backend (Interceptor.Disable w) = Interceptor.backend w /\
  Interceptor.user (Interceptor.Disable w) = Interceptor.user w /\
  Interceptor.Enable (Interceptor.Disable w) = Interceptor.Enable w /\
  (Interceptor.disabled (Interceptor.self w) = false ->
   Interceptor.Enable (Interceptor.Disable w) = w /\
   intercept via query args (Interceptor.Enable (Interceptor.Disable w)) d
   = intercept via query args w d).
Proof.
  split; [apply intercept_disabled; reflexivity|].
  repeat split.
  - destruct w as [[c hf hook st off] b u]. cbn in *. now subst off.
  - destruct w as [[c hf hook st off] b u]. cbn in *. now subst off.
Qed.

Lemma Disable_bypasses_until_Enable_witness :
  let b := {| mock.getReply := (Some mock.johnLisa, true, None);
              mock.setReply := None; mock.log := [] |} in
  let w := mock.world None false b in
  let d := {| mock.answer := (Some (mock.twoRows None), None);
              mock.ran := [] |} in
  intercept (direct mock.Queryer) mock.query mock.args
    (Interceptor.Enable (Interceptor.Disable w)) d
  = intercept (direct mock.Queryer) mock.query mock.args w d.
Proof.
  intros b w d.
  exact (proj2 (proj2 (proj2 (proj2 (proj2 (proj2
           (Disable_bypasses_until_Enable
              (direct mock.Queryer) mock.query mock.args w d)))))
           eq_refl)).
Defined.

(** ** The wrapped driver *)

(** X1: Whatever the text, the flag, the key function and the backend do, an
    entry point either returns a cached cursor without a step of the
    driver, or calls the driver exactly once and returns its error as it
    is, with the driver's own cursor or, after a successful live query of a
    cached-policy text, a fresh recorder around that cursor. *)
Theorem intercept_calls_driver_at_most_once {B U D R : Type}
  (via : caller D R) (query : string) (args : list NamedValue)
  (w : Interceptor.world B U) (d : D) :
  let result := intercept via query args w d in
  let answer := live via query args d in
  match fst (snd result) with
  | Interceptor.cachedRows rc =>
      snd (fst result) = d /\ snd (snd result) = None /\
      rowsCached.ptr rc = 0%nat
  | Interceptor.liveRows rows =>
      snd (fst result) = fst answer /\
      (rows, snd (snd result)) = snd answer
  | Interceptor.recorderRows rr =>
      snd (fst result) = fst answer /\
      snd (snd result) = None /\
      (rowsRecorder.dr rr, None) = snd answer /\
      stopped rr = false /\ buffered rr = [] /\
      exists attrs, getAttrs query = Some attrs /\
                    rowsRecorder.maxRows rr = maxRows attrs
  end.
Proof.
  intros result answer. subst result.
  destruct (Interceptor.disabled (Interceptor.self w)) eqn:Hoff.
  { rewrite intercept_disabled by assumption. cbn. subst answer.
    destruct (live via query args d) as [d' [rows err]]. now split. }
  destruct (getAttrs query) as [attrs|] eqn:Hattrs.
  2:{ rewrite intercept_no_policy by assumption. cbn. subst answer.
      destruct (live via query args d) as [d' [rows err]]. now split. }
  destruct (Interceptor.hashFunc (Interceptor.self w) query args
              (Interceptor.user w)) as [u' [key [e|]]] eqn:Hhash.
  { rewrite (intercept_hash_error via query args w d attrs Hoff Hattrs
               u' key e Hhash). cbn. subst answer.
    destruct (live via query args d) as [d' [rows err]]. now split. }
  assert (Hmissed :
    match fst (missResult (B := B) (U := U) key attrs (snd answer)) with
    | Interceptor.cachedRows rc =>
        fst answer = d /\
        snd (missResult (B := B) (U := U) key attrs (snd answer)) = None /\
        rowsCached.ptr rc = 0%nat
    | Interceptor.liveRows rows =>
        fst answer = fst answer /\
        (rows, snd (missResult (B := B) (U := U) key attrs (snd answer)))
        = snd answer
    | Interceptor.recorderRows rr =>
        fst answer = fst answer /\
        snd (missResult (B := B) (U := U) key attrs (snd answer)) = None /\
        (rowsRecorder.dr rr, None) = snd answer /\
        stopped rr = false /\ buffered rr = [] /\
        exists attrs', Some attrs = Some attrs' /\
                       rowsRecorder.maxRows rr = maxRows attrs'
    end).
  { unfold missResult. destruct (snd answer) as [rows [e|]]; cbn.
    - now split.
    - repeat split. exists attrs. now split. }
  destruct (cache.Get (Interceptor.c (Interceptor.self w))
              (Interceptor.backend w) key)
    as [b' [[item [|]] [e|]]] eqn:Hget.
  - rewrite (intercept_get_error via query args w d attrs Hoff Hattrs
               u' key Hhash b' item true e Hget). exact Hmissed.
  - rewrite (intercept_hit via query args w d attrs Hoff Hattrs
               u' key Hhash b' item Hget). cbn. now repeat split.
  - rewrite (intercept_get_error via query args w d attrs Hoff Hattrs
               u' key Hhash b' item false e Hget). exact Hmissed.
  - rewrite (intercept_miss via query args w d attrs Hoff Hattrs
               u' key Hhash b' item Hget). exact Hmissed.
Qed.

(** ** Invariants of the row-capture adapter *)
Section RecorderInvariants.

Context {R W : Type}.
Variable I : driver.Rows R.

Local Abbreviation recorder := (rowsRecorder.t R W).

(** The flags only ever go up, and the bound and the setter stay. *)
Lemma recorderReplies_flags (calls : list call) :
  forall (r r' : recorder) (rs : list reply),
    recorderReplies I calls r = Ok (r', rs) ->
    rowsRecorder.maxRows r' = rowsRecorder.maxRows r /\
    rowsRecorder.gotEOF r' = rowsRecorder.gotEOF r || reachedEOF rs /\
    rowsRecorder.gotErr r' = rowsRecorder.gotErr r || readFailed rs /\
    (rowsRecorder.maxRowsHit r = true -> rowsRecorder.maxRowsHit r' = true).
Proof.
  induction calls as [|[|dest] calls IH]; intros r r' rs Hrun.
  - injection Hrun as <- <-. cbn. rewrite !orb_false_r. auto.
  - cbn [recorderReplies] in Hrun.
    destruct (rowsRecorder.Columns I r) as [[r1 cols]|] eqn:Hc;
      [|discriminate].
    destruct (recorderReplies I calls r1) as [[r2 rs2]|] eqn:Hr;
      [|discriminate].
    injection Hrun as <- <-.
    destruct (recorder_Columns_buffer I _ _ _ Hc) as (He & Hg & Hh & Hm & _).
    destruct (IH r1 r2 rs2 Hr) as (Hm2 & He2 & Hg2 & Hh2).
    cbn [reachedEOF readFailed existsb orb].
    rewrite Hm2, He2, Hg2, Hm, He, Hg, Hh in *. auto.
  - cbn [recorderReplies] in Hrun.
    destruct (rowsRecorder.Next I r dest) as [[[r1 dest1] err]|] eqn:Hn;
      [|discriminate].
    destruct (recorderReplies I calls r1) as [[r2 rs2]|] eqn:Hr;
      [|discriminate].
    injection Hrun as <- <-.
    destruct (recorder_Next_buffer I _ _ _ _ _ Hn) as (Hm & He & Hg & Hbuf).
    destruct (IH r1 r2 rs2 Hr) as (Hm2 & He2 & Hg2 & Hh2).
    split; [congruence|]. split; [|split].
    + rewrite He2, He. unfold reachedEOF. cbn [existsb].
      rewrite orb_assoc. f_equal.
    + rewrite Hg2, Hg. unfold readFailed. cbn [existsb].
      rewrite orb_assoc. f_equal. f_equal. now destruct err as [[]|].
    + intros Hhit. apply Hh2.
      unfold stopped in Hbuf. rewrite Hhit, orb_true_r in Hbuf.
      cbn [orb] in Hbuf. now rewrite (proj2 Hbuf).
Qed.

(** X5: Whatever it is asked, a recorder that holds no more rows than its
    bound never comes to hold more. It never gives up a row it holds; each
    of its three flags, once set, stays set; and once one of them is set
    it takes no further row. *)
Theorem recorder_buffer_stays_within_bound (calls : list call)
  (r r' : recorder) (rs : list reply)
  (Hrun : recorderReplies I calls r = Ok (r', rs))
  (Hfit : Z.of_nat (List.length (buffered r)) <= rowsRecorder.maxRows r) :
  Z.of_nat (List.length (buffered r')) <= rowsRecorder.maxRows r' /\
  (List.length (buffered r) <= List.length (buffered r')
   <= List.length (buffered r) + List.length (rowsRead rs))%nat /\
  (rowsRecorder.gotEOF r = true -> rowsRecorder.gotEOF r' = true) /\
  (rowsRecorder.gotErr r = true -> rowsRecorder.gotErr r' = true) /\
  (rowsRecorder.maxRowsHit r = true -> rowsRecorder.maxRowsHit r' = true) /\
  (stopped r = true ->
   List.length (buffered r') = List.length (buffered r)).
Proof.
  destruct (recorderReplies_flags calls r r' rs Hrun)
    as (Hm & He & Hg & Hh).
  assert (Hfrozen : stopped r = true -> buffered r' = buffered r).
  { intros Hs. apply (recorder_stopped_frozen I calls r r' rs Hrun Hs). }
  destruct (stopped r) eqn:Hs.
  - rewrite Hm, (Hfrozen eq_refl). split; [exact Hfit|].
    split; [lia|].
    repeat split; try assumption.
    + intros E. rewrite He, E. reflexivity.
    + intros E. rewrite Hg, E. reflexivity.
  - destruct (recorder_buffers_rows I calls r r' rs Hrun Hs Hfit)
      as [Hb _].
    split.
    + rewrite Hb, Hm, length_app, length_firstn. lia.
    + split; [rewrite Hb, length_app, length_firstn; lia|].
      repeat split; try assumption.
      * intros E. rewrite He, E. reflexivity.
      * intros E. rewrite Hg, E. reflexivity.
      * discriminate.
Qed.

(** X6: With a negative bound the test against the bound never succeeds: the
    recorder takes a row at every [Next] up to the first [io.EOF] or
    error, without a limit. *)
Theorem recorder_negative_bound_is_unbounded (calls : list call) :
  forall (r r' : recorder) (rs : list reply),
    recorderReplies I calls r = Ok (r', rs) ->
    rowsRecorder.maxRows r < 0 ->
    stopped r = false ->
    List.length (buffered r')
    = (List.length (buffered r) + List.length (rowsRead rs))%nat /\
    rowsRecorder.maxRowsHit r' = false.
Proof.
  induction calls as [|[|dest] calls IH]; intros r r' rs Hrun Hneg Hgo.
  - injection Hrun as <- <-. cbn. rewrite Nat.add_0_r.
    unfold stopped in Hgo. apply orb_false_iff in Hgo as [_ ->]. auto.
  - cbn [recorderReplies] in Hrun.
    destruct (rowsRecorder.Columns I r) as [[r1 cols]|] eqn:Hc;
      [|discriminate].
    destruct (recorderReplies I calls r1) as [[r2 rs2]|] eqn:Hr;
      [|discriminate].
    injection Hrun as <- <-.
    destruct (recorder_Columns_buffer I _ _ _ Hc) as (He & Hg & Hh & Hm & Hb).
    destruct (IH r1 r2 rs2 Hr) as [Hb2 Hh2].
    + now rewrite Hm.
    + unfold stopped in *. now rewrite He, Hg, Hh.
    + cbn [rowsRead]. rewrite <- Hb. auto.
  - cbn [recorderReplies] in Hrun.
    destruct (rowsRecorder.Next I r dest) as [[[r1 dest1] err]|] eqn:Hn;
      [|discriminate].
    destruct (recorderReplies I calls r1) as [[r2 rs2]|] eqn:Hr;
      [|discriminate].
    injection Hrun as <- <-.
    destruct (recorder_Next_buffer I _ _ _ _ _ Hn) as (Hm & He & Hg & Hbuf).
    rewrite Hgo in Hbuf. cbn [orb] in Hbuf.
    assert (Hflags : rowsRecorder.gotEOF r = false /\
                     rowsRecorder.gotErr r = false /\
                     rowsRecorder.maxRowsHit r = false).
    { unfold stopped in Hgo. apply orb_false_iff in Hgo as [Hgo ?].
      apply orb_false_iff in Hgo as [? ?]. auto. }
    destruct Hflags as (He0 & Hg0 & Hh0).
    destruct err as [e|]; cbn [notNil] in Hbuf.
    + destruct Hbuf as [Hb Hh].
      destruct (recorder_stopped_frozen I calls r1 r2 rs2 Hr) as [Hb2 Hh2].
      { unfold stopped. rewrite He, Hg, He0, Hg0. cbn.
        destruct e; reflexivity. }
      cbn [rowsRead List.length]. rewrite Nat.add_0_r.
      split; congruence.
    + destruct (Z.eqb_spec (Z.of_nat (List.length (buffered r)))
                  (rowsRecorder.maxRows r)) as [Hfull|_]; [lia|].
      destruct Hbuf as [Hb Hh].
      destruct (IH r1 r2 rs2 Hr) as [Hb2 Hh2].
      { now rewrite Hm. }
      { unfold stopped. rewrite He, Hg, Hh, He0, Hg0. reflexivity. }
      cbn [rowsRead List.length]. rewrite Hb2, Hb, length_app.
      cbn [List.length]. split; [lia | assumption].
Qed.

(** X19: The rows a recorder holds are the values the reads delivered, in
    their order and up to the bound, and nothing of its own: a [[]byte]
    among them is the slice header the wrapped cursor delivered. So read
    in whatever heap, the rows held show what the rows delivered show in
    that heap. *)
Theorem recorder_holds_values_read (calls : list call)
  (r r' : recorder) (rs : list reply)
  (Hrun : recorderReplies I calls r = Ok (r', rs))
  (Hgo : stopped r = false)
  (Hfit : Z.of_nat (List.length (buffered r)) <= rowsRecorder.maxRows r) :
  let room :=
    Z.to_nat (rowsRecorder.maxRows r - Z.of_nat (List.length (buffered r))) in
  buffered r' = buffered r ++ firstn room (rowsRead rs) /\
  (forall h : heap,
     readRows h (buffered r')
     = readRows h (buffered r) ++ firstn room (readRows h (rowsRead rs))).
Proof.
  intros room.
  destruct (recorder_buffers_rows I calls r r' rs Hrun Hgo Hfit) as [Hb _].
  fold room in Hb. split; [exact Hb|].
  intros h. rewrite Hb. unfold readRows.
  now rewrite map_app, firstn_map.
Qed.

End RecorderInvariants.

Lemma recorder_buffer_stays_within_bound_witness :
  let logging : heap -> cache.Item -> list cache.Item -> list cache.Item :=
    fun _ item committed => committed ++ [item] in
  let rr := rowsRecorder.newRowsRecorder logging
              (Some (mock.twoRows None)) 1 in
  exists r' rs,
    recorderReplies mock.Rows mock.drainTwo rr = Ok (r', rs) /\
    List.length (rowsRead rs) = 2%nat /\
    Z.of_nat (List.length (buffered r')) <= 1.
Proof.
  intros logging rr.
  destruct (recorderReplies mock.Rows mock.drainTwo rr)
    as [[r' rs]|] eqn:Hrun; [|discriminate Hrun].
  exists r', rs. split; [reflexivity|]. split.
  - vm_compute in Hrun. injection Hrun as _ <-. reflexivity.
  - pose proof (recorder_buffer_stays_within_bound
                  mock.Rows mock.drainTwo rr r' rs Hrun
                  ltac:(cbn; lia)) as [Hfit _].
    replace (rowsRecorder.maxRows r') with 1 in Hfit; [exact Hfit|].
    vm_compute in Hrun. injection Hrun as <- _. reflexivity.
Defined.

Lemma recorder_negative_bound_is_unbounded_witness :
  let logging : heap -> cache.Item -> list cache.Item -> list cache.Item :=
    fun _ item committed => committed ++ [item] in
  let rr := rowsRecorder.newRowsRecorder logging
              (Some (mock.twoRows None)) (-1) in
  exists r' rs,
    recorderReplies mock.Rows mock.drainTwo rr = Ok (r', rs) /\
    List.length (buffered r') = List.length (rowsRead rs) /\
    rowsRecorder.maxRowsHit r' = false.
Proof.
  intros logging rr.
  destruct (recorderReplies mock.Rows mock.drainTwo rr)
    as [[r' rs]|] eqn:Hrun; [|discriminate Hrun].
  exists r', rs. split; [reflexivity|].
  exact (recorder_negative_bound_is_unbounded
           mock.Rows mock.drainTwo rr r' rs Hrun
           ltac:(cbn; lia) eq_refl).
Defined.

Lemma recorder_holds_values_read_witness :
  let reading : heap -> cache.Item -> list (list (list content))
                -> list (list (list content)) :=
    fun h item committed => committed ++ [readRows h (cache.Rows item)] in
  let rr := rowsRecorder.newRowsRecorder reading
              (Some {| mock.names := ["John"; "Lisa"]; mock.buffer := "" |})
              10 in
  let b := {| Data := 0; Len := 4; Cap := 64 |} in
  exists r' rs,
    recorderReplies mock.Reusing
      [callNext [VNil]; callNext [VBytes b]] rr = Ok (r', rs) /\
    buffered r' = [[VBytes b]; [VBytes b]] /\
    readRows (driver.Heap mock.Reusing
                {| mock.names := []; mock.buffer := "Lisa" |}) (buffered r')
    = [[VBytes (list_ascii_of_string "Lisa")];
       [VBytes (list_ascii_of_string "Lisa")]].
Proof.
  intros reading rr b.
  destruct (recorderReplies mock.Reusing
              [callNext [VNil]; callNext [VBytes b]] rr)
    as [[r' rs]|] eqn:Hrun; [|discriminate Hrun].
  exists r', rs. split; [reflexivity|].
  destruct (recorder_holds_values_read
              mock.Reusing [callNext [VNil]; callNext [VBytes b]] rr r' rs
              Hrun eq_refl ltac:(cbn; lia)) as [Hwords Hbytes].
  vm_compute in Hrun. injection Hrun as _ <-.
  split; [exact Hwords|].
  rewrite Hbytes. reflexivity.
Defined.

(** ** Read-through *)

(** X4: A first execution of a cached-policy query misses, reads a cacheable
    result through the recorder and closes it; the backend accepts the
    [Set] and afterwards answers a [Get] of that key with the item it was
    handed. Then a second execution of the same text and arguments, by
    either entry point, is a hit: it leaves the driver alone, counts one
    hit after the one miss, and its cursor replays the item committed: the
    column names last read and, value for value, the rows the first
    execution was delivered, a [[]byte] among them as the same slice. For
    rows without a [[]byte] that is, in whatever heap, what the first
    caller read. *)
Theorem second_execution_replays_first {B U D R : Type}
  (I : driver.Rows R) (via : caller D R)
  (query : string) (args : list NamedValue)
  (w : Interceptor.world B U) (d : D)
  (attrs : attributes) (key : string) (u1 u2 : U) (b1 b2 b3 : B)
  (item0 : option cache.Item) (cur : R) (calls : list call)
  (Henabled : Interceptor.disabled (Interceptor.self w) = false)
  (Hattrs : getAttrs query = Some attrs)
  (Hhash1 :
     Interceptor.hashFunc (Interceptor.self w) query args (Interceptor.user w)
     = (u1, (key, None)))
  (Hmiss :
     cache.Get (Interceptor.c (Interceptor.self w)) (Interceptor.backend w) key
     = (b1, (item0, false, None)))
  (Hlive : snd (live via query args d) = (Some cur, None))
  (Hclean :
     cacheable (snd (liveReplies I calls cur)) (maxRows attrs) = true)
  (Hclose : snd (driver.Close I (fst (liveReplies I calls cur))) = None)
  (Hset :
     cache.Set_ (Interceptor.c (Interceptor.self w)) b1
       (driver.Heap I (fst (driver.Close I (fst (liveReplies I calls cur)))))
       key
       {| cache.Cols := lastColumns (snd (liveReplies I calls cur)) [];
          cache.Rows := rowsRead (snd (liveReplies I calls cur)) |}
       (time.seconds (ttl attrs)) = (b2, None))
  (Hhash2 :
     Interceptor.hashFunc (Interceptor.self w) query args u1
     = (u2, (key, None)))
  (Hget :
     cache.Get (Interceptor.c (Interceptor.self w)) b2 key
     = (b3,
        (Some {| cache.Cols := lastColumns (snd (liveReplies I calls cur)) [];
                 cache.Rows := rowsRead (snd (liveReplies I calls cur)) |},
         true, None))) :
  let rs := snd (liveReplies I calls cur) in
  let captured := {| cache.Cols := lastColumns rs [];
                     cache.Rows := rowsRead rs |} in
  let replay := {| rowsCached.Item := Some captured; rowsCached.ptr := 0 |} in
  let first := intercept via query args w d in
  exists rr r1 r2 w2,
    snd first = (Interceptor.recorderRows rr, None) /\
    recorderReplies I calls rr = Ok (r1, rs) /\
    rowsRecorder.Close I r1 (fst (fst first)) = Ok (r2, w2, None) /\
    (forall (via' : caller D R) (d' : D),
       exists w3,
         intercept via' query args w2 d'
         = (w3, d', (Interceptor.cachedRows replay, None)) /\
         Interceptor.Stats w3
         = {| Hits :=
                wrapU64 (Hits (Interceptor.stats (Interceptor.self w)) + 1);
              Misses :=
                wrapU64 (Misses (Interceptor.stats (Interceptor.self w)) + 1);
              Errors := Errors (Interceptor.stats (Interceptor.self w)) |}) /\
    rowsCached.Columns replay = Ok (lastColumns rs []) /\
    (forall dest,
       Forall (fun row => List.length row = List.length dest) (rowsRead rs) ->
       scanCached (S (List.length (rowsRead rs))) replay dest
       = Ok (rowsRead rs,
             {| rowsCached.Item := Some captured;
                rowsCached.ptr := List.length (rowsRead rs) |},
             Some io_EOF)) /\
    (noBytes (rowsRead rs) = true ->
     forall h : heap, readRows h (rowsRead rs) = rowsSeen I calls cur).
Proof.
  intros rs captured replay first.
  destruct (getAttrs_in_range query attrs Hattrs) as [_ [Hbound _]].
  pose proof (intercept_miss via query args w d attrs Henabled Hattrs
                u1 key Hhash1 b1 item0 Hmiss) as E1.
  fold first in E1. unfold missResult in E1. rewrite Hlive in E1.
  cbn [fst snd] in E1.
  destruct (recorder_session I (Interceptor.cacheSetter key attrs)
              (maxRows attrs) cur calls (fst (fst first)) Hbound)
    as (r1 & r2 & Hrun & Hc & _).
  fold rs captured in Hrun, Hc, Hclean, Hset, Hget.
  rewrite Hclose, Hclean in Hc. cbn [notNil negb andb] in Hc.
  rewrite cacheSetter_spec in Hc. rewrite E1 in Hc.
  cbn [fst snd Interceptor.self Interceptor.backend Interceptor.addMisses
       Interceptor.withStats Interceptor.withBackend Interceptor.withUser
       Interceptor.c] in Hc.
  rewrite Hset in Hc. cbn [fst snd] in Hc.
  eexists _, r1, r2, _.
  split; [rewrite E1; reflexivity|]. split; [exact Hrun|].
  split; [rewrite E1; exact Hc|]. split; [|split; [|split]].
  - intros via' d'. eexists. split.
    + eapply (intercept_hit via' query args _ d' attrs); cbn;
        try eassumption.
    + reflexivity.
  - reflexivity.
  - intros dest Hwidth.
    pose proof (scanCached_rows captured (List.length dest) Hwidth
                  (List.length (rowsRead rs)) 0%nat dest eq_refl
                  (le_n _)) as Hk.
    replace (S (List.length (rowsRead rs)))
      with (List.length (rowsRead rs) + 1)%nat by lia.
    rewrite (scanCached_app _ 1 replay dest _ _ Hk).
    + change (List.length (rowsRead rs))
        with (List.length (cache.Rows captured)) at 1.
      cbn [Nat.add]. rewrite scanCached_eof.
      cbn [cache.Rows captured]. now rewrite firstn_all, app_nil_r.
    + cbn. apply firstn_length_le, le_n.
  - intros Hplain h. apply rowsSeen_noBytes. exact Hplain.
Qed.

Lemma second_execution_replays_first_witness :
  let w := {| Interceptor.self :=
                {| Interceptor.c := memory.Cacher;
                   Interceptor.hashFunc := mock.hashFunc None;
                   Interceptor.onErr := Some mock.OnError;
                   Interceptor.stats :=
                     {| Hits := 0; Misses := 0; Errors := 0 |};
                   Interceptor.disabled := false |};
              Interceptor.backend := [];
              Interceptor.user := {| mock.hashed := 0; mock.reported := [] |}
           |} in
  let d := {| mock.answer := (Some (mock.twoRows None), None);
              mock.ran := [] |} in
  let replay := {| rowsCached.Item := Some mock.johnLisa;
                   rowsCached.ptr := 0 |} in
  exists w2 w3 : Interceptor.world memory.store mock.user,
    intercept (prepared (mock.Stmt mock.query)) mock.query mock.args w2 d
    = (w3, d, (Interceptor.cachedRows replay, None)) /\
    Interceptor.Stats w3 = {| Hits := 1; Misses := 1; Errors := 0 |}.
Proof.
  intros w d replay.
  destruct (second_execution_replays_first
              mock.Rows (direct mock.Queryer) mock.query mock.args w d
              {| ttl := 30; maxRows := 10 |} "q75"
              {| mock.hashed := 1; mock.reported := [] |}
              {| mock.hashed := 2; mock.reported := [] |}
              [] [("q75", mock.johnLisa)] [("q75", mock.johnLisa)]
              None (mock.twoRows None) mock.drainTwo
              eq_refl eq_refl eq_refl eq_refl eq_refl eq_refl eq_refl
              eq_refl eq_refl eq_refl)
    as (rr & r1 & r2 & w2 & Hfirst & Hrun & Hclose & Hsecond & _).
  destruct (Hsecond (prepared (mock.Stmt mock.query)) d)
    as (w3 & Hhit & Hstats).
  exists w2, w3. split; [exact Hhit | exact Hstats].
Defined.

(** ** The redis backend *)

(** X14: Behind the interceptor, the redis backend turns the answer of the one
    [GET] it sends, under the prefixed key, into the outcome of the query:
    a missing key ([redis.Nil]) is a miss; a failure of redis, and also an
    entry that does not decode, is an error that is counted and reported
    before the live query runs as after a miss; an entry that decodes is a
    hit on the decoded item. So the cursor of a hit holds an item, and its
    [Columns] and [Next] do not panic. *)
Theorem redis_get_decides_outcome {C U D R : Type}
  (msgpack : Redis.codec) (r : Redis.t C) (via : caller D R)
  (query : string) (args : list NamedValue)
  (w : Interceptor.world C U) (d : D)
  (attrs : attributes) (key : string) (u' : U)
  (Hbackend : Interceptor.c (Interceptor.self w) = Redis.Cacher msgpack r)
  (Henabled : Interceptor.disabled (Interceptor.self w) = false)
  (Hattrs : getAttrs query = Some attrs)
  (Hhash :
     Interceptor.hashFunc (Interceptor.self w) query args (Interceptor.user w)
     = (u', (key, None))) :
  let answer :=
    Redis.clientGet (Redis.c r) (Interceptor.backend w)
      (Redis.keyPrefix r +++ key) in
  let w0 :=
    Interceptor.withBackend (Interceptor.withUser w u') (fst answer) in
  let result := intercept via query args w d in
  let missed :=
    (fst (live via query args d),
     missResult key attrs (snd (live via query args d))) in
  match snd answer with
  | Redis.replyNil =>
      result = (Interceptor.addMisses w0, fst missed, snd missed)
  | Redis.replyErr e =>
      result = (afterError "Cache.Get failed" e w0, fst missed, snd missed)
  | Redis.replyBytes b =>
      match Redis.Unmarshal msgpack b with
      | (_, Some e) =>
          result
          = (afterError "Cache.Get failed" e w0, fst missed, snd missed)
      | (item, None) =>
          result
          = (Interceptor.addHits w0, d,
             (Interceptor.cachedRows
                {| rowsCached.Item := Some item; rowsCached.ptr := 0 |},
              None))
      end
  end /\
  (forall rc,
     fst (snd result) = Interceptor.cachedRows rc ->
     rowsCached.Columns rc <> Panic /\
     forall dest, rowsCached.Next rc dest <> Panic).
Proof.
  intros answer w0 result missed.
  assert (Hget :
    cache.Get (Interceptor.c (Interceptor.self w)) (Interceptor.backend w) key
    = Redis.Get msgpack r (Interceptor.backend w) key).
  { rewrite Hbackend. reflexivity. }
  unfold Redis.Get in Hget. fold answer in Hget.
  assert (Hsafe : forall item : cache.Item,
    rowsCached.Columns
      {| rowsCached.Item := Some item; rowsCached.ptr := 0 |} <> Panic /\
    forall dest,
      rowsCached.Next
        {| rowsCached.Item := Some item; rowsCached.ptr := 0 |} dest
      <> Panic).
  { intros item. split; [discriminate|]. intros dest.
    unfold rowsCached.Next. cbn. destruct (_ <=? _)%nat; discriminate. }
  assert (Hmissed : forall rc : rowsCached.t,
    fst (snd missed) <> Interceptor.cachedRows (B := C) (U := U) (R := R) rc).
  { intros rc. subst missed. unfold missResult. cbn [snd].
    destruct (snd (live via query args d)) as [rows [e|]]; discriminate. }
  subst result w0.
  destruct answer as [st' [b| |e]]; cbn [fst snd] in *.
  - destruct (Redis.Unmarshal msgpack b) as [item [e|]].
    + rewrite (intercept_get_error via query args w d attrs Henabled Hattrs
                 u' key Hhash st' None true e Hget).
      split; [reflexivity|]. intros rc E. now apply Hmissed in E.
    + rewrite (intercept_hit via query args w d attrs Henabled Hattrs
                 u' key Hhash st' (Some item) Hget).
      split; [reflexivity|]. intros rc [= <-]. apply Hsafe.
  - rewrite (intercept_miss via query args w d attrs Henabled Hattrs
               u' key Hhash st' None Hget).
    split; [reflexivity|]. intros rc E. now apply Hmissed in E.
  - rewrite (intercept_get_error via query args w d attrs Henabled Hattrs
               u' key Hhash st' None false e Hget).
    split; [reflexivity|]. intros rc E. now apply Hmissed in E.
Qed.

(** X15: With the redis backend, closing a cacheable result that encodes
    sends redis one [SET]: under the prefixed key, with the TTL of the
    policy, and with what msgpack makes of the captured item in the heap
    the cursor's [Close] leaves. A failure of that command is counted and
    reported; the caller's [Close] returns nil either way. *)
Theorem redis_commit_sends_one_set {C U R : Type}
  (I : driver.Rows R) (msgpack : Redis.codec) (r : Redis.t C)
  (key : string) (attrs : attributes) (cur : R) (calls : list call)
  (w : Interceptor.world C U) (payload : string)
  (Hbackend : Interceptor.c (Interceptor.self w) = Redis.Cacher msgpack r)
  (Hbound : 0 <= maxRows attrs)
  (Hclean : cacheable (snd (liveReplies I calls cur)) (maxRows attrs) = true)
  (Hclose : snd (driver.Close I (fst (liveReplies I calls cur))) = None)
  (Hencode :
     Redis.Marshal msgpack
       (driver.Heap I (fst (driver.Close I (fst (liveReplies I calls cur)))))
       {| cache.Cols := lastColumns (snd (liveReplies I calls cur)) [];
          cache.Rows := rowsRead (snd (liveReplies I calls cur)) |}
     = (payload, None)) :
  let rr := rowsRecorder.newRowsRecorder (Interceptor.cacheSetter key attrs)
              (Some cur) (maxRows attrs) in
  let sending :=
    Redis.clientSet (Redis.c r) (Interceptor.backend w)
      (Redis.keyPrefix r +++ key) payload (time.seconds (ttl attrs)) in
  exists r1 r2,
    recorderReplies I calls rr = Ok (r1, snd (liveReplies I calls cur)) /\
    rowsRecorder.Close I r1 w
    = Ok (r2,
          match snd sending with
          | Some e =>
              afterError "Cache.Set failed" e
                (Interceptor.withBackend w (fst sending))
          | None => Interceptor.withBackend w (fst sending)
          end,
          None).
Proof.
  intros rr sending.
  destruct (recorder_session I (Interceptor.cacheSetter key attrs)
              (maxRows attrs) cur calls w Hbound)
    as (r1 & r2 & Hrun & Hc & _).
  exists r1, r2. split; [exact Hrun|].
  rewrite Hc, Hclose, Hclean. cbn [notNil negb andb].
  rewrite cacheSetter_spec. rewrite Hbackend.
  cbn [cache.Set_ Redis.Cacher]. unfold Redis.Set_. rewrite Hencode.
  reflexivity.
Qed.

(** X16: With the redis backend, an item that does not encode makes the commit
    an error of the caching side: it is counted and reported, and redis is
    not called. *)
Theorem redis_commit_encoding_failure {C U : Type}
  (msgpack : Redis.codec) (r : Redis.t C)
  (key : string) (attrs : attributes) (item : cache.Item)
  (w : Interceptor.world C U) (h : heap) (b : string) (e : error)
  (Hbackend : Interceptor.c (Interceptor.self w) = Redis.Cacher msgpack r)
  (Hencode : Redis.Marshal msgpack h item = (b, Some e)) :
  Interceptor.cacheSetter key attrs h item w
  = afterError "Cache.Set failed" e w /\
  countedAndReported "Cache.Set failed" e w
    (Interceptor.cacheSetter key attrs h item w).
Proof.
  assert (E : Interceptor.cacheSetter key attrs h item w
              = afterError "Cache.Set failed" e w).
  { rewrite cacheSetter_spec. rewrite Hbackend. cbn [cache.Set_ Redis.Cacher].
    unfold Redis.Set_. rewrite Hencode. cbn [fst snd].
    destruct w as [i b0 u]. reflexivity. }
  split; [exact E|]. rewrite E. apply afterError_counted.
Qed.

(** ** The ristretto backend *)

(** X17: [Set] of the ristretto backend never reports an error: behind the
    interceptor a commit hands the item to ristretto, at the cost of its
    number of rows, and leaves the counters and the callbacks alone,
    whether ristretto took the item or dropped it. *)
Theorem ristretto_commit_is_silent {C U : Type}
  (r : Ristretto.t C)
  (key : string) (attrs : attributes) (h : heap) (item : cache.Item)
  (w : Interceptor.world C U)
  (Hbackend : Interceptor.c (Interceptor.self w) = Ristretto.Cacher r) :
  let taking :=
    Ristretto.SetWithTTL (Ristretto.c r) (Interceptor.backend w) key
      (Ristretto.itemPointer (Some item))
      (wrap64 (Z.of_nat (List.length (cache.Rows item))))
      (time.seconds (ttl attrs)) in
  Interceptor.cacheSetter key attrs h item w
  = Interceptor.withBackend w (fst taking) /\
  Interceptor.Stats (Interceptor.cacheSetter key attrs h item w)
  = Interceptor.Stats w /\
  Interceptor.user (Interceptor.cacheSetter key attrs h item w)
  = Interceptor.user w /\
  (Z.of_nat (List.length (cache.Rows item)) <= maxInt ->
   wrap64 (Z.of_nat (List.length (cache.Rows item)))
   = Z.of_nat (List.length (cache.Rows item))).
Proof.
  intros taking.
  assert (E : Interceptor.cacheSetter key attrs h item w
              = Interceptor.withBackend w (fst taking)).
  { rewrite cacheSetter_spec. rewrite Hbackend.
    cbn [cache.Set_ Ristretto.Cacher]. unfold Ristretto.Set_. fold taking.
    destruct taking as [st' taken]. reflexivity. }
  rewrite E. repeat split.
  intros Hfit. unfold wrap64, maxInt in *.
  rewrite Z.mod_small by lia. lia.
Qed.

(** X18: Behind the interceptor, the ristretto backend makes a key that
    ristretto does not hold a miss, a value of another type an error that
    is counted and reported, and a held [*cache.Item] a hit on that
    pointer: if the pointer is nil, the cursor of the hit panics. *)
Theorem ristretto_get_decides_outcome {C U D R : Type}
  (r : Ristretto.t C) (via : caller D R)
  (query : string) (args : list NamedValue)
  (w : Interceptor.world C U) (d : D)
  (attrs : attributes) (key : string) (u' : U)
  (Hbackend : Interceptor.c (Interceptor.self w) = Ristretto.Cacher r)
  (Henabled : Interceptor.disabled (Interceptor.self w) = false)
  (Hattrs : getAttrs query = Some attrs)
  (Hhash :
     Interceptor.hashFunc (Interceptor.self w) query args (Interceptor.user w)
     = (u', (key, None))) :
  let answer :=
    Ristretto.cacheGet (Ristretto.c r) (Interceptor.backend w) key in
  let w0 :=
    Interceptor.withBackend (Interceptor.withUser w u') (fst answer) in
  let result := intercept via query args w d in
  let missed :=
    (fst (live via query args d),
     missResult key attrs (snd (live via query args d))) in
  match snd answer with
  | (_, false) =>
      result = (Interceptor.addMisses w0, fst missed, snd missed)
  | (Ristretto.otherValue, true) =>
      result
      = (afterError "Cache.Get failed" Ristretto.assertionFailed w0,
         fst missed, snd missed)
  | (Ristretto.itemPointer item, true) =>
      result
      = (Interceptor.addHits w0, d,
         (Interceptor.cachedRows
            {| rowsCached.Item := item; rowsCached.ptr := 0 |}, None)) /\
      (item = None ->
       rowsCached.Columns
         {| rowsCached.Item := item; rowsCached.ptr := 0 |} = Panic)
  end.
Proof.
  intros answer w0 result missed.
  assert (Hget :
    cache.Get (Interceptor.c (Interceptor.self w)) (Interceptor.backend w) key
    = Ristretto.Get r (Interceptor.backend w) key).
  { rewrite Hbackend. reflexivity. }
  unfold Ristretto.Get in Hget. fold answer in Hget.
  subst result w0 missed.
  destruct answer as [st' [[item|] [|]]]; cbn [fst snd negb] in *.
  - rewrite (intercept_hit via query args w d attrs Henabled Hattrs
               u' key Hhash st' item Hget).
    split; [reflexivity|]. intros ->. reflexivity.
  - rewrite (intercept_miss via query args w d attrs Henabled Hattrs
               u' key Hhash st' None Hget). reflexivity.
  - rewrite (intercept_get_error via query args w d attrs Henabled Hattrs
               u' key Hhash st' None false _ Hget). reflexivity.
  - rewrite (intercept_miss via query args w d attrs Henabled Hattrs
               u' key Hhash st' None Hget). reflexivity.
Qed.

(** ** Witnesses of the backends *)

Lemma redis_get_decides_outcome_witness :
  let r := Redis.NewRedis double.redis "sqc:" in
  let w := double.world (Redis.Cacher double.codec r) [("sqc:q75", "")] in
  let d := {| mock.answer := (Some (mock.twoRows None), None);
              mock.ran := [] |} in
  exists w1,
    intercept (direct mock.Queryer) mock.query mock.args w d
    = (w1,
       {| mock.answer := (Some (mock.twoRows None), None);
          mock.ran := [(mock.query, mock.args)] |},
       missResult "q75" {| ttl := 30; maxRows := 10 |}
         (Some (mock.twoRows None), None)) /\
    Interceptor.Stats w1 = {| Hits := 0; Misses := 0; Errors := 1 |}.
Proof.
  intros r w d.
  pose proof (redis_get_decides_outcome
                double.codec r (direct mock.Queryer) mock.query mock.args w d
                {| ttl := 30; maxRows := 10 |} "q75"
                {| mock.hashed := 1; mock.reported := [] |}
                eq_refl eq_refl eq_refl eq_refl) as [H _].
  remember (intercept (direct mock.Queryer) mock.query mock.args w d)
    as result eqn:Hresult.
  cbn in H. eexists. split; [exact H | reflexivity].
Defined.

Lemma redis_commit_sends_one_set_witness :
  let r := Redis.NewRedis double.redis "sqc:" in
  let w := double.world (Redis.Cacher double.codec r) [] in
  let cur := {| mock.columns := ["name"]; mock.script := [];
                mock.closeReply := None; mock.closed := false |} in
  let rr := rowsRecorder.newRowsRecorder
              (Interceptor.cacheSetter "q75" {| ttl := 30; maxRows := 10 |})
              (Some cur) 10 in
  exists r1 r2 w1,
    recorderReplies mock.Rows [callColumns; callNext [VNil]] rr
    = Ok (r1, [replyColumns ["name"]; replyNext [VNil] (Some io_EOF)]) /\
    rowsRecorder.Close mock.Rows r1 w = Ok (r2, w1, None) /\
    Interceptor.backend w1 = [("sqc:q75", "name")].
Proof.
  intros r w cur rr.
  destruct (redis_commit_sends_one_set
              mock.Rows double.codec r "q75" {| ttl := 30; maxRows := 10 |}
              cur [callColumns; callNext [VNil]] w "name"
              eq_refl ltac:(cbn; lia) eq_refl eq_refl eq_refl)
    as (r1 & r2 & Hrun & Hc).
  exists r1, r2. eexists. split; [exact Hrun|]. split; [exact Hc|].
  reflexivity.
Defined.

Lemma redis_commit_encoding_failure_witness :
  let r := Redis.NewRedis double.redis "sqc:" in
  let w := double.world (Redis.Cacher double.codec r) [] in
  let w1 := Interceptor.cacheSetter "q75" {| ttl := 30; maxRows := 10 |}
              (fun _ => zero) mock.johnLisa w in
  Interceptor.backend w1 = [] /\
  Interceptor.Stats w1 = {| Hits := 0; Misses := 0; Errors := 1 |}.
Proof.
  intros r w w1.
  destruct (redis_commit_encoding_failure
              double.codec r "q75" {| ttl := 30; maxRows := 10 |}
              mock.johnLisa w (fun _ => zero) EmptyString
              (errorString "msgpack: cannot encode") eq_refl eq_refl)
    as [E _].
  subst w1. rewrite E. split; reflexivity.
Defined.

Lemma ristretto_commit_is_silent_witness :
  let r := Ristretto.NewRistretto double.ristretto in
  let w := double.world (Ristretto.Cacher r) [] in
  let w1 := Interceptor.cacheSetter "q75" {| ttl := 30; maxRows := 10 |}
              (fun _ => zero) mock.johnLisa w in
  Interceptor.backend w1
  = [("q75", Ristretto.itemPointer (Some mock.johnLisa))] /\
  Interceptor.Stats w1 = {| Hits := 0; Misses := 0; Errors := 0 |}.
Proof.
  intros r w w1.
  destruct (ristretto_commit_is_silent
              r "q75" {| ttl := 30; maxRows := 10 |} (fun _ => zero)
              mock.johnLisa w eq_refl)
    as (E & Hstats & _).
  subst w1. split; [rewrite E; reflexivity | exact Hstats].
Defined.

Lemma ristretto_get_decides_outcome_witness :
  let r := Ristretto.NewRistretto double.ristretto in
  let w := double.world (Ristretto.Cacher r)
             [("q75", Ristretto.itemPointer None)] in
  let d := {| mock.answer := (Some (mock.twoRows None), None);
              mock.ran := [] |} in
  let rc := {| rowsCached.Item := None; rowsCached.ptr := 0 |} in
  snd (intercept (direct mock.Queryer) mock.query mock.args w d)
  = (Interceptor.cachedRows rc, None) /\
  rowsCached.Columns rc = Panic.
Proof.
  intros r w d rc.
  pose proof (ristretto_get_decides_outcome
                r (direct mock.Queryer) mock.query mock.args w d
                {| ttl := 30; maxRows := 10 |} "q75"
                {| mock.hashed := 1; mock.reported := [] |}
                eq_refl eq_refl eq_refl eq_refl) as H.
  cbv zeta in H.
  remember (intercept (direct mock.Queryer) mock.query mock.args w d)
    as result eqn:Hresult.
  cbn in H. destruct H as [E Hnil].
  split; [rewrite E; reflexivity | exact (Hnil eq_refl)].
Defined.

(** ** The attribute parser on texts of a known shape *)

Lemma matchHere_starts_with_at (ch : ascii) (t : string) (m : list string) :
  regexp.matchHere (String ch t) = Some m -> ch = "@"%char.
Proof.
  unfold regexp.matchHere, regexp.matchKeyword. cbn [regexp.cutPrefix String.append].
  destruct (Ascii.eqb_spec "@" ch) as [<-|Hne]; [reflexivity | discriminate].
Qed.

Lemma findAll_zero (k : nat) (s : string) : regexp.findAll 0 k s = [].
Proof. now destruct s. Qed.

(** The scan steps over text without ['@']. *)
Lemma findAll_noAt (pre rest : string) :
  noAt pre = true ->
  forall n, regexp.findAll n 0 (pre +++ rest) = regexp.findAll n 0 rest.
Proof.
  induction pre as [|ch t IH]; intros Hq [|n]; cbn [String.append];
    try reflexivity.
  - now destruct rest.
  - cbn [noAt] in Hq. apply andb_true_iff in Hq as [Hch Ht].
    cbn [regexp.findAll].
    destruct (regexp.matchHere (String ch (t +++ rest))) as [m|] eqn:E.
    + apply matchHere_starts_with_at in E. subst ch. discriminate Hch.
    + apply IH. exact Ht.
Qed.

(** The scan steps over the rest of a match. *)
Lemma findAll_skip (a rest : string) :
  forall n, regexp.findAll n (String.length a) (a +++ rest)
            = regexp.findAll n 0 rest.
Proof.
  induction a as [|ch t IH]; intros [|n]; cbn [String.append String.length];
    try reflexivity.
  - now destruct rest.
  - cbn [regexp.findAll]. apply IH.
Qed.

Lemma spanDigits_app (ds rest : string) :
  allDigits ds = true -> noDigitAhead rest = true ->
  regexp.spanDigits (ds +++ rest) = ds.
Proof.
  induction ds as [|ch t IH]; cbn; intros Hd Hr.
  - destruct rest as [|c r]; [reflexivity|]. cbn in *.
    now destruct (strconv.isDigit c).
  - apply andb_true_iff in Hd as [-> Ht]. now rewrite IH.
Qed.

Lemma matchKeyword_at (kw ds rest : string) :
  allDigits ds = true -> ds <> EmptyString -> noDigitAhead rest = true ->
  regexp.matchKeyword kw (kw +++ " " +++ ds +++ rest)
  = Some [kw +++ " " +++ ds; kw; ds].
Proof.
  intros Hd Hne Hr. unfold regexp.matchKeyword.
  rewrite <- (append_assoc kw " " (ds +++ rest)), cutPrefix_app.
  rewrite (spanDigits_app ds rest Hd Hr).
  destruct ds; [congruence | reflexivity].
Qed.

Lemma length_append (a b : string) :
  String.length (a +++ b) = (String.length a + String.length b)%nat.
Proof. induction a as [|x a IH]; cbn; [reflexivity | now rewrite IH]. Qed.

(** At a directive the scan takes the directive and goes on behind it. *)
Lemma findAll_at_directive (kw ds rest : string) (n : nat) :
  kw = "@cache-ttl" \/ kw = "@cache-max-rows" ->
  allDigits ds = true -> ds <> EmptyString -> noDigitAhead rest = true ->
  regexp.findAll (S n) 0 (kw +++ " " +++ ds +++ rest)
  = [kw +++ " " +++ ds; kw; ds] :: regexp.findAll n 0 rest.
Proof.
  intros Hkw Hd Hne Hr.
  assert (Hhere : regexp.matchHere (kw +++ " " +++ ds +++ rest)
                  = Some [kw +++ " " +++ ds; kw; ds]).
  { unfold regexp.matchHere.
    destruct Hkw as [-> | ->].
    - now rewrite matchKeyword_at.
    - rewrite (matchKeyword_at "@cache-max-rows") by assumption.
      reflexivity. }
  assert (Hshape : exists ch t,
            kw +++ " " = String ch t).
  { destruct Hkw as [-> | ->]; eexists _, _; reflexivity. }
  destruct Hshape as (ch & t & Hshape).
  assert (Hwhole : kw +++ " " +++ ds +++ rest
                   = String ch ((t +++ ds) +++ rest)).
  { rewrite <- (append_assoc kw " "), Hshape. cbn.
    now rewrite append_assoc. }
  rewrite Hwhole in *. cbn [regexp.findAll]. rewrite Hhere. f_equal.
  replace (regexp.matchLen [kw +++ " " +++ ds; kw; ds] - 1)%nat
    with (String.length (t +++ ds)).
  - apply findAll_skip.
  - unfold regexp.matchLen. cbn [hd].
    rewrite <- (append_assoc kw " " ds), Hshape. cbn. lia.
Qed.

(** X8: A text with the two directives, in either order, is a caching
    candidate with the values of the two: provided the text before and
    between them holds no ['@'] and each number ends where its digits end.
    What follows the second directive, further directives included, does
    not matter. *)
Theorem getAttrs_two_directives_either_order
  (pre mid post n m : string)
  (Hpre : noAt pre = true) (Hmid : noAt mid = true)
  (Hmid' : noDigitAhead mid = true) (Hpost : noDigitAhead post = true)
  (Hn : allDigits n = true) (Hn' : n <> EmptyString)
  (Hm : allDigits m = true) (Hm' : m <> EmptyString) :
  let policy := {| ttl := fst (strconv.Atoi n);
                   maxRows := fst (strconv.Atoi m) |} in
  getAttrs (pre +++ "@cache-ttl" +++ " " +++ n +++ mid
            +++ "@cache-max-rows" +++ " " +++ m +++ post) = Some policy /\
  getAttrs (pre +++ "@cache-max-rows" +++ " " +++ m +++ mid
            +++ "@cache-ttl" +++ " " +++ n +++ post) = Some policy.
Proof.
  intros policy.
  assert (Hahead : forall kw rest,
            kw = "@cache-ttl" \/ kw = "@cache-max-rows" ->
            noDigitAhead (mid +++ kw +++ rest) = true).
  { intros kw rest Hkw. destruct mid as [|ch t]; [|exact Hmid'].
    destruct Hkw as [-> | ->]; reflexivity. }
  split; unfold getAttrs, regexp.FindAllStringSubmatch.
  - rewrite findAll_noAt by assumption.
    rewrite findAll_at_directive by auto.
    rewrite findAll_noAt by assumption.
    rewrite findAll_at_directive by auto.
    rewrite findAll_zero. reflexivity.
  - rewrite findAll_noAt by assumption.
    rewrite findAll_at_directive by auto.
    rewrite findAll_noAt by assumption.
    rewrite findAll_at_directive by auto.
    rewrite findAll_zero. reflexivity.
Qed.

Lemma getAttrs_two_directives_either_order_witness :
  getAttrs ("-- " +++ "@cache-ttl" +++ " " +++ "30" +++ (nl +++ "-- ")
            +++ "@cache-max-rows" +++ " " +++ "10"
            +++ (nl +++ "SELECT 1 -- @cache-ttl 99"))
  = Some {| ttl := 30; maxRows := 10 |} /\
  getAttrs ("-- " +++ "@cache-max-rows" +++ " " +++ "10" +++ (nl +++ "-- ")
            +++ "@cache-ttl" +++ " " +++ "30"
            +++ (nl +++ "SELECT 1 -- @cache-ttl 99"))
  = Some {| ttl := 30; maxRows := 10 |}.
Proof.
  refine (getAttrs_two_directives_either_order
            "-- " (nl +++ "-- ") (nl +++ "SELECT 1 -- @cache-ttl 99")
            "30" "10" eq_refl eq_refl eq_refl eq_refl eq_refl _ eq_refl _);
    discriminate.
Defined.

(** X9: A text with one directive only, or with none, is no caching
    candidate. *)
Theorem getAttrs_fewer_than_two_directives
  (pre post kw n : string)
  (Hpre : noAt pre = true) (Hpost : noAt post = true)
  (Hpost' : noDigitAhead post = true)
  (Hkw : kw = "@cache-ttl" \/ kw = "@cache-max-rows")
  (Hn : allDigits n = true) (Hn' : n <> EmptyString) :
  getAttrs (pre +++ kw +++ " " +++ n +++ post) = None /\
  getAttrs pre = None.
Proof.
  assert (Hnone : forall s k, noAt s = true -> regexp.findAll k 0 s = []).
  { intros s k Hs. rewrite <- (append_empty_r s).
    rewrite findAll_noAt by assumption. now destruct k. }
  split; unfold getAttrs, regexp.FindAllStringSubmatch.
  - rewrite findAll_noAt by assumption.
    rewrite findAll_at_directive by auto.
    rewrite Hnone by assumption. reflexivity.
  - rewrite Hnone by assumption. reflexivity.
Qed.

Lemma getAttrs_fewer_than_two_directives_witness :
  getAttrs ("-- " +++ "@cache-ttl" +++ " " +++ "30"
            +++ (nl +++ "SELECT name FROM users WHERE age > ?")) = None /\
  getAttrs "-- " = None.
Proof.
  refine (getAttrs_fewer_than_two_directives
            "-- " (nl +++ "SELECT name FROM users WHERE age > ?")
            "@cache-ttl" "30" eq_refl eq_refl eq_refl (or_introl eq_refl)
            eq_refl _).
  discriminate.
Defined.

(** ** Keys of the default key function *)

Lemma string_of_uint_allDigits (u : Decimal.uint) :
  allDigits (NilEmpty.string_of_uint u) = true.
Proof. induction u; cbn; auto. Qed.

Lemma FormatUint_inj (u v : Z) :
  0 <= u -> 0 <= v ->
  strconv.FormatUint u = strconv.FormatUint v -> u = v.
Proof.
  unfold strconv.FormatUint. intros Hu Hv E.
  apply Z2N.inj; try assumption.
  apply Unsigned.to_uint_inj.
  apply (f_equal NilEmpty.uint_of_string) in E.
  rewrite !NilEmpty.usu in E. congruence.
Qed.

(** Two runs of digits, each followed by the same separator that is no
    digit, are equal when the texts are. *)
Lemma digits_split (sep : ascii) (d1 : string) :
  strconv.isDigit sep = false ->
  forall d2 r1 r2,
    allDigits d1 = true -> allDigits d2 = true ->
    d1 +++ String sep r1 = d2 +++ String sep r2 ->
    d1 = d2 /\ r1 = r2.
Proof.
  intros Hsep. induction d1 as [|c1 t1 IH]; intros [|c2 t2] r1 r2 H1 H2 E;
    cbn in *.
  - injection E as <-. auto.
  - injection E as <- _. apply andb_true_iff in H2 as [H2 _]. congruence.
  - injection E as -> _. apply andb_true_iff in H1 as [H1 _]. congruence.
  - injection E as <- E.
    apply andb_true_iff in H1 as [_ H1]. apply andb_true_iff in H2 as [_ H2].
    destruct (IH t2 r1 r2 H1 H2 E) as [-> ->]. auto.
Qed.

(** X12: The key of the default key function holds the length of the text, the
    number of parameters and the digest, and nothing else of the query: two
    successful calls return the same key exactly when these three numbers
    agree. Texts of the same length whose digests collide share a key. *)
Theorem defaultHashFunc_same_key_iff
  (hash : string -> list NamedValue -> Z * option error)
  (q1 q2 : string) (a1 a2 : list NamedValue)
  (H1 : snd (defaultHashFunc hash q1 a1) = None)
  (H2 : snd (defaultHashFunc hash q2 a2) = None)
  (Hd1 : 0 <= fst (hash q1 a1)) (Hd2 : 0 <= fst (hash q2 a2)) :
  fst (defaultHashFunc hash q1 a1) = fst (defaultHashFunc hash q2 a2) <->
  String.length q1 = String.length q2 /\
  List.length a1 = List.length a2 /\
  fst (hash q1 a1) = fst (hash q2 a2).
Proof.
  unfold defaultHashFunc in *.
  destruct (hash q1 a1) as [d1 [e1|]]; [discriminate|].
  destruct (hash q2 a2) as [d2 [e2|]]; [discriminate|].
  cbn [fst snd fmt.Sprintf fmt.verb] in *.
  rewrite !Itoa_of_nat, !append_empty_r.
  split.
  - intros E. injection E as E.
    apply (digits_split "a") in E;
      [|reflexivity | apply string_of_uint_allDigits ..].
    destruct E as [Eq E].
    apply (digits_split "h") in E;
      [|reflexivity | apply string_of_uint_allDigits ..].
    destruct E as [Ea Ed].
    apply FormatUint_inj in Eq; try lia.
    apply FormatUint_inj in Ea; try lia.
    apply FormatUint_inj in Ed; try assumption.
    repeat split; lia.
  - intros (-> & -> & ->). reflexivity.
Qed.

Lemma defaultHashFunc_same_key_iff_witness :
  let hash := fun (q : string) (_ : list NamedValue) =>
                (Z.of_nat (String.length q) mod 7, @None error) in
  fst (defaultHashFunc hash "SELECT 'a b'" mock.args)
  = fst (defaultHashFunc hash "SELECT 'b a'" mock.args).
Proof.
  intros hash.
  apply (defaultHashFunc_same_key_iff hash
           "SELECT 'a b'" "SELECT 'b a'" mock.args mock.args
           eq_refl eq_refl ltac:(cbn; lia) ltac:(cbn; lia)).
  repeat split.
Defined.

(** ** The values of the directives *)












(** ** The plain key function *)

Example NoopHash_test :
  let render := fun _ : list NamedValue => "[{ 1 10}]" in
  NoopHash render
    (nl +++ "-- @cache-ttl 5" +++ nl +++ "-- @cache-max-rows 10" +++ nl
     +++ "SELECT name, pages FROM books WHERE pages > $1" +++ nl)
    [{| Name := EmptyString; Ordinal := 1; NValue := VInt64 10 |}]
  = ("--@cache-ttl5--@cache-max-rows10SELECTname,pagesFROMbooksWHEREpages>$1:[{ 1 10}]",
     None).
Proof. reflexivity. Qed.

Example stripSpace_utf8 :
  (* "a", U+00A0 (no-break space), U+00E9, U+3000 (ideographic space),
     a stray continuation byte *)
  stripSpace 0
    (String "a" (String (utf8.char 194) (String (utf8.char 160)
     (String (utf8.char 195) (String (utf8.char 169)
     (String (utf8.char 227) (String (utf8.char 128) (String (utf8.char 128)
     (String (utf8.char 169) EmptyString)))))))))
  = String "a" (String (utf8.char 195) (String (utf8.char 169)
     (String (utf8.char 239) (String (utf8.char 191)
     (String (utf8.char 189) EmptyString))))).
Proof. reflexivity. Qed.

Lemma char_byte (ch : ascii) : utf8.char (utf8.byte ch) = ch.
Proof.
  unfold utf8.char, utf8.byte. rewrite Nat2Z.id. apply ascii_nat_embedding.
Qed.

(** On a byte below 128 the loop reads one rune, the byte itself. *)
Lemma stripSpace_ascii_byte (ch : ascii) (t : string) :
  (utf8.byte ch <? 128) = true ->
  stripSpace 0 (String ch t)
  = (if unicode.IsSpace (utf8.byte ch) then EmptyString
     else String ch EmptyString) +++ stripSpace 0 t.
Proof.
  intros Hlow. cbn [stripSpace utf8.DecodeRuneInString]. rewrite Hlow.
  cbn [Nat.sub]. destruct (unicode.IsSpace (utf8.byte ch)); [reflexivity|].
  unfold utf8.EncodeRune. rewrite Hlow.
  assert (H0 : (0 <=? utf8.byte ch) = true).
  { apply Z.leb_le. unfold utf8.byte. lia. }
  rewrite H0. cbn [andb]. now rewrite char_byte.
Qed.

Lemma stripSpace_ascii_prefix (a rest : string) :
  isASCII a = true ->
  stripSpace 0 (a +++ rest) = withoutSpace a +++ stripSpace 0 rest.
Proof.
  induction a as [|ch t IH]; intros Ha; [reflexivity|].
  cbn [isASCII] in Ha. apply andb_true_iff in Ha as [Hch Ht].
  cbn [String.append]. rewrite stripSpace_ascii_byte by assumption.
  rewrite (IH Ht). cbn [withoutSpace].
  now destruct (unicode.IsSpace (utf8.byte ch)).
Qed.

(** X13: [NoopHash] never fails, and its key does not tell where the text had
    white space: after a run of bytes below 128 a white-space byte can be
    put in or left out without a change of the key, also inside a string
    literal of the query. For a text of bytes below 128 the key is the
    text without its white-space bytes, a colon and the rendering of the
    parameters. *)
Theorem NoopHash_ignores_white_space
  (render : list NamedValue -> string)
  (before after : string) (space : ascii) (args : list NamedValue)
  (Hbefore : isASCII before = true)
  (Hlow : (utf8.byte space <? 128) = true)
  (Hspace : unicode.IsSpace (utf8.byte space) = true) :
  NoopHash render (before +++ String space after) args
  = NoopHash render (before +++ after) args /\
  snd (NoopHash render (before +++ after) args) = None /\
  (isASCII after = true ->
   fst (NoopHash render (before +++ after) args)
   = withoutSpace (before +++ after) +++ ":" +++ render args).
Proof.
  unfold NoopHash. split; [|split; [reflexivity|]].
  - rewrite !stripSpace_ascii_prefix by assumption.
    rewrite stripSpace_ascii_byte by assumption. now rewrite Hspace.
  - intros Hafter. cbn [fst].
    assert (Hall : isASCII (before +++ after) = true).
    { clear - Hbefore Hafter. induction before as [|ch t IH];
        [exact Hafter|].
      cbn in *. apply andb_true_iff in Hbefore as [-> Ht]. auto. }
    rewrite <- (append_empty_r (before +++ after)) at 1.
    rewrite stripSpace_ascii_prefix by assumption.
    cbn [stripSpace]. now rewrite append_empty_r.
Qed.

Lemma NoopHash_ignores_white_space_witness :
  let render := fun _ : list NamedValue => "[{ 1 18}]" in
  NoopHash render "SELECT id FROM t WHERE name = 'a b'" mock.args
  = NoopHash render "SELECT id FROM t WHERE name = 'ab'" mock.args.
Proof.
  intros render.
  exact (proj1 (NoopHash_ignores_white_space render
                  "SELECT id FROM t WHERE name = 'a" "b'" " " mock.args
                  eq_refl eq_refl eq_refl)).
Defined.

(** ** The cached cursor under any use *)

(** X7: However often [Next] is called, and with whatever buffers, a cached
    cursor over an item never panics, never moves beyond the last row and
    never changes the item: call [k] returns row [p + k] while there is one
    and [io.EOF] with the buffer untouched ever after. *)
Theorem rowsCached_stays_within_rows (it : cache.Item)
  (dests : list (list Value)) :
  forall p : nat,
    (p <= List.length (cache.Rows it))%nat ->
    exists r' outs,
      nextMany dests {| rowsCached.Item := Some it; rowsCached.ptr := p |}
      = Ok (r', outs) /\
      rowsCached.Item r' = Some it /\
      rowsCached.ptr r'
      = Nat.min (p + List.length dests) (List.length (cache.Rows it)) /\
      List.length outs = List.length dests /\
      forall k dest,
        nth_error dests k = Some dest ->
        nth_error outs k
        = Some (if (p + k <? List.length (cache.Rows it))%nat
                then (copy dest (nth (p + k) (cache.Rows it) []), None)
                else (dest, Some io_EOF)).
Proof.
  induction dests as [|dest dests IH]; intros p Hp.
  - eexists _, _. split; [reflexivity|]. cbn [rowsCached.Item rowsCached.ptr List.length].
    repeat split; try lia. intros [|k] dest; discriminate.
  - cbn [nextMany]. unfold rowsCached.Next.
    cbn [rowsCached.Item rowsCached.ptr].
    destruct (Nat.leb_spec (List.length (cache.Rows it)) p) as [Hend|Hrow].
    + destruct (IH p Hp) as (r' & outs & Hrun & Hitem & Hptr & Hlen & Houts).
      rewrite Hrun. eexists _, _. split; [reflexivity|].
      split; [exact Hitem|]. cbn [List.length].
      split; [lia|]. split; [lia|].
      intros [|k] dest' Hk; cbn [nth_error] in *.
      * injection Hk as <-.
        destruct (Nat.ltb_spec (p + 0) (List.length (cache.Rows it)));
          [lia | reflexivity].
      * rewrite (Houts k dest' Hk).
        destruct (Nat.ltb_spec (p + k) (List.length (cache.Rows it))),
          (Nat.ltb_spec (p + S k) (List.length (cache.Rows it)));
          try lia; reflexivity.
    + destruct (IH (S p) Hrow)
        as (r' & outs & Hrun & Hitem & Hptr & Hlen & Houts).
      rewrite Hrun. eexists _, _. split; [reflexivity|].
      split; [exact Hitem|]. cbn [List.length].
      split; [lia|]. split; [lia|].
      intros [|k] dest' Hk; cbn [nth_error] in *.
      * injection Hk as <-. rewrite Nat.add_0_r.
        destruct (Nat.ltb_spec p (List.length (cache.Rows it)));
          [reflexivity | lia].
      * rewrite (Houts k dest' Hk).
        now replace (p + S k)%nat with (S p + k)%nat by lia.
Qed.

Lemma rowsCached_stays_within_rows_witness :
  exists r',
    nextMany [[VNil]; []; [VNil; VNil]; [VBool true]]
      {| rowsCached.Item := Some mock.johnLisa; rowsCached.ptr := 0 |}
    = Ok (r', [([VString "John"], None); ([], None);
               ([VNil; VNil], Some io_EOF); ([VBool true], Some io_EOF)]) /\
    rowsCached.ptr r' = 2%nat.
Proof.
  destruct (rowsCached_stays_within_rows mock.johnLisa
              [[VNil]; []; [VNil; VNil]; [VBool true]] 0%nat
              ltac:(cbn; lia))
    as (r' & outs & Hrun & _ & Hptr & _).
  exists r'. split; [|exact Hptr].
  rewrite Hrun. vm_compute in Hrun. injection Hrun as _ <-. reflexivity.
Defined.

(** ** A new interceptor at work *)

(** X3: An interceptor built without a key function consults the backend,
    for a cached-policy query, under the key of the default key function,
    ["q"], the length of the text, ["a"], the number of parameters, ["h"]
    and the digest, and leaves the user's state to the hook. When the
    digest cannot be computed it does not consult the backend at all: the
    first such query leaves the counters at one error. *)
Theorem new_interceptor_uses_default_key {B U D R : Type}
  (hash : string -> list NamedValue -> Z * option error)
  (cfg : Config B U) (i : Interceptor.t B U) (via : caller D R)
  (query : string) (args : list NamedValue) (attrs : attributes)
  (b : B) (u : U) (d : D)
  (Hnew : snd (NewInterceptor hash (Some cfg)) = (Some i, None))
  (Hdefault : HashFunc cfg = None)
  (Hattrs : getAttrs query = Some attrs) :
  let w := {| Interceptor.self := i; Interceptor.backend := b;
              Interceptor.user := u |} in
  let w' := fst (fst (intercept via query args w d)) in
  match hash query args with
  | (digest, None) =>
      let key :=
        "q" +++ strconv.FormatUint (Z.of_nat (String.length query))
        +++ "a" +++ strconv.FormatUint (Z.of_nat (List.length args))
        +++ "h" +++ strconv.FormatUint digest in
      let got := cache.Get (Interceptor.c i) b key in
      Interceptor.backend w' = fst got /\
      Interceptor.Stats w'
      = match snd got with
        | (_, _, Some _) => {| Hits := 0; Misses := 0; Errors := 1 |}
        | (_, true, None) => {| Hits := 1; Misses := 0; Errors := 0 |}
        | (_, false, None) => {| Hits := 0; Misses := 1; Errors := 0 |}
        end
  | (_, Some e) =>
      Interceptor.backend w' = b /\
      Interceptor.Stats w' = {| Hits := 0; Misses := 0; Errors := 1 |} /\
      Interceptor.user w'
      = match OnError cfg with
        | Some hook => hook (wrapError "HashFunc failed" e) u
        | None => u
        end
  end.
Proof.
  intros w w'. subst w'.
  unfold NewInterceptor in Hnew. rewrite Hdefault in Hnew.
  destruct (Cache cfg) as [backend|]; [|discriminate].
  cbn [snd] in Hnew. injection Hnew as <-.
  assert (Hon : Interceptor.disabled (Interceptor.self w) = false)
    by reflexivity.
  assert (Hhash :
    Interceptor.hashFunc (Interceptor.self w) query args (Interceptor.user w)
    = (u, defaultHashFunc hash query args)) by reflexivity.
  unfold defaultHashFunc in Hhash.
  destruct (hash query args) as [digest [e|]].
  - rewrite (intercept_hash_error via query args w d attrs Hon Hattrs
               u EmptyString e Hhash).
    cbn. destruct (OnError cfg); repeat split.
  - cbn [fmt.Sprintf fmt.verb] in Hhash.
    rewrite !Itoa_of_nat, append_empty_r in Hhash.
    cbv zeta. cbn [Interceptor.c].
    destruct (cache.Get backend b
                ("q" +++ strconv.FormatUint (Z.of_nat (String.length query))
                 +++ "a" +++ strconv.FormatUint (Z.of_nat (List.length args))
                 +++ "h" +++ strconv.FormatUint digest))
      as [b' [[item [|]] [e|]]] eqn:Hget; cbn [fst snd].
    + rewrite (intercept_get_error via query args w d attrs Hon Hattrs
                 u _ Hhash b' item true e Hget).
      cbn. destruct (OnError cfg); repeat split.
    + rewrite (intercept_hit via query args w d attrs Hon Hattrs
                 u _ Hhash b' item Hget). repeat split.
    + rewrite (intercept_get_error via query args w d attrs Hon Hattrs
                 u _ Hhash b' item false e Hget).
      cbn. destruct (OnError cfg); repeat split.
    + rewrite (intercept_miss via query args w d attrs Hon Hattrs
                 u _ Hhash b' item Hget). repeat split.
Qed.

Lemma new_interceptor_uses_default_key_witness :
  let hash := fun (_ : string) (_ : list NamedValue) =>
                (6981320630335034596, @None error) in
  let cfg := {| Cache := Some memory.Cacher;
                OnError := @None (error -> mock.user -> mock.user);
                HashFunc := None |} in
  exists i,
    snd (NewInterceptor hash (Some cfg)) = (Some i, None) /\
    let w := {| Interceptor.self := i;
                Interceptor.backend :=
                  [("q75a1h6981320630335034596", mock.johnLisa)];
                Interceptor.user :=
                  {| mock.hashed := 0; mock.reported := [] |} |} in
    let d := {| mock.answer := (Some (mock.twoRows None), None);
                mock.ran := [] |} in
    Interceptor.Stats
      (fst (fst (intercept (direct mock.Queryer) mock.query mock.args w d)))
    = {| Hits := 1; Misses := 0; Errors := 0 |}.
Proof.
  intros hash cfg. eexists. split; [reflexivity|].
  intros w d.
  exact (proj2 (new_interceptor_uses_default_key
                  hash cfg _ (direct mock.Queryer) mock.query mock.args
                  {| ttl := 30; maxRows := 10 |}
                  [("q75a1h6981320630335034596", mock.johnLisa)]
                  {| mock.hashed := 0; mock.reported := [] |} d
                  eq_refl eq_refl eq_refl)).
Defined.

(** ** The TTL of a commit *)

(** X11: The TTL a commit hands to the backend is the policy's number of
    seconds exactly when that number is at most 9223372036, the whole
    seconds a [time.Duration] holds; a larger [@cache-ttl] reaches the
    backend as a different, wrapped duration. *)
Theorem ttl_exact_iff_duration_holds_it (query : string) (attrs : attributes)
  (Hattrs : getAttrs query = Some attrs) :
  (time.seconds (ttl attrs) = ttl attrs * 1000000000
   <-> ttl attrs <= 9223372036) /\
  minInt <= time.seconds (ttl attrs) <= maxInt /\
  (forall (B U : Type) key h item (w : Interceptor.world B U),
     Interceptor.backend (Interceptor.cacheSetter key attrs h item w)
     = fst (cache.Set_ (Interceptor.c (Interceptor.self w))
              (Interceptor.backend w) h key item (time.seconds (ttl attrs)))).
Proof.
  destruct (getAttrs_in_range query attrs Hattrs) as [[Hlo Hhi] _].
  assert (Hrange : minInt <= time.seconds (ttl attrs) <= maxInt).
  { unfold time.seconds, wrap64, minInt, maxInt.
    match goal with
    | |- _ <= ?x mod ?m - _ <= _ =>
        pose proof (Z.mod_pos_bound x m ltac:(lia))
    end. lia. }
  split; [|split; [exact Hrange|]].
  - split.
    + intros E. rewrite E in Hrange. unfold maxInt in Hrange. lia.
    + intros Hfit. apply seconds_exact. lia.
  - intros B U key h item w. rewrite cacheSetter_spec.
    destruct (cache.Set_ _ _ _ _ _ _) as [b' [e|]]; cbn [fst snd].
    + unfold afterError, Interceptor.reportErr.
      cbn. destruct (Interceptor.onErr (Interceptor.self w)); reflexivity.
    + reflexivity.
Qed.

Lemma ttl_exact_iff_duration_holds_it_witness :
  let attrs := {| ttl := 9223372037; maxRows := 10 |} in
  getAttrs "-- @cache-ttl 9223372037 -- @cache-max-rows 10 SELECT 1"
  = Some attrs /\
  time.seconds (ttl attrs) = -9223372036709551616 /\
  time.seconds (ttl attrs) <> ttl attrs * 1000000000.
Proof.
  intros attrs.
  destruct (ttl_exact_iff_duration_holds_it
              "-- @cache-ttl 9223372037 -- @cache-max-rows 10 SELECT 1"
              attrs eq_refl) as [[Hexact _] _].
  split; [reflexivity|]. split; [reflexivity|].
  intros E. apply Hexact in E. cbn in E. lia.
Defined.
